(** * The virtio-iommu mapping engine of hw/vfio/ioas.c

    The source file carries two generations of the virtio-iommu device:
    - lines 286-966: domains and endpoints, unmap refuses to split
      (module [DomainVariant]);
    - lines 968-2071: address spaces and devices, notifiers, probe,
      unmap trims left and right (module [AsVariant]).

    Both are embedded below, function by function, under the names of
    the C source.  [uint64_t] values are [Z] with the wrap-around
    written out, the registries keyed by an integer are [gmap]s, the
    interval-keyed [GTree]s are binary search trees driven by the
    comparator the code hands to GLib. *)

From Stdlib Require Import ZArith Lia Bool List.
From stdpp Require Import base option list gmap.

Local Open Scope Z_scope.

(** ** Machine integers *)

Definition u64 (x : Z) : Z := x mod 2 ^ 64.

(** ** What the sources take from headers that are not part of them

    Constants, macros and inline helpers of QEMU's and Linux's headers
    are parameters of the development. [qemu_headers], at the end of the
    definitions, gives the values those headers have; it is used where a
    statement is evaluated on concrete requests. *)

Class Externals := {
  IOMMU_NONE : Z;
  IOMMU_RO : Z;
  IOMMU_WO : Z;
  IOMMU_RW : Z;
  VIRTIO_IOMMU_MAP_F_READ : Z;
  VIRTIO_IOMMU_MAP_F_WRITE : Z;
  VIRTIO_IOMMU_F_BYPASS : Z;
  VIRTIO_IOMMU_PROBE_T_NONE : Z;
  VIRTIO_IOMMU_PROBE_T_RESV_MEM : Z;
  VIRTIO_IOMMU_PROBE_T_MASK : Z;
  sizeof_probe_resv_mem : Z;
  PCI_BUILD_BDF : Z -> Z -> Z;
  ctz32 : Z -> Z;
  virtio_has_feature : Z -> Z -> bool
}.

(** Status byte of the request tail. *)
Inductive status :=
| VIRTIO_IOMMU_S_OK
| VIRTIO_IOMMU_S_NOENT
| VIRTIO_IOMMU_S_INVAL
| VIRTIO_IOMMU_S_RANGE
| VIRTIO_IOMMU_S_UNSUPP
| VIRTIO_IOMMU_S_DEVERR.

(** Negative errno values returned by the probe helpers. *)
Inductive errno := EINVAL | ENOSPC | ENOENT.

(** Which diagnostic branch of [virtio_iommu_translate] was taken. *)
Inductive fault := UnknownDevice | Unattached | NoMapping | PermissionDenied.

(** ** GLib's GTree, keyed by intervals

    GLib is a library, not code of this repository.  A [GTree] is a
    balanced binary tree searched from the root with the comparator
    given at creation: [key_compare key node_key] is 0 (found), negative
    (go left) or positive (go right).  Rebalancing is left out: the
    general statements below are made for every tree that satisfies the
    search-tree ordering, whatever its shape, and speak of the entries
    of the tree, never of the shape an insertion or a removal leaves;
    the concrete runs use trees of at most three nodes, on which a
    balanced tree and this one have the same shape, or only traverse
    the tree in order. *)
Module GLib.

Record viommu_interval := mk_interval { low : Z; high : Z }.

Section GTree.
Context {V : Type}.
Variable key_compare : viommu_interval -> viommu_interval -> Z.

Inductive GTree :=
| GLeaf
| GNode (l : GTree) (k : viommu_interval) (v : V) (r : GTree).

Fixpoint g_tree_lookup_extended (t : GTree) (key : viommu_interval)
  : option (viommu_interval * V) :=
  match t with
  | GLeaf => None
  | GNode l k v r =>
      let c := key_compare key k in
      if c =? 0 then Some (k, v)
      else if c <? 0 then g_tree_lookup_extended l key
      else g_tree_lookup_extended r key
  end.

Definition g_tree_lookup (t : GTree) (key : viommu_interval) : option V :=
  match g_tree_lookup_extended t key with
  | Some (_, v) => Some v
  | None => None
  end.

(** [g_tree_insert]: a key that compares equal to a stored one keeps
    the stored key and replaces the value.  (GLib then rebalances: the
    entries are these, the shape may differ.) *)
Fixpoint g_tree_insert (t : GTree) (key : viommu_interval) (value : V)
  : GTree :=
  match t with
  | GLeaf => GNode GLeaf key value GLeaf
  | GNode l k v r =>
      let c := key_compare key k in
      if c =? 0 then GNode l k value r
      else if c <? 0 then GNode (g_tree_insert l key value) k v r
      else GNode l k v (g_tree_insert r key value)
  end.

Fixpoint g_tree_first (t : GTree) : option (viommu_interval * V) :=
  match t with
  | GLeaf => None
  | GNode GLeaf k v _ => Some (k, v)
  | GNode l _ _ _ => g_tree_first l
  end.

Fixpoint g_tree_remove_first (t : GTree) : GTree :=
  match t with
  | GLeaf => GLeaf
  | GNode GLeaf _ _ r => r
  | GNode l k v r => GNode (g_tree_remove_first l) k v r
  end.

(** [g_tree_remove]: the node found by the comparator is unlinked; a
    node with two children is replaced by its in-order successor.
    (GLib then rebalances: the entries are these, the shape may
    differ.) *)
Fixpoint g_tree_remove (t : GTree) (key : viommu_interval) : GTree :=
  match t with
  | GLeaf => GLeaf
  | GNode l k v r =>
      let c := key_compare key k in
      if c =? 0 then
        match l, g_tree_first r with
        | GLeaf, _ => r
        | _, None => l
        | _, Some (k', v') => GNode l k' v' (g_tree_remove_first r)
        end
      else if c <? 0 then GNode (g_tree_remove l key) k v r
      else GNode l k v (g_tree_remove r key)
  end.

(** In-order list of the entries: the order of [g_tree_foreach]. *)
Fixpoint g_tree_entries (t : GTree) : list (viommu_interval * V) :=
  match t with
  | GLeaf => []
  | GNode l k v r => g_tree_entries l ++ (k, v) :: g_tree_entries r
  end.

Definition g_tree_keys (t : GTree) : list viommu_interval :=
  map fst (g_tree_entries t).

Definition g_tree_nnodes (t : GTree) : nat := length (g_tree_entries t).
End GTree.

Arguments GTree V : clear implicits.
Arguments GLeaf {V}.

(** [g_tree_foreach]: in-order traversal, stopped by the first callback
    that returns TRUE. *)
Fixpoint foreach_entries {V A : Type}
  (func : viommu_interval -> V -> A -> A * bool)
  (es : list (viommu_interval * V)) (data : A) : A :=
  match es with
  | [] => data
  | (k, v) :: es' =>
      let '(data', stop) := func k v data in
      if stop then data' else foreach_entries func es' data'
  end.

Definition g_tree_foreach {V A : Type} (t : GTree V)
  (func : viommu_interval -> V -> A -> A * bool) (data : A) : A :=
  foreach_entries func (g_tree_entries t) data.

End GLib.

Export GLib.

(** IOMMUTLBEntry, without [target_as], which is always
    [address_space_memory]. *)
Record IOMMUTLBEntry := mk_entry {
  iova : Z;
  translated_addr : Z;
  addr_mask : Z;
  perm : Z
}.

(** An IOMMUDevice is known by its bus number and devfn; its IOMMU memory
    region is identified with it ([container_of]). *)
Record IOMMUDevice := mk_iommu_device { bus_num : Z; devfn : Z }.

(** ** Lines 286-966: domains and endpoints *)
Module DomainVariant.

Record viommu_mapping := mk_mapping { phys_addr : Z; flags : Z }.

(** [domain] of an endpoint and [endpoint_list] of a domain are pointers
    in C; domains and endpoints live in the registries until unrealize,
    so a pointer is the identifier under which the registry holds the
    object.  [mappings_ref] is the reference count of the [mappings]
    tree. *)
Record viommu_domain := mk_domain {
  domain_id : Z;
  mappings : GTree viommu_mapping;
  mappings_ref : Z;
  endpoint_list : list Z
}.

Record viommu_endpoint := mk_endpoint {
  endpoint_id : Z;
  domain : option Z
}.

Record VirtIOIOMMU := mk_state {
  domains : gmap Z viommu_domain;
  endpoints : gmap Z viommu_endpoint;
  acked_features : Z;
  page_size_mask : Z
}.

Record virtio_iommu_req_attach := mk_req_attach {
  attach_domain : Z; attach_endpoint : Z }.
Record virtio_iommu_req_detach := mk_req_detach {
  detach_domain : Z; detach_endpoint : Z }.
Record virtio_iommu_req_map := mk_req_map {
  map_domain : Z; map_phys_start : Z; map_virt_start : Z; map_virt_end : Z;
  map_flags : Z }.
Record virtio_iommu_req_unmap := mk_req_unmap {
  unmap_domain : Z; unmap_virt_start : Z; unmap_virt_end : Z }.

Definition interval_cmp (inta intb : viommu_interval) : Z :=
  if high inta <? low intb then -1
  else if high intb <? low inta then 1
  else 0.

Definition set_domains (s : VirtIOIOMMU) (d : gmap Z viommu_domain) :=
  mk_state d (endpoints s) (acked_features s) (page_size_mask s).
Definition set_endpoints (s : VirtIOIOMMU) (e : gmap Z viommu_endpoint) :=
  mk_state (domains s) e (acked_features s) (page_size_mask s).

(** QLIST_REMOVE; g_tree_unref; ep->domain = NULL. *)
Definition virtio_iommu_detach_endpoint_from_domain
  (s : VirtIOIOMMU) (ep : viommu_endpoint) : VirtIOIOMMU :=
  match domain ep with
  | None => s
  | Some d =>
      let unlink dom :=
        mk_domain (domain_id dom) (mappings dom) (mappings_ref dom - 1)
          (filter (fun e => e ≠ endpoint_id ep) (endpoint_list dom)) in
      let s1 := set_domains s (alter unlink d (domains s)) in
      set_endpoints s1
        (<[endpoint_id ep := mk_endpoint (endpoint_id ep) None]> (endpoints s1))
  end.

Definition virtio_iommu_get_endpoint (s : VirtIOIOMMU) (ep_id : Z)
  : VirtIOIOMMU * viommu_endpoint :=
  match endpoints s !! ep_id with
  | Some ep => (s, ep)
  | None =>
      let ep := mk_endpoint ep_id None in
      (set_endpoints s (<[ep_id := ep]> (endpoints s)), ep)
  end.

Definition virtio_iommu_get_domain (s : VirtIOIOMMU) (id : Z)
  : VirtIOIOMMU * viommu_domain :=
  match domains s !! id with
  | Some dom => (s, dom)
  | None =>
      let dom := mk_domain id GLeaf 1 [] in
      (set_domains s (<[id := dom]> (domains s)), dom)
  end.

Definition virtio_iommu_attach (s : VirtIOIOMMU) (req : virtio_iommu_req_attach)
  : status * VirtIOIOMMU :=
  let domain_id := attach_domain req in
  let ep_id := attach_endpoint req in
  let '(s1, ep) := virtio_iommu_get_endpoint s ep_id in
  let s2 := match domain ep with
            | Some _ => virtio_iommu_detach_endpoint_from_domain s1 ep
            | None => s1
            end in
  let '(s3, dom) := virtio_iommu_get_domain s2 domain_id in
  let dom' := mk_domain (DomainVariant.domain_id dom) (mappings dom)
                (mappings_ref dom + 1) (ep_id :: endpoint_list dom) in
  let s4 := set_domains s3 (<[domain_id := dom']> (domains s3)) in
  (VIRTIO_IOMMU_S_OK,
   set_endpoints s4
     (<[ep_id := mk_endpoint (endpoint_id ep) (Some domain_id)]> (endpoints s4))).

Definition virtio_iommu_detach (s : VirtIOIOMMU) (req : virtio_iommu_req_detach)
  : status * VirtIOIOMMU :=
  match endpoints s !! detach_endpoint req with
  | None => (VIRTIO_IOMMU_S_NOENT, s)
  | Some ep =>
      match domain ep with
      | None => (VIRTIO_IOMMU_S_INVAL, s)
      | Some _ =>
          (VIRTIO_IOMMU_S_OK, virtio_iommu_detach_endpoint_from_domain s ep)
      end
  end.

Definition virtio_iommu_map (s : VirtIOIOMMU) (req : virtio_iommu_req_map)
  : status * VirtIOIOMMU :=
  let interval := mk_interval (map_virt_start req) (map_virt_end req) in
  match domains s !! map_domain req with
  | None => (VIRTIO_IOMMU_S_NOENT, s)
  | Some dom =>
      match g_tree_lookup interval_cmp (mappings dom) interval with
      | Some _ => (VIRTIO_IOMMU_S_INVAL, s)
      | None =>
          let mapping := mk_mapping (map_phys_start req) (map_flags req) in
          let dom' := mk_domain (domain_id dom)
                        (g_tree_insert interval_cmp (mappings dom) interval mapping)
                        (mappings_ref dom) (endpoint_list dom) in
          (VIRTIO_IOMMU_S_OK,
           set_domains s (<[map_domain req := dom']> (domains s)))
      end
  end.

(** The [while] of [virtio_iommu_unmap].  Each pass that does not break
    calls [g_tree_remove]; when that call finds nothing to remove the C
    loop does not end, so the loop takes fuel and [None] is "still
    running". *)
Fixpoint unmap_loop (fuel : nat) (t : GTree viommu_mapping)
  (interval : viommu_interval) : option (status * GTree viommu_mapping) :=
  match g_tree_lookup_extended interval_cmp t interval with
  | None => Some (VIRTIO_IOMMU_S_OK, t)
  | Some (iter_key, _) =>
      let current_low := low iter_key in
      let current_high := high iter_key in
      if (low interval <=? current_low) && (high interval >=? current_high)
      then
        match fuel with
        | O => None
        | S fuel' =>
            unmap_loop fuel' (g_tree_remove interval_cmp t iter_key) interval
        end
      else Some (VIRTIO_IOMMU_S_RANGE, t)
  end.

Definition virtio_iommu_unmap (fuel : nat) (s : VirtIOIOMMU)
  (req : virtio_iommu_req_unmap) : option (status * VirtIOIOMMU) :=
  match domains s !! unmap_domain req with
  | None => Some (VIRTIO_IOMMU_S_NOENT, s)
  | Some dom =>
      let interval := mk_interval (unmap_virt_start req) (unmap_virt_end req) in
      match unmap_loop fuel (mappings dom) interval with
      | None => None
      | Some (ret, t') =>
          let dom' := mk_domain (domain_id dom) t' (mappings_ref dom)
                        (endpoint_list dom) in
          Some (ret, set_domains s (<[unmap_domain req := dom']> (domains s)))
      end
  end.

Section Translate.
Context `{Externals}.

Definition virtio_iommu_get_sid (dev : IOMMUDevice) : Z :=
  PCI_BUILD_BDF (bus_num dev) (devfn dev) mod 2 ^ 16.

(** The entry returned and the diagnostic reported, if any.  The branch
    for a domain the registry does not hold has no counterpart in C,
    where [ep->domain] is a pointer to a live domain. *)
Definition virtio_iommu_translate (s : VirtIOIOMMU) (sdev : IOMMUDevice)
  (addr : Z) (flag : Z) : IOMMUTLBEntry * option fault :=
  let interval := mk_interval addr (u64 (addr + 1)) in
  let entry := mk_entry addr addr
                 (Z.shiftl 1 (ctz32 (page_size_mask s)) - 1) IOMMU_NONE in
  let grant := mk_entry addr addr (addr_mask entry) flag in
  let bypass_allowed :=
    virtio_has_feature (acked_features s) VIRTIO_IOMMU_F_BYPASS in
  let sid := virtio_iommu_get_sid sdev in
  match endpoints s !! sid with
  | None =>
      if negb bypass_allowed then (entry, Some UnknownDevice)
      else (grant, None)
  | Some ep =>
      match domain ep with
      | None =>
          if negb bypass_allowed then (entry, Some Unattached)
          else (grant, None)
      | Some d =>
          match domains s !! d with
          | None => (entry, Some NoMapping)
          | Some dom =>
              match g_tree_lookup_extended interval_cmp (mappings dom) interval with
              | None => (entry, Some NoMapping)
              | Some (mapping_key, mapping_value) =>
                  if ((negb (Z.land flag IOMMU_RO =? 0)) &&
                      (Z.land (flags mapping_value) VIRTIO_IOMMU_MAP_F_READ =? 0))
                     || ((negb (Z.land flag IOMMU_WO =? 0)) &&
                         (Z.land (flags mapping_value) VIRTIO_IOMMU_MAP_F_WRITE =? 0))
                  then (entry, Some PermissionDenied)
                  else
                    (mk_entry addr
                       (u64 (addr - low mapping_key + phys_addr mapping_value))
                       (addr_mask entry) flag, None)
              end
          end
      end
  end.
End Translate.

End DomainVariant.

(** ** Lines 968-2071: address spaces and devices *)
Module AsVariant.

Definition VIOMMU_PROBE_SIZE : Z := 512.

Record viommu_mapping := mk_mapping {
  virt_addr : Z;
  phys_addr : Z;
  size : Z;
  flags : Z
}.

Record virtio_iommu_probe_resv_mem := mk_resv_mem {
  resv_subtype : Z;
  resv_addr : Z;
  resv_size : Z;
  resv_flags : Z
}.

(** As in [DomainVariant], the pointers [as] and [device_list] are the
    identifiers under which the registries hold the objects. *)
Record viommu_as := mk_as {
  as_id : Z;
  mappings : GTree viommu_mapping;
  mappings_ref : Z;
  device_list : list Z
}.

Record viommu_dev := mk_dev {
  dev_id : Z;
  as_ : option Z;
  reserved_regions : GTree virtio_iommu_probe_resv_mem
}.

(** [notified] is the sequence of calls to [memory_region_notify_iommu],
    oldest first. *)
Record VirtIOIOMMU := mk_state {
  address_spaces : gmap Z viommu_as;
  devices : gmap Z viommu_dev;
  notifiers_list : list IOMMUDevice;
  page_size_mask : Z;
  notified : list (IOMMUDevice * IOMMUTLBEntry)
}.

Record virtio_iommu_req_attach := mk_req_attach {
  attach_address_space : Z; attach_device : Z; attach_reserved : Z }.
Record virtio_iommu_req_detach := mk_req_detach {
  detach_device : Z; detach_reserved : Z }.
Record virtio_iommu_req_map := mk_req_map {
  map_address_space : Z; map_phys_addr : Z; map_virt_addr : Z; map_size : Z;
  map_flags : Z }.
Record virtio_iommu_req_unmap := mk_req_unmap {
  unmap_address_space : Z; unmap_virt_addr : Z; unmap_size : Z }.
Record virtio_iommu_req_probe := mk_req_probe { probe_device : Z }.

(** One property record written into the probe buffer. *)
Record probe_property := mk_property {
  prop_offset : Z;
  prop_type : Z;
  prop_length : Z;
  prop_value : option virtio_iommu_probe_resv_mem
}.

Record viommu_property_buffer := mk_bufstate {
  buf_dev : viommu_dev;
  filled : Z;
  start : list probe_property;
  error : bool
}.

Inductive probe_ret :=
| probe_status (st : status)
| probe_neg (e : errno).

Definition interval_cmp (inta intb : viommu_interval) : Z :=
  if high inta <=? low intb then -1
  else if high intb <=? low inta then 1
  else 0.

Definition set_address_spaces (s : VirtIOIOMMU) (a : gmap Z viommu_as) :=
  mk_state a (devices s) (notifiers_list s) (page_size_mask s) (notified s).
Definition set_devices (s : VirtIOIOMMU) (d : gmap Z viommu_dev) :=
  mk_state (address_spaces s) d (notifiers_list s) (page_size_mask s) (notified s).
Definition memory_region_notify_iommu (s : VirtIOIOMMU)
  (evs : list (IOMMUDevice * IOMMUTLBEntry)) :=
  mk_state (address_spaces s) (devices s) (notifiers_list s) (page_size_mask s)
    (notified s ++ evs).

Section Commands.
Context `{Externals}.

Definition virtio_iommu_get_sid (dev : IOMMUDevice) : Z :=
  PCI_BUILD_BDF (bus_num dev) (devfn dev) mod 2 ^ 16.

Definition virtio_iommu_notify_map (mr : IOMMUDevice) (iova paddr size : Z)
  : IOMMUDevice * IOMMUTLBEntry :=
  (mr, mk_entry iova paddr (u64 (size - 1)) IOMMU_RW).

Definition virtio_iommu_notify_unmap (mr : IOMMUDevice) (iova paddr size : Z)
  : IOMMUDevice * IOMMUTLBEntry :=
  (mr, mk_entry iova 0 (u64 (size - 1)) IOMMU_NONE).

Definition virtio_iommu_mapping_unmap (mr : IOMMUDevice)
  (key : viommu_interval) (mapping : viommu_mapping)
  (out : list (IOMMUDevice * IOMMUTLBEntry)) :=
  (out ++ [virtio_iommu_notify_unmap mr (virt_addr mapping) 0 (size mapping)],
   false).

Definition virtio_iommu_mapping_map (mr : IOMMUDevice)
  (key : viommu_interval) (mapping : viommu_mapping)
  (out : list (IOMMUDevice * IOMMUTLBEntry)) :=
  (out ++ [virtio_iommu_notify_map mr (virt_addr mapping) (phys_addr mapping)
             (size mapping)],
   false).

(** The notifications of one QLIST_FOREACH over [notifiers_list] that
    walks the tree [t] for every node whose devfn is [id]. *)
Definition foreach_notifier_tree
  (func : IOMMUDevice -> viommu_interval -> viommu_mapping ->
          list (IOMMUDevice * IOMMUTLBEntry) ->
          list (IOMMUDevice * IOMMUTLBEntry) * bool)
  (nodes : list IOMMUDevice) (id : Z) (t : GTree viommu_mapping)
  : list (IOMMUDevice * IOMMUTLBEntry) :=
  flat_map (fun node =>
              if id =? devfn node then g_tree_foreach t (func node) []
              else []) nodes.

Definition virtio_iommu_detach_dev_from_as (s : VirtIOIOMMU) (dev : viommu_dev)
  : VirtIOIOMMU :=
  match as_ dev with
  | None => s
  | Some a =>
      let evs := match address_spaces s !! a with
                 | Some asp =>
                     foreach_notifier_tree virtio_iommu_mapping_unmap
                       (notifiers_list s) (dev_id dev) (mappings asp)
                 | None => []
                 end in
      let unlink asp :=
        mk_as (as_id asp) (mappings asp) (mappings_ref asp)
          (filter (fun d => d ≠ dev_id dev) (device_list asp)) in
      let s1 := memory_region_notify_iommu s evs in
      let s2 := set_address_spaces s1 (alter unlink a (address_spaces s1)) in
      set_devices s2
        (<[dev_id dev := mk_dev (dev_id dev) None (reserved_regions dev)]>
           (devices s2))
  end.

Definition virtio_iommu_get_dev (s : VirtIOIOMMU) (devid : Z)
  : VirtIOIOMMU * viommu_dev :=
  match devices s !! devid with
  | Some dev => (s, dev)
  | None =>
      let dev := mk_dev devid None GLeaf in
      (set_devices s (<[devid := dev]> (devices s)), dev)
  end.

Definition virtio_iommu_get_as (s : VirtIOIOMMU) (asid : Z)
  : VirtIOIOMMU * viommu_as :=
  match address_spaces s !! asid with
  | Some asp => (s, asp)
  | None =>
      let asp := mk_as asid GLeaf 1 [] in
      (set_address_spaces s (<[asid := asp]> (address_spaces s)), asp)
  end.

Definition virtio_iommu_attach (s : VirtIOIOMMU) (req : virtio_iommu_req_attach)
  : status * VirtIOIOMMU :=
  let asid := attach_address_space req in
  let devid := attach_device req in
  if negb (attach_reserved req =? 0) then (VIRTIO_IOMMU_S_INVAL, s)
  else
    let '(s1, dev) := virtio_iommu_get_dev s devid in
    let s2 := match as_ dev with
              | Some _ => virtio_iommu_detach_dev_from_as s1 dev
              | None => s1
              end in
    let '(s3, asp) := virtio_iommu_get_as s2 asid in
    let asp' := mk_as (as_id asp) (mappings asp) (mappings_ref asp + 1)
                  (devid :: device_list asp) in
    let s4 := set_address_spaces s3 (<[asid := asp']> (address_spaces s3)) in
    let s5 := set_devices s4
                (<[devid := mk_dev (dev_id dev) (Some asid) (reserved_regions dev)]>
                   (devices s4)) in
    (VIRTIO_IOMMU_S_OK,
     memory_region_notify_iommu s5
       (foreach_notifier_tree virtio_iommu_mapping_map (notifiers_list s5)
          devid (mappings asp'))).

Definition virtio_iommu_detach (s : VirtIOIOMMU) (req : virtio_iommu_req_detach)
  : status * VirtIOIOMMU :=
  if negb (detach_reserved req =? 0) then (VIRTIO_IOMMU_S_INVAL, s)
  else
    match devices s !! detach_device req with
    | None => (VIRTIO_IOMMU_S_NOENT, s)
    | Some dev =>
        match as_ dev with
        | None => (VIRTIO_IOMMU_S_INVAL, s)
        | Some _ => (VIRTIO_IOMMU_S_OK, virtio_iommu_detach_dev_from_as s dev)
        end
    end.

(** The two nested QLIST_FOREACH of map and remove_mapping: one call of
    [notify] per pair of a notifier node and a device of the address
    space with [dev->id == node->iommu_dev->devfn]. *)
Definition foreach_notifier_device
  (notify : IOMMUDevice -> IOMMUDevice * IOMMUTLBEntry)
  (nodes : list IOMMUDevice) (devs : list Z)
  : list (IOMMUDevice * IOMMUTLBEntry) :=
  flat_map (fun node =>
              flat_map (fun d => if d =? devfn node then [notify node] else [])
                devs) nodes.

Definition virtio_iommu_map (s : VirtIOIOMMU) (req : virtio_iommu_req_map)
  : status * VirtIOIOMMU :=
  let asid := map_address_space req in
  let virt_addr := map_virt_addr req in
  let size := map_size req in
  let interval := mk_interval virt_addr (u64 (virt_addr + size - 1)) in
  match address_spaces s !! asid with
  | None => (VIRTIO_IOMMU_S_NOENT, s)
  | Some asp =>
      match g_tree_lookup interval_cmp (mappings asp) interval with
      | Some _ => (VIRTIO_IOMMU_S_INVAL, s)
      | None =>
          let mapping := mk_mapping virt_addr (map_phys_addr req) size
                           (map_flags req) in
          let asp' := mk_as (as_id asp)
                        (g_tree_insert interval_cmp (mappings asp) interval mapping)
                        (mappings_ref asp) (device_list asp) in
          let s1 := set_address_spaces s (<[asid := asp']> (address_spaces s)) in
          (VIRTIO_IOMMU_S_OK,
           memory_region_notify_iommu s1
             (foreach_notifier_device
                (fun mr => virtio_iommu_notify_map mr virt_addr
                             (map_phys_addr req) size)
                (notifiers_list s1) (device_list asp')))
      end
  end.

(** [virtio_iommu_remove_mapping]: the tree after [g_tree_remove] and
    the unmap notifications. *)
Definition virtio_iommu_remove_mapping (nodes : list IOMMUDevice)
  (devs : list Z) (t : GTree viommu_mapping) (interval : viommu_interval)
  : GTree viommu_mapping * list (IOMMUDevice * IOMMUTLBEntry) :=
  (g_tree_remove interval_cmp t interval,
   foreach_notifier_device
     (fun mr => virtio_iommu_notify_unmap mr (low interval) 0
                  (u64 (high interval - low interval + 1)))
     nodes devs).

(** The [while (mapping)] of [virtio_iommu_unmap]; [None] is "still
    running" (a pass whose [g_tree_remove] removes nothing can repeat
    for ever). *)
Fixpoint unmap_loop (fuel : nat) (nodes : list IOMMUDevice) (devs : list Z)
  (size : Z) (t : GTree viommu_mapping) (interval : viommu_interval)
  (evs : list (IOMMUDevice * IOMMUTLBEntry)) (mapping : option viommu_mapping)
  : option (status * GTree viommu_mapping * list (IOMMUDevice * IOMMUTLBEntry)) :=
  match mapping with
  | None => Some (VIRTIO_IOMMU_S_OK, t, evs)
  | Some m =>
      let low_ := virt_addr m in
      let high_ := u64 (virt_addr m + AsVariant.size m - 1) in
      let current := mk_interval low_ high_ in
      let next t' evs' interval' :=
        if low interval' >=? high interval'
        then Some (VIRTIO_IOMMU_S_OK, t', evs')
        else
          match fuel with
          | O => None
          | S fuel' =>
              unmap_loop fuel' nodes devs size t' interval' evs'
                (g_tree_lookup interval_cmp t' interval')
          end in
      if (low_ =? low interval) && (size >=? AsVariant.size m) then
        let '(t', evs') := virtio_iommu_remove_mapping nodes devs t current in
        next t' (evs ++ evs') (mk_interval (u64 (high_ + 1)) (high interval))
      else if (high_ =? high interval) && (size >=? AsVariant.size m) then
        let '(t', evs') := virtio_iommu_remove_mapping nodes devs t current in
        next t' (evs ++ evs') (mk_interval (low interval) (u64 (low_ - 1)))
      else if (low_ >? low interval) && (high_ <? high interval) then
        let '(t', evs') := virtio_iommu_remove_mapping nodes devs t current in
        next t' (evs ++ evs') interval
      else Some (VIRTIO_IOMMU_S_INVAL, t, evs)
  end.

Definition virtio_iommu_unmap (fuel : nat) (s : VirtIOIOMMU)
  (req : virtio_iommu_req_unmap) : option (status * VirtIOIOMMU) :=
  let asid := unmap_address_space req in
  let virt_addr := unmap_virt_addr req in
  let size := unmap_size req in
  match address_spaces s !! asid with
  | None => Some (VIRTIO_IOMMU_S_NOENT, s)
  | Some asp =>
      let interval := mk_interval virt_addr (u64 (virt_addr + size - 1)) in
      match unmap_loop fuel (notifiers_list s) (device_list asp) size
              (mappings asp) interval []
              (g_tree_lookup interval_cmp (mappings asp) interval) with
      | None => None
      | Some (ret, t', evs) =>
          let asp' := mk_as (as_id asp) t' (mappings_ref asp) (device_list asp) in
          Some (ret,
                memory_region_notify_iommu
                  (set_address_spaces s (<[asid := asp']> (address_spaces s)))
                  evs)
      end
  end.

(** Callback of the [g_tree_foreach] over [reserved_regions]. *)
Definition virtio_iommu_fill_resv_mem_prop (key : viommu_interval)
  (resv : virtio_iommu_probe_resv_mem) (bufstate : viommu_property_buffer)
  : viommu_property_buffer * bool :=
  let size := sizeof_probe_resv_mem in
  let total_size := size + 4 in
  if filled bufstate >=? VIOMMU_PROBE_SIZE then
    (mk_bufstate (buf_dev bufstate) (filled bufstate) (start bufstate) true,
     true)
  else
    let prop := mk_property (filled bufstate)
                  (Z.land VIRTIO_IOMMU_PROBE_T_RESV_MEM VIRTIO_IOMMU_PROBE_T_MASK)
                  size (Some resv) in
    (mk_bufstate (buf_dev bufstate) (filled bufstate + total_size)
       (start bufstate ++ [prop]) (error bufstate),
     false).

Definition virtio_iommu_fill_none_prop (bufstate : viommu_property_buffer)
  : option errno * viommu_property_buffer :=
  let prop := mk_property (filled bufstate)
                (Z.land VIRTIO_IOMMU_PROBE_T_NONE VIRTIO_IOMMU_PROBE_T_MASK)
                0 None in
  (None,
   mk_bufstate (buf_dev bufstate) (filled bufstate + 4)
     (start bufstate ++ [prop]) (error bufstate)).

(** The result is [None] for 0 and [Some e] for [-e]. *)
Definition virtio_iommu_fill_property (devid : Z) (type : Z)
  (bufstate : viommu_property_buffer)
  : option errno * viommu_property_buffer :=
  if filled bufstate + 4 >=? VIOMMU_PROBE_SIZE then
    (Some ENOSPC,
     mk_bufstate (buf_dev bufstate) (filled bufstate) (start bufstate) true)
  else if type =? VIRTIO_IOMMU_PROBE_T_NONE then
    virtio_iommu_fill_none_prop bufstate
  else if type =? VIRTIO_IOMMU_PROBE_T_RESV_MEM then
    let bufstate' :=
      g_tree_foreach (reserved_regions (buf_dev bufstate))
        virtio_iommu_fill_resv_mem_prop bufstate in
    (if error bufstate' then Some ENOSPC else None, bufstate')
  else (Some ENOENT, bufstate).

(** The [while ((type = ctz32(prop_types)) != 32)] of
    [virtio_iommu_probe]; [prop_types] is an [int16_t], which the
    property types of the header fit in. *)
Fixpoint probe_loop (fuel : nat) (devid : Z) (prop_types : Z)
  (bufstate : viommu_property_buffer) : option viommu_property_buffer :=
  let type := ctz32 prop_types in
  if type =? 32 then Some bufstate
  else
    match fuel with
    | O => None
    | S fuel' =>
        let '(ret, bufstate') :=
          virtio_iommu_fill_property devid (Z.shiftl 1 type) bufstate in
        match ret with
        | Some _ => Some bufstate'
        | None =>
            probe_loop fuel' devid
              (Z.land prop_types (Z.lnot (Z.shiftl 1 type))) bufstate'
        end
    end.

Definition SUPPORTED_PROBE_PROPERTIES : Z :=
  Z.lor VIRTIO_IOMMU_PROBE_T_NONE VIRTIO_IOMMU_PROBE_T_RESV_MEM.

(** The value returned and the buffer state left behind. *)
Definition virtio_iommu_probe (fuel : nat) (s : VirtIOIOMMU)
  (req : virtio_iommu_req_probe)
  : option (probe_ret * option viommu_property_buffer) :=
  let devid := probe_device req in
  match devices s !! devid with
  | None => Some (probe_neg EINVAL, None)
  | Some dev =>
      let bufstate := mk_bufstate dev 0 [] false in
      match probe_loop fuel devid SUPPORTED_PROBE_PROPERTIES bufstate with
      | None => None
      | Some bufstate' =>
          let '(_, bufstate'') :=
            virtio_iommu_fill_property devid VIRTIO_IOMMU_PROBE_T_NONE
              bufstate' in
          Some (probe_status VIRTIO_IOMMU_S_OK, Some bufstate'')
      end
  end.

(** The entry returned and the diagnostic reported, if any.  The branch
    for an address space the registry does not hold has no counterpart
    in C, where [dev->as] is a pointer to a live address space. *)
Definition virtio_iommu_translate (s : VirtIOIOMMU) (sdev : IOMMUDevice)
  (addr : Z) (flag : Z) : IOMMUTLBEntry * option fault :=
  let interval := mk_interval addr (u64 (addr + 1)) in
  let entry := mk_entry addr addr
                 (Z.shiftl 1 (ctz32 (page_size_mask s)) - 1) flag in
  let sid := virtio_iommu_get_sid sdev in
  match devices s !! sid with
  | None => (entry, Some UnknownDevice)
  | Some dev =>
      match as_ dev with
      | None => (entry, Some Unattached)
      | Some a =>
          match address_spaces s !! a with
          | None => (entry, Some NoMapping)
          | Some asp =>
              match g_tree_lookup interval_cmp (mappings asp) interval with
              | None => (entry, Some NoMapping)
              | Some mapping =>
                  if ((negb (Z.land flag IOMMU_RO =? 0)) &&
                      (Z.land (flags mapping) VIRTIO_IOMMU_MAP_F_READ =? 0))
                     || ((negb (Z.land flag IOMMU_WO =? 0)) &&
                         (Z.land (flags mapping) VIRTIO_IOMMU_MAP_F_WRITE =? 0))
                  then
                    (mk_entry addr addr (addr_mask entry) IOMMU_NONE,
                     Some PermissionDenied)
                  else
                    (mk_entry addr
                       (u64 (addr - virt_addr mapping + phys_addr mapping))
                       (addr_mask entry) flag, None)
              end
          end
      end
  end.
End Commands.

End AsVariant.

(** ** The values of the headers

    [IOMMUAccessFlags] of QEMU's memory API, the map flags, feature bit
    and probe property types of linux/virtio_iommu.h, [PCI_BUILD_BDF] of
    QEMU's PCI header, [ctz32] of its host utilities and
    [virtio_has_feature].  The size of a reserved-region record is taken
    to be 20 bytes; only the byte counts of the probe run depend on it. *)

Fixpoint ctz_pos (p : positive) : Z :=
  match p with
  | xO p' => 1 + ctz_pos p'
  | _ => 0
  end.

Definition ctz32_host (val : Z) : Z :=
  match val mod 2 ^ 32 with
  | Zpos p => ctz_pos p
  | _ => 32
  end.

#[local] Instance qemu_headers : Externals := {|
  IOMMU_NONE := 0;
  IOMMU_RO := 1;
  IOMMU_WO := 2;
  IOMMU_RW := 3;
  VIRTIO_IOMMU_MAP_F_READ := 1;
  VIRTIO_IOMMU_MAP_F_WRITE := 2;
  VIRTIO_IOMMU_F_BYPASS := 3;
  VIRTIO_IOMMU_PROBE_T_NONE := 0;
  VIRTIO_IOMMU_PROBE_T_RESV_MEM := 1;
  VIRTIO_IOMMU_PROBE_T_MASK := 4095;
  sizeof_probe_resv_mem := 20;
  PCI_BUILD_BDF := fun bus devfn => Z.lor (Z.shiftl bus 8) devfn;
  ctz32 := ctz32_host;
  virtio_has_feature := fun features fbit => Z.testbit features fbit
|}.

(** ** Notions used in the statements *)

(** Two closed intervals with an address in common (for non-empty
    intervals, see [intersects_common_address]). *)
Definition intersects (a b : viommu_interval) : Prop :=
  low a <= high b /\ low b <= high a.

Definition covers (a : viommu_interval) (x : Z) : Prop :=
  low a <= x <= high a.

(** [q] lies strictly inside [k]: removing it would split [k]. *)
Definition strictly_inside (q k : viommu_interval) : Prop :=
  low k < low q /\ low q <= high q /\ high q < high k.

(** Search-tree ordering of a [GTree]: every entry satisfies [ok], the
    keys on the left of a node are [before] its key and its key is
    [before] the keys on its right. *)
Section Ordered.
Context {V : Type}.
Variable before : viommu_interval -> viommu_interval -> Prop.
Variable ok : viommu_interval -> V -> Prop.

Fixpoint g_tree_ordered (t : GTree V) : Prop :=
  match t with
  | GLeaf => True
  | GNode l k v r =>
      ok k v /\
      Forall (fun e => before (fst e) k) (g_tree_entries l) /\
      Forall (fun e => before k (fst e)) (g_tree_entries r) /\
      g_tree_ordered l /\ g_tree_ordered r
  end.
End Ordered.

Module DomainNotions.
Import DomainVariant.

(** The interval map of a domain as well-formed requests build it:
    non-empty closed intervals in increasing order, each ending
    before the next begins. *)
Definition mappings_wf (t : GTree viommu_mapping) : Prop :=
  g_tree_ordered (fun a b => high a < low b)
    (fun k _ => low k <= high k) t.

(** No two intervals of the list have an address in common. *)
Fixpoint all_apart (ks : list viommu_interval) : Prop :=
  match ks with
  | [] => True
  | k :: ks' => Forall (fun k' => ~ intersects k k') ks' /\ all_apart ks'
  end.

(** Every interval map of the registry is well-formed. *)
Definition state_wf (s : VirtIOIOMMU) : Prop :=
  forall d dom, domains s !! d = Some dom -> mappings_wf (mappings dom).

Inductive command :=
| ATTACH (req : virtio_iommu_req_attach)
| DETACH (req : virtio_iommu_req_detach)
| MAP (req : virtio_iommu_req_map)
| UNMAP (req : virtio_iommu_req_unmap).

(** A MAP request names a non-empty range. *)
Definition command_wf (c : command) : Prop :=
  match c with
  | MAP req => map_virt_start req <= map_virt_end req
  | _ => True
  end.

Definition run_command (fuel : nat) (s : VirtIOIOMMU) (c : command)
  : option (status * VirtIOIOMMU) :=
  match c with
  | ATTACH req => Some (virtio_iommu_attach s req)
  | DETACH req => Some (virtio_iommu_detach s req)
  | MAP req => Some (virtio_iommu_map s req)
  | UNMAP req => virtio_iommu_unmap fuel s req
  end.

(** The commands of [cs] one after the other, whatever their status. *)
Fixpoint run_commands (fuel : nat) (s : VirtIOIOMMU) (cs : list command)
  : option VirtIOIOMMU :=
  match cs with
  | [] => Some s
  | c :: cs' =>
      match run_command fuel s c with
      | None => None
      | Some (_, s') => run_commands fuel s' cs'
      end
  end.

Definition empty_state : VirtIOIOMMU := mk_state ∅ ∅ 0 4096.

(** Domain 1 with endpoint 7 attached. *)
Definition attached_state : VirtIOIOMMU :=
  snd (virtio_iommu_attach empty_state (mk_req_attach 1 7)).

(** Then [0x1000, 0x1fff] mapped to 0x5000 and [0, 0xfff] to 0x9000. *)
Definition mapped_state : VirtIOIOMMU :=
  snd (virtio_iommu_map attached_state (mk_req_map 1 0x5000 0x1000 0x1fff 3)).

Definition mapped_twice_state : VirtIOIOMMU :=
  snd (virtio_iommu_map mapped_state (mk_req_map 1 0x9000 0 0xfff 3)).

(** What is left of [virtio_iommu_translate] once the endpoint and its
    domain are resolved: a function of the interval map of that domain
    (and of the page size mask) alone. *)
Definition translate_in_mappings `{Externals} (page_size_mask : Z)
  (t : GTree viommu_mapping) (addr flag : Z) : IOMMUTLBEntry * option fault :=
  let mask := Z.shiftl 1 (ctz32 page_size_mask) - 1 in
  match g_tree_lookup_extended interval_cmp t
          (mk_interval addr (u64 (addr + 1))) with
  | None => (mk_entry addr addr mask IOMMU_NONE, Some NoMapping)
  | Some (mapping_key, mapping_value) =>
      if ((negb (Z.land flag IOMMU_RO =? 0)) &&
          (Z.land (flags mapping_value) VIRTIO_IOMMU_MAP_F_READ =? 0))
         || ((negb (Z.land flag IOMMU_WO =? 0)) &&
             (Z.land (flags mapping_value) VIRTIO_IOMMU_MAP_F_WRITE =? 0))
      then (mk_entry addr addr mask IOMMU_NONE, Some PermissionDenied)
      else (mk_entry addr
              (u64 (addr - low mapping_key + phys_addr mapping_value))
              mask flag, None)
  end.
End DomainNotions.

Module AsNotions.
Import AsVariant.

(** The key under which [virtio_iommu_map] stores a mapping. *)
Definition key_of (m : viommu_mapping) : viommu_interval :=
  mk_interval (virt_addr m) (u64 (virt_addr m + size m - 1)).

(** The addresses a mapping entry stands for: [size] bytes from
    [virt_addr]. *)
Definition mapping_covers (m : viommu_mapping) (x : Z) : Prop :=
  virt_addr m <= x < virt_addr m + size m.

Definition mappings_wf (t : GTree viommu_mapping) : Prop :=
  g_tree_ordered (fun a b => high a <= low b)
    (fun k m => low k <= high k /\ k = key_of m) t.

(** The interval a map or unmap request of [size] bytes at
    [virt_addr] is turned into. *)
Definition request_interval (virt_addr size : Z) : viommu_interval :=
  mk_interval virt_addr (u64 (virt_addr + size - 1)).

(** No notifier, no device, no address space. *)
Definition empty_state : VirtIOIOMMU := mk_state ∅ ∅ [] 4096 [].

(** Device 7 attached to address space 1, then 0x1000 bytes mapped at
    0x1000 to 0x5000, readable and writable. *)
Definition attached_state `{Externals} : VirtIOIOMMU :=
  snd (virtio_iommu_attach empty_state (mk_req_attach 1 7 0)).

Definition mapped_state `{Externals} : VirtIOIOMMU :=
  snd (virtio_iommu_map attached_state
         (mk_req_map 1 0x5000 0x1000 0x1000
            (Z.lor VIRTIO_IOMMU_MAP_F_READ VIRTIO_IOMMU_MAP_F_WRITE))).

(** What is left of [virtio_iommu_translate] once the device and its
    address space are resolved: a function of the interval map of that
    address space (and of the page size mask) alone. *)
Definition translate_in_mappings `{Externals} (page_size_mask : Z)
  (t : GTree viommu_mapping) (addr flag : Z) : IOMMUTLBEntry * option fault :=
  let mask := Z.shiftl 1 (ctz32 page_size_mask) - 1 in
  match g_tree_lookup interval_cmp t (mk_interval addr (u64 (addr + 1))) with
  | None => (mk_entry addr addr mask flag, Some NoMapping)
  | Some mapping =>
      if ((negb (Z.land flag IOMMU_RO =? 0)) &&
          (Z.land (flags mapping) VIRTIO_IOMMU_MAP_F_READ =? 0))
         || ((negb (Z.land flag IOMMU_WO =? 0)) &&
             (Z.land (flags mapping) VIRTIO_IOMMU_MAP_F_WRITE =? 0))
      then (mk_entry addr addr mask IOMMU_NONE, Some PermissionDenied)
      else (mk_entry addr (u64 (addr - virt_addr mapping + phys_addr mapping))
              mask flag, None)
  end.

(** A notifier registered for devfn 7, device 7 attached to address
    space 1, one mapping in it. *)
Definition watched_state `{Externals} : VirtIOIOMMU :=
  snd (virtio_iommu_map
         (snd (virtio_iommu_attach
                 (mk_state ∅ ∅ [mk_iommu_device 0 7] 4096 [])
                 (mk_req_attach 1 7 0)))
         (mk_req_map 1 0x5000 0x1000 0x1000 3)).

(** What the code notifies when the mappings of [t] become visible to
    the device [id]: one map event per entry, in key order, for every
    registered node whose devfn is [id], the one test the code makes
    (the bus of the node plays no part). *)
Definition replayed_maps `{Externals} (nodes : list IOMMUDevice) (id : Z)
  (t : GTree viommu_mapping) : list (IOMMUDevice * IOMMUTLBEntry) :=
  flat_map (fun node =>
              if id =? devfn node then
                map (fun e => virtio_iommu_notify_map node (virt_addr (snd e))
                                (phys_addr (snd e)) (size (snd e)))
                  (g_tree_entries t)
              else []) nodes.

(** And when they stop being visible: one unmap event per entry, for
    the same nodes. *)
Definition withdrawn_maps `{Externals} (nodes : list IOMMUDevice) (id : Z)
  (t : GTree viommu_mapping) : list (IOMMUDevice * IOMMUTLBEntry) :=
  flat_map (fun node =>
              if id =? devfn node then
                map (fun e => virtio_iommu_notify_unmap node
                                (virt_addr (snd e)) 0 (size (snd e)))
                  (g_tree_entries t)
              else []) nodes.

(** A tree of [n] reserved regions of one page each, from [base] on. *)
Fixpoint resv_regions (n : nat) (base : Z)
  : GTree virtio_iommu_probe_resv_mem :=
  match n with
  | O => GLeaf
  | S n' =>
      GNode GLeaf (mk_interval base (base + 0xfff))
        (mk_resv_mem 0 base 0x1000 0) (resv_regions n' (base + 0x1000))
  end.

(** Device 7 with 22 reserved regions. *)
Definition probe_state : VirtIOIOMMU :=
  mk_state ∅ {[ 7 := mk_dev 7 None (resv_regions 22 0) ]} [] 4096 [].
End AsNotions.

(** ** More of the source: what the commands rest on

    The comparator of the two registries, the table of IOMMU devices
    that [virtio_iommu_find_add_as] fills, and, for address spaces and
    devices, the notifier registration and the replay. *)

(** [GPOINTER_TO_UINT] of GLib: the low 32 bits of the pointer. *)
Definition GPOINTER_TO_UINT (p : Z) : Z := p mod 2 ^ 32.

(** [int_cmp], lines 828-833 and 1905-1910: the comparator of [domains],
    [endpoints], [address_spaces] and [devices]. *)
Definition int_cmp (a b : Z) : Z :=
  let ua := GPOINTER_TO_UINT a in
  let ub := GPOINTER_TO_UINT b in
  (if ua >? ub then 1 else 0) - (if ua <? ub then 1 else 0).

Module DomainMore.
Import DomainVariant.

(** [virtio_iommu_find_add_as], lines 432-469, on [as_by_busptr]: for
    every bus the IOMMU devices created so far, by devfn.  A bus is
    known by its number, as in [IOMMUDevice]; [devfn] indexes an array
    of [IOMMU_PCI_DEVFN_MAX] slots in C and is taken to be within it.
    The bus entry and the IOMMU device are created on first use; the
    result is the device whose address space is returned.  The memory
    region name, built from the static counter [mr_index], is left
    out. *)
Definition virtio_iommu_find_add_as (buses : gmap Z (gmap Z IOMMUDevice))
  (bus devfn : Z) : gmap Z (gmap Z IOMMUDevice) * IOMMUDevice :=
  let buses1 := match buses !! bus with
                | Some _ => buses
                | None => <[bus := ∅]> buses
                end in
  let sbus := default ∅ (buses !! bus) in
  match sbus !! devfn with
  | Some sdev => (buses1, sdev)
  | None =>
      let sdev := mk_iommu_device bus devfn in
      (<[bus := <[devfn := sdev]> sbus]> buses1, sdev)
  end.

(** [virtio_iommu_set_features], lines 810-816. *)
Definition virtio_iommu_set_features (s : VirtIOIOMMU) (val : Z) : VirtIOIOMMU :=
  mk_state (domains s) (endpoints s) val (page_size_mask s).

(** The attachment of endpoints as the commands keep it: every endpoint
    list is free of duplicates and holds exactly the endpoints whose
    [domain] is that domain, every endpoint is stored under its own id,
    and the interval map of a domain has one reference for the registry
    and one for each attached endpoint. *)
Definition attachment_consistent (s : VirtIOIOMMU) : Prop :=
  (forall d dom, domains s !! d = Some dom ->
     NoDup (endpoint_list dom)
     /\ mappings_ref dom = 1 + Z.of_nat (length (endpoint_list dom))
     /\ forall e, e ∈ endpoint_list dom ->
          exists ep, endpoints s !! e = Some ep /\ domain ep = Some d)
  /\ (forall e ep, endpoints s !! e = Some ep ->
        endpoint_id ep = e
        /\ forall d, domain ep = Some d ->
             exists dom, domains s !! d = Some dom /\ e ∈ endpoint_list dom).
End DomainMore.

Module AsMore.
Import AsVariant.

(** [virtio_iommu_notify_flag_changed], lines 1735-1763.  [none] is
    [IOMMU_NOTIFIER_NONE] of QEMU's memory API.  A node is looked for by
    the address of its IOMMU device, which is its bus and devfn. *)
Fixpoint remove_notifier (sdev : IOMMUDevice) (nodes : list IOMMUDevice)
  : list IOMMUDevice :=
  match nodes with
  | [] => []
  | node :: nodes' =>
      if (bus_num node =? bus_num sdev) && (devfn node =? devfn sdev)
      then nodes'
      else node :: remove_notifier sdev nodes'
  end.

Definition virtio_iommu_notify_flag_changed (none : Z) (s : VirtIOIOMMU)
  (sdev : IOMMUDevice) (old new : Z) : VirtIOIOMMU :=
  if old =? none then
    mk_state (address_spaces s) (devices s) (sdev :: notifiers_list s)
      (page_size_mask s) (notified s)
  else if new =? none then
    mk_state (address_spaces s) (devices s)
      (remove_notifier sdev (notifiers_list s)) (page_size_mask s) (notified s)
  else s.

Section Replay.
Context `{Externals}.

(** [virtio_iommu_remap], lines 1912-1925: callback of the replay. *)
Definition virtio_iommu_remap (mr : IOMMUDevice)
  (key : viommu_interval) (mapping : viommu_mapping)
  (out : list (IOMMUDevice * IOMMUTLBEntry)) :=
  (out ++ [virtio_iommu_notify_unmap mr (virt_addr mapping) 0 (size mapping);
           virtio_iommu_notify_map mr (virt_addr mapping) (phys_addr mapping)
             (size mapping)],
   false).

(** [virtio_iommu_replay], lines 1927-1947. *)
Definition virtio_iommu_replay (s : VirtIOIOMMU) (sdev : IOMMUDevice)
  : VirtIOIOMMU :=
  let sid := virtio_iommu_get_sid sdev in
  match devices s !! sid with
  | None => s
  | Some dev =>
      match as_ dev with
      | None => s
      | Some a =>
          match address_spaces s !! a with
          | None => s
          | Some asp =>
              memory_region_notify_iommu s
                (g_tree_foreach (mappings asp) (virtio_iommu_remap sdev) [])
          end
      end
  end.

(** [virtio_iommu_find_add_as], lines 1201-1244: as with domains and
    endpoints, and a new IOMMU device is entered in the device registry
    under its bus/devfn identifier, an [int] passed as [uint32_t]. *)
Definition virtio_iommu_find_add_as (buses : gmap Z (gmap Z IOMMUDevice))
  (s : VirtIOIOMMU) (bus devfn : Z)
  : gmap Z (gmap Z IOMMUDevice) * VirtIOIOMMU * IOMMUDevice :=
  let buses1 := match buses !! bus with
                | Some _ => buses
                | None => <[bus := ∅]> buses
                end in
  let sbus := default ∅ (buses !! bus) in
  match sbus !! devfn with
  | Some sdev => (buses1, s, sdev)
  | None =>
      let sdev := mk_iommu_device bus devfn in
      (<[bus := <[devfn := sdev]> sbus]> buses1,
       fst (virtio_iommu_get_dev s (PCI_BUILD_BDF bus devfn mod 2 ^ 32)),
       sdev)
  end.

(** [virtio_iommu_set_page_size_mask], lines 1825-1838: the new state
    and whether the fatal error is raised. *)
Definition virtio_iommu_set_page_size_mask (s : VirtIOIOMMU) (mask : Z)
  : VirtIOIOMMU * bool :=
  let m := Z.land (page_size_mask s) mask in
  (mk_state (address_spaces s) (devices s) (notifiers_list s) m (notified s),
   m =? 0).

(** The property records PROBE is to write for the reserved regions
    [es], the first at offset [off]. *)
Fixpoint serialized_regions (off : Z)
  (es : list (viommu_interval * virtio_iommu_probe_resv_mem))
  : list probe_property :=
  match es with
  | [] => []
  | (_, resv) :: es' =>
      mk_property off
        (Z.land VIRTIO_IOMMU_PROBE_T_RESV_MEM VIRTIO_IOMMU_PROBE_T_MASK)
        sizeof_probe_resv_mem (Some resv)
      :: serialized_regions (off + sizeof_probe_resv_mem + 4) es'
  end.
End Replay.

(** The attachment of devices as the commands keep it. *)
Definition attachment_consistent (s : VirtIOIOMMU) : Prop :=
  (forall a asp, address_spaces s !! a = Some asp ->
     NoDup (device_list asp)
     /\ forall d, d ∈ device_list asp ->
          exists dev, devices s !! d = Some dev /\ as_ dev = Some a)
  /\ (forall d dev, devices s !! d = Some dev ->
        dev_id dev = d
        /\ forall a, as_ dev = Some a ->
             exists asp, address_spaces s !! a = Some asp /\ d ∈ device_list asp).


Inductive command :=
| ATTACH (req : virtio_iommu_req_attach)
| DETACH (req : virtio_iommu_req_detach)
| MAP (req : virtio_iommu_req_map)
| UNMAP (req : virtio_iommu_req_unmap).

Definition run_command `{Externals} (fuel : nat) (s : VirtIOIOMMU) (c : command)
  : option (status * VirtIOIOMMU) :=
  match c with
  | ATTACH req => Some (virtio_iommu_attach s req)
  | DETACH req => Some (virtio_iommu_detach s req)
  | MAP req => Some (virtio_iommu_map s req)
  | UNMAP req => virtio_iommu_unmap fuel s req
  end.

Fixpoint run_commands `{Externals} (fuel : nat) (s : VirtIOIOMMU)
  (cs : list command) : option VirtIOIOMMU :=
  match cs with
  | [] => Some s
  | c :: cs' =>
      match run_command fuel s c with
      | None => None
      | Some (_, s') => run_commands fuel s' cs'
      end
  end.

(** What reaches the device from outside: the PCI bus asking for the
    address space of a function, the memory API changing the flags of
    a notifier, and the requests of the driver.  [none] is
    [IOMMU_NOTIFIER_NONE]. *)
Inductive input :=
| FIND_ADD_AS (bus devfn : Z)
| NOTIFY_FLAG_CHANGED (sdev : IOMMUDevice) (old new : Z)
| REQUEST (c : command).

Definition run_input `{Externals} (none : Z) (fuel : nat)
  (st : gmap Z (gmap Z IOMMUDevice) * VirtIOIOMMU) (i : input)
  : option (gmap Z (gmap Z IOMMUDevice) * VirtIOIOMMU) :=
  match i with
  | FIND_ADD_AS bus devfn =>
      Some (fst (virtio_iommu_find_add_as (fst st) (snd st) bus devfn))
  | NOTIFY_FLAG_CHANGED sdev old new =>
      Some (fst st, virtio_iommu_notify_flag_changed none (snd st) sdev old new)
  | REQUEST c =>
      match run_command fuel (snd st) c with
      | None => None
      | Some (_, s') => Some (fst st, s')
      end
  end.

Fixpoint run_inputs `{Externals} (none : Z) (fuel : nat)
  (st : gmap Z (gmap Z IOMMUDevice) * VirtIOIOMMU) (ins : list input)
  : option (gmap Z (gmap Z IOMMUDevice) * VirtIOIOMMU) :=
  match ins with
  | [] => Some st
  | i :: ins' =>
      match run_input none fuel st i with
      | None => None
      | Some st' => run_inputs none fuel st' ins'
      end
  end.

(** The device as realize leaves it: no address space, no device, no
    notifier, an empty bus table. *)
Definition initial (psm : Z)
  : gmap Z (gmap Z IOMMUDevice) * VirtIOIOMMU :=
  (∅, mk_state ∅ ∅ [] psm []).

(** The PCI function at bus 1, devfn 7, whose stream id is 0x107, gets
    its IOMMU device and a notifier; the driver attaches device 0x107
    to address space 1 and device 8 to address space 2, and maps
    0x1000 bytes at 0x1000 to 0x5000 in address space 2. *)
Definition bus_device_inputs : list input :=
  [FIND_ADD_AS 1 7;
   NOTIFY_FLAG_CHANGED (mk_iommu_device 1 7) 0 1;
   REQUEST (ATTACH (mk_req_attach 1 0x107 0));
   REQUEST (ATTACH (mk_req_attach 2 8 0));
   REQUEST (MAP (mk_req_map 2 0x5000 0x1000 0x1000 3))].
End AsMore.

(** * Properties *)

(** ** The tree *)
Section GTreeFacts.
Context {V : Type}.
Variable key_compare : viommu_interval -> viommu_interval -> Z.

(** Whatever the shape of the tree, a lookup only returns an entry of
    the tree whose key compares equal to the query. *)
Lemma g_tree_lookup_extended_Some (t : GTree V) q k v :
  g_tree_lookup_extended key_compare t q = Some (k, v) ->
  (k, v) ∈ g_tree_entries t /\ key_compare q k = 0.
Proof.
  induction t as [|l IHl k0 v0 r IHr]; simpl; [discriminate|].
  destruct (key_compare q k0 =? 0) eqn:E0.
  - intros [= <- <-]. split; [|lia].
    apply elem_of_app. right. left.
  - destruct (key_compare q k0 <? 0); intros Hl.
    + destruct (IHl Hl) as [Hin Hc]. split; [|done].
      apply elem_of_app. by left.
    + destruct (IHr Hl) as [Hin Hc]. split; [|done].
      apply elem_of_app. right. by right.
Qed.

Lemma g_tree_lookup_extended_None (t : GTree V) q :
  (forall k v, (k, v) ∈ g_tree_entries t -> key_compare q k <> 0) ->
  g_tree_lookup_extended key_compare t q = None.
Proof.
  intros Hno.
  destruct (g_tree_lookup_extended key_compare t q) as [[k v]|] eqn:E; [|done].
  apply g_tree_lookup_extended_Some in E as [Hin Hc].
  by destruct (Hno k v Hin).
Qed.

Lemma g_tree_lookup_Some (t : GTree V) q v :
  g_tree_lookup key_compare t q = Some v ->
  exists k, (k, v) ∈ g_tree_entries t /\ key_compare q k = 0.
Proof.
  unfold g_tree_lookup.
  destruct (g_tree_lookup_extended key_compare t q) as [[k v']|] eqn:E;
    [|discriminate].
  intros [= <-]. exists k. by apply g_tree_lookup_extended_Some.
Qed.

Lemma g_tree_lookup_None (t : GTree V) q :
  (forall k v, (k, v) ∈ g_tree_entries t -> key_compare q k <> 0) ->
  g_tree_lookup key_compare t q = None.
Proof.
  intros Hno. unfold g_tree_lookup.
  by rewrite g_tree_lookup_extended_None.
Qed.

Lemma g_tree_first_entries (t : GTree V) e :
  g_tree_first t = Some e ->
  g_tree_entries t = e :: g_tree_entries (g_tree_remove_first t).
Proof.
  induction t as [|l IHl k v r _]; simpl; [discriminate|].
  destruct l as [|ll lk lv lr].
  - by intros [= <-].
  - intros Hf. specialize (IHl Hf). simpl in IHl |- *.
    by rewrite IHl.
Qed.

Lemma g_tree_first_None (t : GTree V) :
  g_tree_first t = None -> t = GLeaf.
Proof.
  induction t as [|l IHl k v r _]; simpl; [done|].
  destruct l; [discriminate|]. intros Hf. by specialize (IHl Hf).
Qed.

(** An insertion that follows a failed lookup adds the entry and keeps
    all the others. *)
Lemma g_tree_insert_entries (t : GTree V) q v e :
  g_tree_lookup_extended key_compare t q = None ->
  e ∈ g_tree_entries (g_tree_insert key_compare t q v)
  <-> e = (q, v) \/ e ∈ g_tree_entries t.
Proof.
  induction t as [|l IHl k0 v0 r IHr]; simpl.
  - intros _. rewrite list_elem_of_singleton, elem_of_nil. tauto.
  - destruct (key_compare q k0 =? 0); [discriminate|].
    destruct (key_compare q k0 <? 0); intros Hl; simpl;
      rewrite !elem_of_app, !elem_of_cons.
    + rewrite (IHl Hl). tauto.
    + rewrite (IHr Hl). tauto.
Qed.

(** A removal, successful or not, leaves only entries that were there. *)
Lemma g_tree_remove_entries (t : GTree V) key e :
  e ∈ g_tree_entries (g_tree_remove key_compare t key) ->
  e ∈ g_tree_entries t.
Proof.
  induction t as [|l IHl k0 v0 r IHr]; simpl; [done|].
  destruct (key_compare key k0 =? 0).
  - destruct l as [|ll lk lv lr].
    + intros Hin. apply elem_of_app. right. by right.
    + destruct (g_tree_first r) as [[k' v']|] eqn:Hf.
      * rewrite (g_tree_first_entries r _ Hf). simpl.
        rewrite ?elem_of_app, ?elem_of_cons, ?elem_of_app, ?elem_of_cons.
        tauto.
      * simpl. rewrite ?elem_of_app, ?elem_of_cons, ?elem_of_app, ?elem_of_cons.
        tauto.
  - destruct (key_compare key k0 <? 0); simpl;
      rewrite !elem_of_app, !elem_of_cons.
    + intros [Hin|Hin]; [left; by apply IHl|by right].
    + intros [Hin|[Hin|Hin]]; [by left|right; by left|right; right; by apply IHr].
Qed.

(** When the search for [key] ends on a node, [g_tree_remove] unlinks
    exactly one node. *)
Lemma g_tree_remove_nnodes (t : GTree V) key e :
  g_tree_lookup_extended key_compare t key = Some e ->
  S (g_tree_nnodes (g_tree_remove key_compare t key)) = g_tree_nnodes t.
Proof.
  unfold g_tree_nnodes.
  induction t as [|l IHl k0 v0 r IHr]; simpl; [discriminate|].
  destruct (key_compare key k0 =? 0).
  - intros _. destruct l as [|ll lk lv lr]; [done|].
    destruct (g_tree_first r) as [[k' v']|] eqn:Hf.
    + rewrite (g_tree_first_entries r _ Hf). simpl.
      repeat (rewrite length_app; simpl). lia.
    + apply g_tree_first_None in Hf as ->. simpl.
      repeat (rewrite length_app; simpl). lia.
  - destruct (key_compare key k0 <? 0); intros Hl; simpl;
      rewrite !length_app; simpl.
    + specialize (IHl Hl). lia.
    + specialize (IHr Hl). lia.
Qed.
End GTreeFacts.

(** ** Ordered trees

    What insertion and removal keep, for any comparator that agrees with
    the ordering [before] of the stored keys. *)
Section OrderedFacts.
Context {V : Type}.
Variable key_compare : viommu_interval -> viommu_interval -> Z.
Variable before : viommu_interval -> viommu_interval -> Prop.
Variable ok : viommu_interval -> V -> Prop.
Hypothesis before_trans :
  forall a b c v, before a b -> ok b v -> before b c -> before a c.
Hypothesis compare_neg :
  forall q k, key_compare q k < 0 -> before q k.
Hypothesis compare_pos :
  forall q k, 0 < key_compare q k -> before k q.

Lemma ordered_entry_ok (t : GTree V) k v :
  g_tree_ordered before ok t -> (k, v) ∈ g_tree_entries t -> ok k v.
Proof.
  induction t as [|l IHl k0 v0 r IHr]; simpl.
  - intros _ Hin. by apply elem_of_nil in Hin.
  - intros (Hk0 & _ & _ & Hl & Hr) Hin.
    apply elem_of_app in Hin as [Hin|Hin]; [by apply IHl|].
    apply elem_of_cons in Hin as [[= -> ->]|Hin]; [done|by apply IHr].
Qed.

Lemma ordered_remove_first (t : GTree V) :
  g_tree_ordered before ok t -> g_tree_ordered before ok (g_tree_remove_first t).
Proof.
  induction t as [|l IHl k0 v0 r _]; simpl; [done|].
  intros (Hk0 & Hbl & Hbr & Hl & Hr).
  destruct l as [|ll lk lv lr]; [done|].
  specialize (IHl Hl). split; [done|]. split; [|done].
  rewrite Forall_forall in Hbl |- *. intros e He. apply Hbl.
  destruct (g_tree_first (GNode ll lk lv lr)) as [e0|] eqn:Hf.
  - rewrite (g_tree_first_entries _ _ Hf). by right.
  - by apply g_tree_first_None in Hf.
Qed.

Lemma ordered_first_before (t : GTree V) k' v' :
  g_tree_ordered before ok t -> g_tree_first t = Some (k', v') ->
  Forall (fun e => before k' (fst e)) (g_tree_entries (g_tree_remove_first t)).
Proof.
  induction t as [|l IHl k0 v0 r _]; simpl; [discriminate|].
  intros (Hk0 & Hbl & Hbr & Hl & Hr).
  destruct l as [|ll lk lv lr].
  - by intros [= <- <-].
  - intros Hf. specialize (IHl Hl Hf).
    change (g_tree_entries (GNode (g_tree_remove_first (GNode ll lk lv lr)) k0 v0 r))
      with (g_tree_entries (g_tree_remove_first (GNode ll lk lv lr))
            ++ (k0, v0) :: g_tree_entries r).
    assert (Hk' : before k' k0).
    { rewrite Forall_forall in Hbl. apply (Hbl (k', v')).
      rewrite (g_tree_first_entries _ _ Hf). left. }
    apply Forall_app. split; [done|]. constructor; [done|].
    rewrite Forall_forall in Hbr |- *. intros e He.
    by apply (before_trans k' k0 (fst e) v0); [| |apply Hbr].
Qed.

Lemma ordered_remove (t : GTree V) key :
  g_tree_ordered before ok t ->
  g_tree_ordered before ok (g_tree_remove key_compare t key).
Proof.
  induction t as [|l IHl k0 v0 r IHr]; simpl; [done|].
  intros (Hk0 & Hbl & Hbr & Hl & Hr).
  destruct (key_compare key k0 =? 0).
  - destruct l as [|ll lk lv lr]; [done|].
    destruct (g_tree_first r) as [[k' v']|] eqn:Hf; [|done].
    assert (Hin : (k', v') ∈ g_tree_entries r)
      by (rewrite (g_tree_first_entries _ _ Hf); left).
    assert (Hk' : before k0 k')
      by (rewrite Forall_forall in Hbr; apply (Hbr _ Hin)).
    change (g_tree_ordered before ok
              (GNode (GNode ll lk lv lr) k' v' (g_tree_remove_first r))).
    cbn [g_tree_ordered]. fold (g_tree_ordered before ok).
    split; [by apply (ordered_entry_ok r)|].
    split; [|split; [by apply (ordered_first_before r k' v')|]].
    + rewrite Forall_forall in Hbl |- *. intros e He.
      by apply (before_trans (fst e) k0 k' v0); [apply Hbl| |].
    + split; [done|by apply ordered_remove_first].
  - destruct (key_compare key k0 <? 0); simpl.
    + split; [done|]. split; [|by auto].
      rewrite Forall_forall in Hbl |- *. intros e He. apply Hbl.
      by apply (g_tree_remove_entries key_compare l key).
    + split; [done|]. split; [done|]. split; [|by auto].
      rewrite Forall_forall in Hbr |- *. intros e He. apply Hbr.
      by apply (g_tree_remove_entries key_compare r key).
Qed.

Lemma ordered_insert (t : GTree V) q v :
  g_tree_ordered before ok t -> ok q v ->
  g_tree_lookup_extended key_compare t q = None ->
  g_tree_ordered before ok (g_tree_insert key_compare t q v).
Proof.
  intros Hord Hq.
  induction t as [|l IHl k0 v0 r IHr]; simpl.
  - intros _. by repeat split.
  - simpl in Hord. destruct Hord as (Hk0 & Hbl & Hbr & Hl & Hr).
    destruct (Z.eqb_spec (key_compare q k0) 0) as [|Hne]; [discriminate|].
    destruct (Z.ltb_spec (key_compare q k0) 0) as [Hlt|Hge]; intros Hlook; simpl.
    + split; [done|]. split; [|by auto].
      rewrite Forall_forall in Hbl |- *. intros e He.
      apply (g_tree_insert_entries key_compare l q v e Hlook) in He as [->|He];
        [by apply compare_neg|by apply Hbl].
    + split; [done|]. split; [done|]. split; [|by auto].
      rewrite Forall_forall in Hbr |- *. intros e He.
      apply (g_tree_insert_entries key_compare r q v e Hlook) in He as [->|He];
        [simpl; apply compare_pos; lia|by apply Hbr].
Qed.
End OrderedFacts.

Lemma intersects_common_address (a b : viommu_interval) :
  low a <= high a -> low b <= high b ->
  intersects a b <-> exists x, covers a x /\ covers b x.
Proof.
  unfold intersects, covers. intros Ha Hb. split.
  - intros [H1 H2]. exists (Z.max (low a) (low b)). lia.
  - intros (x & ? & ?). lia.
Qed.

(** ** Domains and endpoints: the comparator and the ordered tree *)
Module DomainFacts.
Import DomainVariant DomainNotions.

Lemma domain_interval_cmp_0 (a b : viommu_interval) :
  interval_cmp a b = 0 <-> intersects a b.
Proof.
  unfold interval_cmp, intersects.
  destruct (Z.ltb_spec (high a) (low b)); [lia|].
  destruct (Z.ltb_spec (high b) (low a)); lia.
Qed.

Lemma domain_interval_cmp_neg (a b : viommu_interval) :
  interval_cmp a b < 0 <-> high a < low b.
Proof.
  unfold interval_cmp.
  destruct (Z.ltb_spec (high a) (low b)); [lia|].
  destruct (Z.ltb_spec (high b) (low a)); lia.
Qed.

Lemma set_domains_same (s : VirtIOIOMMU) id dom :
  domains s !! id = Some dom ->
  set_domains s
    (<[id := mk_domain (domain_id dom) (mappings dom) (mappings_ref dom)
               (endpoint_list dom)]> (domains s)) = s.
Proof.
  intros Hd. destruct dom, s; unfold set_domains; simpl in *.
  by rewrite insert_id.
Qed.

(** In an ordered tree a non-empty query that lies within a stored
    interval finds that very entry. *)
Lemma lookup_within (t : GTree viommu_mapping) q k v :
  mappings_wf t -> (k, v) ∈ g_tree_entries t ->
  low k <= low q -> low q <= high q -> high q <= high k ->
  g_tree_lookup_extended interval_cmp t q = Some (k, v).
Proof.
  unfold mappings_wf. intros Hwf Hin Hlo Hq Hhi.
  induction t as [|l IHl k0 v0 r IHr]; simpl in *.
  - by apply elem_of_nil in Hin.
  - destruct Hwf as (Hk0 & Hl & Hr & Hwl & Hwr).
    apply elem_of_app in Hin as [Hin|Hin].
    + rewrite Forall_forall in Hl. specialize (Hl _ Hin). simpl in Hl.
      assert (Hc : interval_cmp q k0 < 0) by (apply domain_interval_cmp_neg; lia).
      destruct (Z.eqb_spec (interval_cmp q k0) 0); [lia|].
      destruct (Z.ltb_spec (interval_cmp q k0) 0); [|lia].
      by apply IHl.
    + apply elem_of_cons in Hin as [[= <- <-]|Hin].
      * assert (Hc : interval_cmp q k = 0)
          by (apply domain_interval_cmp_0; unfold intersects; lia).
        by rewrite Hc.
      * rewrite Forall_forall in Hr. specialize (Hr _ Hin). simpl in Hr.
        assert (Hc : ~ interval_cmp q k0 < 0)
          by (rewrite domain_interval_cmp_neg; lia).
        assert (Hc' : interval_cmp q k0 <> 0)
          by (rewrite domain_interval_cmp_0; unfold intersects; lia).
        destruct (Z.eqb_spec (interval_cmp q k0) 0); [lia|].
        destruct (Z.ltb_spec (interval_cmp q k0) 0); [lia|].
        by apply IHr.
Qed.

Lemma unmap_loop_no_match fuel (t : GTree viommu_mapping) q :
  (forall k v, (k, v) ∈ g_tree_entries t -> ~ intersects q k) ->
  unmap_loop fuel t q = Some (VIRTIO_IOMMU_S_OK, t).
Proof.
  intros Hno.
  assert (E : g_tree_lookup_extended interval_cmp t q = None).
  { apply g_tree_lookup_extended_None. intros k v Hin.
    rewrite domain_interval_cmp_0. by apply (Hno k v). }
  destruct fuel; simpl; by rewrite E.
Qed.

Lemma domain_unmap_loop_split fuel (t : GTree viommu_mapping) q k v :
  mappings_wf t -> (k, v) ∈ g_tree_entries t -> strictly_inside q k ->
  unmap_loop fuel t q = Some (VIRTIO_IOMMU_S_RANGE, t).
Proof.
  intros Hwf Hin (Hlo & Hq & Hhi).
  assert (E : g_tree_lookup_extended interval_cmp t q = Some (k, v))
    by (apply lookup_within; [done..|lia|done|lia]).
  assert (Hc : (low q <=? low k) && (high q >=? high k) = false).
  { apply andb_false_iff. left. apply Z.leb_gt. lia. }
  destruct fuel; simpl; by rewrite E, Hc.
Qed.

(** The state after ATTACH of an endpoint that is attached to another
    domain. *)
Lemma domain_attach_elsewhere_state s req ep d0 :
  let epid := attach_endpoint req in
  let d1 := attach_domain req in
  let dom1 := default (mk_domain d1 GLeaf 1 []) (domains s !! d1) in
  endpoints s !! epid = Some ep -> endpoint_id ep = epid ->
  domain ep = Some d0 -> d0 <> d1 ->
  virtio_iommu_attach s req
  = (VIRTIO_IOMMU_S_OK,
     mk_state
       (<[d1 := mk_domain (domain_id dom1) (mappings dom1)
                  (mappings_ref dom1 + 1) (epid :: endpoint_list dom1)]>
          (alter (fun dom =>
                    mk_domain (domain_id dom) (mappings dom)
                      (mappings_ref dom - 1)
                      (filter (fun e => e ≠ epid) (endpoint_list dom)))
             d0 (domains s)))
       (<[epid := mk_endpoint epid (Some d1)]> (endpoints s))
       (acked_features s) (page_size_mask s)).
Proof.
  destruct req as [d1 epid]; simpl.
  intros Hep Hid Hdom Hne.
  unfold virtio_iommu_attach, virtio_iommu_get_endpoint; simpl.
  rewrite Hep, Hdom.
  unfold virtio_iommu_detach_endpoint_from_domain. rewrite Hdom, Hid.
  unfold virtio_iommu_get_domain; simpl.
  rewrite lookup_alter_ne by done.
  destruct (domains s !! d1) as [dom1|] eqn:Hd1; simpl;
    unfold set_endpoints, set_domains; simpl;
    rewrite ?insert_insert_eq; reflexivity.
Qed.

(** X12: With domains and endpoints every fault denies the access, bypass
    or not: the permission is granted only on the paths that report
    nothing. *)
Lemma translate_fault_denies `{Externals} s sdev addr flag f :
  snd (virtio_iommu_translate s sdev addr flag) = Some f ->
  perm (fst (virtio_iommu_translate s sdev addr flag)) = IOMMU_NONE.
Proof.
  unfold virtio_iommu_translate.
  destruct (endpoints s !! _) as [ep|].
  - destruct (domain ep) as [d|].
    + destruct (domains s !! d) as [dom|]; [|done].
      destruct (g_tree_lookup_extended _ _ _) as [[k v]|]; [|done].
      by destruct (_ || _).
    + by destruct (negb _).
  - by destruct (negb _).
Qed.

(** *** The interval map stays well-formed *)

Lemma domain_insert_wf (t : GTree viommu_mapping) q v :
  mappings_wf t -> low q <= high q ->
  g_tree_lookup_extended interval_cmp t q = None ->
  mappings_wf (g_tree_insert interval_cmp t q v).
Proof.
  intros Hwf Hq Hl. unfold mappings_wf in *.
  apply ordered_insert; [| |done..].
  - intros a b. by rewrite domain_interval_cmp_neg.
  - intros a b. unfold interval_cmp.
    destruct (Z.ltb_spec (high a) (low b)); [lia|].
    destruct (Z.ltb_spec (high b) (low a)); lia.
Qed.

Lemma domain_remove_wf (t : GTree viommu_mapping) key :
  mappings_wf t -> mappings_wf (g_tree_remove interval_cmp t key).
Proof.
  unfold mappings_wf. apply ordered_remove.
  intros a b c _ ? ? ?. lia.
Qed.

(** In an ordered tree the search finds an entry whenever one
    intersects the query. *)
Lemma lookup_intersecting (t : GTree viommu_mapping) q k v :
  mappings_wf t -> (k, v) ∈ g_tree_entries t -> intersects q k ->
  is_Some (g_tree_lookup_extended interval_cmp t q).
Proof.
  unfold mappings_wf, intersects. intros Hwf Hin [Hi1 Hi2].
  induction t as [|l IHl k0 v0 r IHr]; simpl in *.
  - by apply elem_of_nil in Hin.
  - destruct Hwf as (Hk0 & Hl & Hr & Hwl & Hwr).
    rewrite Forall_forall in Hl, Hr.
    destruct (Z.eqb_spec (interval_cmp q k0) 0) as [|Hne]; [by eexists|].
    destruct (Z.ltb_spec (interval_cmp q k0) 0) as [Hlt|Hge].
    + apply domain_interval_cmp_neg in Hlt. apply IHl; [done|].
      apply elem_of_app in Hin as [Hin|Hin]; [done|].
      apply elem_of_cons in Hin as [[= -> ->]|Hin]; [lia|].
      specialize (Hr _ Hin). simpl in Hr. lia.
    + assert (Hgt : high k0 < low q).
      { revert Hne Hge. unfold interval_cmp.
        destruct (Z.ltb_spec (high q) (low k0)); [lia|].
        destruct (Z.ltb_spec (high k0) (low q)); lia. }
      apply IHr; [done|].
      apply elem_of_app in Hin as [Hin|Hin].
      * specialize (Hl _ Hin). simpl in Hl. lia.
      * apply elem_of_cons in Hin as [[= -> ->]|Hin]; [lia|done].
Qed.

(** With domains and endpoints and a well-formed interval map, MAP
    returns INVAL exactly when the requested range intersects a stored
    one. *)
Lemma map_rejects_iff_intersects s req dom :
  domains s !! map_domain req = Some dom ->
  mappings_wf (mappings dom) ->
  fst (virtio_iommu_map s req) = VIRTIO_IOMMU_S_INVAL
  <-> exists k v, (k, v) ∈ g_tree_entries (mappings dom)
                  /\ intersects (mk_interval (map_virt_start req)
                                   (map_virt_end req)) k.
Proof.
  intros Hd Hwf. unfold virtio_iommu_map, g_tree_lookup. rewrite Hd.
  destruct (g_tree_lookup_extended interval_cmp (mappings dom) _)
    as [[k v]|] eqn:Hl; simpl.
  - split; [intros _|done].
    apply g_tree_lookup_extended_Some in Hl as [Hin Hc].
    exists k, v. split; [done|]. by apply domain_interval_cmp_0.
  - split; [discriminate|]. intros (k & v & Hin & Hi).
    destruct (lookup_intersecting _ _ k v Hwf Hin Hi) as [e He].
    rewrite Hl in He. discriminate.
Qed.

(** And the second of two identical MAPs of a non-empty range fails. *)
Lemma map_twice_is_rejected s req dom :
  domains s !! map_domain req = Some dom ->
  mappings_wf (mappings dom) ->
  map_virt_start req <= map_virt_end req ->
  fst (virtio_iommu_map s req) = VIRTIO_IOMMU_S_OK ->
  fst (virtio_iommu_map (snd (virtio_iommu_map s req)) req)
  = VIRTIO_IOMMU_S_INVAL.
Proof.
  intros Hd Hwf Hreq Hok.
  assert (Hl : g_tree_lookup_extended interval_cmp (mappings dom)
                 (mk_interval (map_virt_start req) (map_virt_end req)) = None).
  { unfold virtio_iommu_map, g_tree_lookup in Hok. rewrite Hd in Hok.
    by destruct (g_tree_lookup_extended interval_cmp (mappings dom) _)
      as [[k v]|]. }
  assert (Hs : virtio_iommu_map s req
               = (VIRTIO_IOMMU_S_OK,
                  set_domains s
                    (<[map_domain req :=
                         mk_domain (domain_id dom)
                           (g_tree_insert interval_cmp (mappings dom)
                              (mk_interval (map_virt_start req) (map_virt_end req))
                              (mk_mapping (map_phys_start req) (map_flags req)))
                           (mappings_ref dom) (endpoint_list dom)]> (domains s)))).
  { unfold virtio_iommu_map, g_tree_lookup. by rewrite Hd, Hl. }
  rewrite Hs. simpl. eapply map_rejects_iff_intersects.
  - simpl. apply lookup_insert_eq.
  - simpl. by apply domain_insert_wf.
  - simpl. eexists _, _. split.
    + apply g_tree_insert_entries; [done|]. by left.
    + unfold intersects; simpl; lia.
Qed.

(** With domains and endpoints, an address a stored interval contains is
    translated through that interval when no other stored interval
    touches the two-address query [addr, addr + 1] and the flags allow
    the access. *)
Lemma domain_translate_covered `{Externals} psm (t : GTree viommu_mapping)
  k v addr flag :
  mappings_wf t -> (k, v) ∈ g_tree_entries t -> covers k addr ->
  (forall e, e ∈ g_tree_entries t ->
     intersects (mk_interval addr (u64 (addr + 1))) (fst e) -> e = (k, v)) ->
  0 <= addr -> addr + 1 < 2 ^ 64 ->
  ((negb (Z.land flag IOMMU_RO =? 0)) &&
   (Z.land (flags v) VIRTIO_IOMMU_MAP_F_READ =? 0))
  || ((negb (Z.land flag IOMMU_WO =? 0)) &&
      (Z.land (flags v) VIRTIO_IOMMU_MAP_F_WRITE =? 0)) = false ->
  translate_in_mappings psm t addr flag
  = (mk_entry addr (u64 (addr - low k + phys_addr v))
       (Z.shiftl 1 (ctz32 psm) - 1) flag, None).
Proof.
  intros Hwf Hin [Hc1 Hc2] Honly H0 Hmax Hperm. unfold translate_in_mappings.
  assert (Hu : u64 (addr + 1) = addr + 1)
    by (unfold u64; apply Z.mod_small; lia).
  rewrite Hu in *.
  destruct (lookup_intersecting t (mk_interval addr (addr + 1)) k v Hwf Hin)
    as [e He]; [unfold intersects; simpl; lia|].
  rewrite He. destruct e as [k' v'].
  apply g_tree_lookup_extended_Some in He as [Hin' Hc'].
  apply domain_interval_cmp_0 in Hc'.
  specialize (Honly _ Hin' Hc'). injection Honly as -> ->.
  by rewrite Hperm.
Qed.

Lemma unmap_loop_wf fuel (t : GTree viommu_mapping) q st t' :
  mappings_wf t -> unmap_loop fuel t q = Some (st, t') -> mappings_wf t'.
Proof.
  revert t. induction fuel as [|fuel IH]; intros t Hwf; simpl;
    destruct (g_tree_lookup_extended interval_cmp t q) as [[k v]|];
    try (intros [= <- <-]; done);
    destruct (_ && _); try discriminate; try (intros [= <- <-]; done).
  apply IH. by apply domain_remove_wf.
Qed.

(** On a well-formed interval map the loop of UNMAP ends within as many
    passes as the map has entries. *)
Lemma unmap_loop_returns fuel (t : GTree viommu_mapping) q :
  mappings_wf t -> (g_tree_nnodes t <= fuel)%nat ->
  is_Some (unmap_loop fuel t q).
Proof.
  revert t. induction fuel as [|fuel IH]; intros t Hwf Hn; simpl;
    destruct (g_tree_lookup_extended interval_cmp t q) as [[k v]|] eqn:Hl;
    try (by eexists); destruct (_ && _); try (by eexists).
  - apply g_tree_lookup_extended_Some in Hl as [Hin _].
    unfold g_tree_nnodes in Hn. destruct (g_tree_entries t); [|simpl in Hn; lia].
    by apply elem_of_nil in Hin.
  - apply IH; [by apply domain_remove_wf|].
    assert (Hk : g_tree_lookup_extended interval_cmp t k = Some (k, v)).
    { apply g_tree_lookup_extended_Some in Hl as [Hin _].
      pose proof (ordered_entry_ok _ _ _ _ _ Hwf Hin) as Hok. simpl in Hok.
      apply lookup_within; [done..|lia|done|lia]. }
    pose proof (g_tree_remove_nnodes _ _ _ _ Hk). lia.
Qed.

Lemma unmap_loop_fuel_mono fuel fuel' (t : GTree viommu_mapping) q r :
  unmap_loop fuel t q = Some r -> (fuel <= fuel')%nat ->
  unmap_loop fuel' t q = Some r.
Proof.
  revert fuel' t. induction fuel as [|fuel IH]; intros fuel' t; simpl;
    destruct fuel' as [|fuel'']; simpl;
    destruct (g_tree_lookup_extended interval_cmp t q) as [[k v]|];
    try done; destruct (_ && _); try done; try lia.
  intros Hr Hle. apply IH; [done|lia].
Qed.

Lemma wf_all_apart (t : GTree viommu_mapping) :
  mappings_wf t -> all_apart (g_tree_keys t).
Proof.
  unfold mappings_wf, g_tree_keys.
  assert (Happ : forall l1 l2 : list viommu_interval,
             all_apart l1 -> all_apart l2 ->
             (forall a b, a ∈ l1 -> b ∈ l2 -> ~ intersects a b) ->
             all_apart (l1 ++ l2)).
  { induction l1 as [|a l1 IH]; intros l2 H1 H2 H12; simpl; [done|].
    destruct H1 as [Ha H1]. split.
    - apply Forall_app. split; [done|]. apply Forall_forall.
      intros b Hb. apply H12; [left|done].
    - apply IH; [done..|]. intros a' b Ha' Hb. apply H12; [by right|done]. }
  induction t as [|l IHl k0 v0 r IHr]; simpl; [done|].
  intros (Hk0 & Hl & Hr & Hwl & Hwr).
  rewrite Forall_forall in Hl, Hr.
  rewrite map_app. simpl. apply Happ; [by apply IHl| |].
  - split; [|by apply IHr]. apply Forall_forall. intros b Hb.
    apply list_elem_of_fmap in Hb as (e & -> & He).
    specialize (Hr _ He). unfold intersects. lia.
  - intros a b Ha Hb. apply list_elem_of_fmap in Ha as (e & -> & He).
    specialize (Hl _ He). unfold intersects.
    apply elem_of_cons in Hb as [->|Hb]; [lia|].
    apply list_elem_of_fmap in Hb as (e' & -> & He').
    specialize (Hr _ He'). lia.
Qed.

(** The run of the specification: ATTACH(1, 7), MAP of [0x1000, 0x1fff]
    to 0x5000, readable and writable, then a read of 0x1050 by
    endpoint 7. *)
Example domain_translate_0x1050 :
  virtio_iommu_translate (H := qemu_headers) mapped_state
    (mk_iommu_device 0 7) 0x1050 IOMMU_RO
  = (mk_entry 0x1050 0x5050 0xfff IOMMU_RO, None).
Proof. reflexivity. Qed.

(** *** Why the ranges of MAP have to be non-empty

    A MAP whose [virt_end] is below its [virt_start] is stored like any
    other; the comparator then orders it inconsistently. *)

(** After MAP of [10, 5], the intersecting [7, 8] and [6, 20] are both
    accepted: they end up on either side of the root. *)
Example empty_range_breaks_the_order :
  exists s3 dom,
    fst (virtio_iommu_map attached_state (mk_req_map 1 0 10 5 3))
    = VIRTIO_IOMMU_S_OK
    /\ fst (virtio_iommu_map
              (snd (virtio_iommu_map attached_state (mk_req_map 1 0 10 5 3)))
              (mk_req_map 1 0 7 8 3)) = VIRTIO_IOMMU_S_OK
    /\ virtio_iommu_map
         (snd (virtio_iommu_map
                 (snd (virtio_iommu_map attached_state (mk_req_map 1 0 10 5 3)))
                 (mk_req_map 1 0 7 8 3)))
         (mk_req_map 1 0 6 20 3) = (VIRTIO_IOMMU_S_OK, s3)
    /\ domains s3 !! 1 = Some dom
    /\ g_tree_keys (mappings dom)
       = [mk_interval 7 8; mk_interval 10 5; mk_interval 6 20]
    /\ intersects (mk_interval 7 8) (mk_interval 6 20).
Proof.
  eexists. eexists. repeat split; try reflexivity; simpl; lia.
Qed.

(** UNMAP of [0, 20] over the stored [10, 5] finds it, asks for its
    removal, which finds nothing, and starts again: the loop never
    ends. *)
Example unmap_of_empty_range_never_returns :
  forall fuel,
    virtio_iommu_unmap fuel
      (snd (virtio_iommu_map attached_state (mk_req_map 1 0 10 5 3)))
      (mk_req_unmap 1 0 20) = None.
Proof.
  intros fuel. unfold virtio_iommu_unmap.
  change (domains (snd (virtio_iommu_map attached_state (mk_req_map 1 0 10 5 3)))
          !! unmap_domain (mk_req_unmap 1 0 20))
    with (Some (mk_domain 1 (GNode GLeaf (mk_interval 10 5) (mk_mapping 0 3) GLeaf)
                  2 [7])).
  cbv beta iota. 
  assert (Hl : unmap_loop fuel
                 (GNode GLeaf (mk_interval 10 5) (mk_mapping 0 3) GLeaf)
                 (mk_interval 0 20) = None)
    by (induction fuel as [|fuel IH]; [reflexivity|exact IH]).
  simpl. simpl in Hl. by rewrite Hl.
Qed.

(** *** Every command keeps every interval map well-formed *)

Lemma detach_endpoint_state_wf s ep :
  state_wf s -> state_wf (virtio_iommu_detach_endpoint_from_domain s ep).
Proof.
  unfold state_wf, virtio_iommu_detach_endpoint_from_domain.
  intros Hwf. destruct (domain ep) as [d0|]; [|done]. simpl.
  intros d dom'. rewrite lookup_alter.
  case_decide; [|by apply Hwf]. subst d.
  destruct (domains s !! d0) as [dom|] eqn:Hd; [|discriminate].
  intros [= <-]. simpl. by apply (Hwf d0).
Qed.

Lemma attach_state_wf s req :
  state_wf s -> state_wf (snd (virtio_iommu_attach s req)).
Proof.
  intros Hwf. unfold virtio_iommu_attach.
  destruct (virtio_iommu_get_endpoint s (attach_endpoint req)) as [s1 ep] eqn:H1.
  assert (Hwf1 : state_wf s1).
  { unfold virtio_iommu_get_endpoint in H1.
    destruct (endpoints s !! attach_endpoint req); by injection H1 as <- <-. }
  set (s2 := match domain ep with
             | Some _ => virtio_iommu_detach_endpoint_from_domain s1 ep
             | None => s1
             end).
  assert (Hwf2 : state_wf s2).
  { subst s2. destruct (domain ep); [by apply detach_endpoint_state_wf|done]. }
  destruct (virtio_iommu_get_domain s2 (attach_domain req)) as [s3 dom] eqn:H3.
  simpl. intros d dom'. unfold set_endpoints, set_domains. simpl.
  rewrite lookup_insert.
  unfold virtio_iommu_get_domain in H3.
  destruct (domains s2 !! attach_domain req) as [dom2|] eqn:Hd2;
    injection H3 as <- <-; case_decide.
  - intros [= <-]. simpl. by apply (Hwf2 (attach_domain req)).
  - apply Hwf2.
  - by intros [= <-].
  - simpl. rewrite lookup_insert_ne by done. apply Hwf2.
Qed.

Lemma detach_state_wf s req :
  state_wf s -> state_wf (snd (virtio_iommu_detach s req)).
Proof.
  intros Hwf. unfold virtio_iommu_detach.
  destruct (endpoints s !! detach_endpoint req) as [ep|]; [|done].
  destruct (domain ep) eqn:Hd; [|done]. simpl.
  by apply detach_endpoint_state_wf.
Qed.

Lemma map_state_wf s req :
  state_wf s -> map_virt_start req <= map_virt_end req ->
  state_wf (snd (virtio_iommu_map s req)).
Proof.
  intros Hwf Hreq. unfold virtio_iommu_map, g_tree_lookup.
  destruct (domains s !! map_domain req) as [dom|] eqn:Hd; [|done].
  destruct (g_tree_lookup_extended interval_cmp (mappings dom) _)
    as [[k v]|] eqn:Hl; [done|]. simpl.
  intros d dom'. unfold set_domains; simpl.
  rewrite lookup_insert. case_decide; [|apply Hwf].
  intros [= <-]. simpl. apply domain_insert_wf; [by apply (Hwf _ _ Hd)|done..].
Qed.

Lemma unmap_state_wf fuel s req st s' :
  state_wf s -> virtio_iommu_unmap fuel s req = Some (st, s') -> state_wf s'.
Proof.
  intros Hwf. unfold virtio_iommu_unmap.
  destruct (domains s !! unmap_domain req) as [dom|] eqn:Hd;
    [|by intros [= <- <-]].
  destruct (unmap_loop fuel (mappings dom) _) as [[st' t']|] eqn:Hl;
    [|discriminate].
  intros [= <- <-]. simpl.
  intros d dom'. unfold set_domains; simpl.
  rewrite lookup_insert. case_decide; [|apply Hwf].
  intros [= <-]. simpl. eapply unmap_loop_wf; [|done]. by apply (Hwf _ _ Hd).
Qed.

(** UNMAP returns: the number of entries of the interval map is fuel
    enough. *)
Lemma unmap_returns s req :
  state_wf s ->
  exists fuel, is_Some (virtio_iommu_unmap fuel s req).
Proof.
  intros Hwf. unfold virtio_iommu_unmap.
  destruct (domains s !! unmap_domain req) as [dom|] eqn:Hd;
    [|by exists 0%nat].
  exists (g_tree_nnodes (mappings dom)).
  destruct (unmap_loop_returns (g_tree_nnodes (mappings dom)) (mappings dom)
              (mk_interval (unmap_virt_start req) (unmap_virt_end req)))
    as [[st t'] Hl]; [by apply (Hwf _ _ Hd)|done|].
  by rewrite Hl.
Qed.

Lemma unmap_fuel_mono fuel fuel' s req r :
  virtio_iommu_unmap fuel s req = Some r -> (fuel <= fuel')%nat ->
  virtio_iommu_unmap fuel' s req = Some r.
Proof.
  unfold virtio_iommu_unmap.
  destruct (domains s !! unmap_domain req) as [dom|]; [|done].
  destruct (unmap_loop fuel (mappings dom) _) as [[st t']|] eqn:Hl;
    [|discriminate].
  intros Hr Hle. by rewrite (unmap_loop_fuel_mono _ _ _ _ _ Hl Hle).
Qed.

Lemma run_command_fuel_mono fuel fuel' s c r :
  run_command fuel s c = Some r -> (fuel <= fuel')%nat ->
  run_command fuel' s c = Some r.
Proof. destruct c; simpl; try done. apply unmap_fuel_mono. Qed.

Lemma run_commands_fuel_mono fuel fuel' s cs s' :
  run_commands fuel s cs = Some s' -> (fuel <= fuel')%nat ->
  run_commands fuel' s cs = Some s'.
Proof.
  revert s. induction cs as [|c cs IH]; intros s; simpl; [done|].
  destruct (run_command fuel s c) as [[st s1]|] eqn:Hc; [|discriminate].
  intros Hr Hle. rewrite (run_command_fuel_mono _ _ _ _ _ Hc Hle).
  by apply IH.
Qed.

Lemma run_command_state_wf fuel s c st s' :
  state_wf s -> command_wf c -> run_command fuel s c = Some (st, s') ->
  state_wf s'.
Proof.
  intros Hwf Hc. destruct c as [req|req|req|req]; simpl.
  - intros [= Hr]. replace s' with (snd (virtio_iommu_attach s req))
      by (by rewrite Hr). by apply attach_state_wf.
  - intros [= Hr]. replace s' with (snd (virtio_iommu_detach s req))
      by (by rewrite Hr). by apply detach_state_wf.
  - intros [= Hr]. replace s' with (snd (virtio_iommu_map s req))
      by (by rewrite Hr). by apply map_state_wf.
  - by apply unmap_state_wf.
Qed.

(** X11: With domains and endpoints, every sequence of ATTACH, DETACH, MAP
    and UNMAP commands whose MAPs name non-empty ranges runs to its end
    from the empty device, and leaves no domain with two stored
    intervals that have an address in common. *)
Theorem domain_mappings_stay_apart (cs : list command) :
  Forall command_wf cs ->
  exists fuel s',
    run_commands fuel empty_state cs = Some s'
    /\ forall d dom, domains s' !! d = Some dom ->
         all_apart (g_tree_keys (mappings dom)).
Proof.
  intros Hcs.
  assert (Hrun : forall s, state_wf s ->
            exists fuel s', run_commands fuel s cs = Some s' /\ state_wf s').
  { induction Hcs as [|c cs Hc Hcs IH]; intros s Hwf.
    - exists 0%nat, s. by split.
    - assert (H1 : exists fuel1 st s1, run_command fuel1 s c = Some (st, s1)).
      { destruct c as [req|req|req|req]; simpl;
          try (exists 0%nat; eexists _, _; apply f_equal, surjective_pairing).
        destruct (unmap_returns s req Hwf) as (fuel1 & [st s1] & Hu).
        by exists fuel1, st, s1. }
      destruct H1 as (fuel1 & st & s1 & H1).
      destruct (IH s1) as (fuel2 & s' & H2 & Hwf');
        [by eapply run_command_state_wf|].
      exists (Nat.max fuel1 fuel2), s'. split; [|done]. simpl.
      rewrite (run_command_fuel_mono _ (Nat.max fuel1 fuel2) _ _ _ H1)
        by apply Nat.le_max_l.
      apply (run_commands_fuel_mono _ _ _ _ _ H2), Nat.le_max_r. }
  destruct (Hrun empty_state) as (fuel & s' & Hr & Hwf').
  - intros d dom Hd. simpl in Hd. by rewrite lookup_empty in Hd.
  - exists fuel, s'. split; [done|]. intros d dom Hd.
    apply wf_all_apart. by apply (Hwf' d).
Qed.
End DomainFacts.

(** ** Address spaces and devices: the comparator and the ordered tree *)
Module AsFacts.
Import AsVariant AsNotions.

Lemma as_interval_cmp_0 (a b : viommu_interval) :
  interval_cmp a b = 0 <-> low b < high a /\ low a < high b.
Proof.
  unfold interval_cmp.
  destruct (Z.leb_spec (high a) (low b)); [lia|].
  destruct (Z.leb_spec (high b) (low a)); lia.
Qed.

Lemma as_interval_cmp_0_intersects (a b : viommu_interval) :
  interval_cmp a b = 0 -> intersects a b.
Proof. rewrite as_interval_cmp_0. unfold intersects. lia. Qed.

Lemma as_interval_cmp_neg (a b : viommu_interval) :
  interval_cmp a b < 0 <-> high a <= low b.
Proof.
  unfold interval_cmp.
  destruct (Z.leb_spec (high a) (low b)); [lia|].
  destruct (Z.leb_spec (high b) (low a)); lia.
Qed.

Lemma set_address_spaces_same (s : VirtIOIOMMU) id asp :
  address_spaces s !! id = Some asp ->
  memory_region_notify_iommu
    (set_address_spaces s
       (<[id := mk_as (as_id asp) (mappings asp) (mappings_ref asp)
                  (device_list asp)]> (address_spaces s))) [] = s.
Proof.
  intros Hd. destruct asp, s.
  unfold memory_region_notify_iommu, set_address_spaces; simpl in *.
  by rewrite insert_id, app_nil_r.
Qed.

(** In an ordered tree a query within a stored interval that reaches
    above its low end and starts below its high end finds the mapping
    stored under it. *)
Lemma as_lookup_within (t : GTree viommu_mapping) q k m :
  mappings_wf t -> (k, m) ∈ g_tree_entries t ->
  low k <= low q -> high q <= high k -> low k < high q -> low q < high k ->
  g_tree_lookup interval_cmp t q = Some m.
Proof.
  unfold mappings_wf, g_tree_lookup. intros Hwf Hin Hlo Hhi Hq1 Hq2.
  induction t as [|l IHl k0 v0 r IHr]; simpl in *.
  - by apply elem_of_nil in Hin.
  - destruct Hwf as ((Hk0 & _) & Hl & Hr & Hwl & Hwr).
    apply elem_of_app in Hin as [Hin|Hin].
    + rewrite Forall_forall in Hl. specialize (Hl _ Hin). simpl in Hl.
      assert (Hc : interval_cmp q k0 < 0) by (apply as_interval_cmp_neg; lia).
      destruct (Z.eqb_spec (interval_cmp q k0) 0); [lia|].
      destruct (Z.ltb_spec (interval_cmp q k0) 0); [|lia].
      by apply IHl.
    + apply elem_of_cons in Hin as [[= <- <-]|Hin].
      * assert (Hc : interval_cmp q k = 0) by (apply as_interval_cmp_0; lia).
        by rewrite Hc.
      * rewrite Forall_forall in Hr. specialize (Hr _ Hin). simpl in Hr.
        assert (Hc : ~ interval_cmp q k0 < 0)
          by (rewrite as_interval_cmp_neg; lia).
        assert (Hc' : interval_cmp q k0 <> 0)
          by (rewrite as_interval_cmp_0; lia).
        destruct (Z.eqb_spec (interval_cmp q k0) 0); [lia|].
        destruct (Z.ltb_spec (interval_cmp q k0) 0); [lia|].
        by apply IHr.
Qed.

Lemma lookup_strictly_inside (t : GTree viommu_mapping) q k m :
  mappings_wf t -> (k, m) ∈ g_tree_entries t -> strictly_inside q k ->
  g_tree_lookup interval_cmp t q = Some m.
Proof.
  intros Hwf Hin (Hlo & Hq & Hhi). apply (as_lookup_within t q k m); [done..|lia|lia|lia|lia].
Qed.

Lemma ordered_entry_key (t : GTree viommu_mapping) k m :
  mappings_wf t -> (k, m) ∈ g_tree_entries t -> k = key_of m.
Proof.
  unfold mappings_wf. intros Hwf Hin.
  induction t as [|l IHl k0 v0 r IHr]; simpl in *.
  - by apply elem_of_nil in Hin.
  - destruct Hwf as ((_ & Hk0) & _ & _ & Hwl & Hwr).
    apply elem_of_app in Hin as [Hin|Hin]; [by apply IHl|].
    apply elem_of_cons in Hin as [[= -> ->]|Hin]; [done|by apply IHr].
Qed.

Lemma as_unmap_loop_split `{Externals} fuel nodes devs sz
  (t : GTree viommu_mapping) q evs m :
  virt_addr m < low q -> high q < u64 (virt_addr m + size m - 1) ->
  unmap_loop fuel nodes devs sz t q evs (Some m)
  = Some (VIRTIO_IOMMU_S_INVAL, t, evs).
Proof.
  intros Hlo Hhi.
  assert (E1 : (virt_addr m =? low q) = false) by (apply Z.eqb_neq; lia).
  assert (E2 : (u64 (virt_addr m + size m - 1) =? high q) = false)
    by (apply Z.eqb_neq; lia).
  assert (E3 : (virt_addr m >? low q) = false)
    by (rewrite Z.gtb_ltb; apply Z.ltb_ge; lia).
  destruct fuel; simpl; by rewrite E1, E2, E3.
Qed.

Lemma foreach_entries_mapping_map `{Externals} mr
  (es : list (viommu_interval * viommu_mapping)) acc :
  foreach_entries (virtio_iommu_mapping_map mr) es acc
  = acc ++ map (fun e => virtio_iommu_notify_map mr (virt_addr (snd e))
                           (phys_addr (snd e)) (size (snd e))) es.
Proof.
  revert acc. induction es as [|[k m] es IH]; intros acc; simpl.
  - by rewrite app_nil_r.
  - rewrite IH. by rewrite <- app_assoc.
Qed.

Lemma foreach_entries_mapping_unmap `{Externals} mr
  (es : list (viommu_interval * viommu_mapping)) acc :
  foreach_entries (virtio_iommu_mapping_unmap mr) es acc
  = acc ++ map (fun e => virtio_iommu_notify_unmap mr (virt_addr (snd e)) 0
                           (size (snd e))) es.
Proof.
  revert acc. induction es as [|[k m] es IH]; intros acc; simpl.
  - by rewrite app_nil_r.
  - rewrite IH. by rewrite <- app_assoc.
Qed.

(** The replay of ATTACH: one map notification per entry of the tree,
    in key order, for every notifier node of the device. *)
Lemma foreach_notifier_tree_map `{Externals} nodes id
  (t : GTree viommu_mapping) :
  foreach_notifier_tree virtio_iommu_mapping_map nodes id t
  = replayed_maps nodes id t.
Proof.
  unfold foreach_notifier_tree, replayed_maps, g_tree_foreach.
  induction nodes as [|node nodes IH]; simpl; [done|].
  rewrite IH. by destruct (id =? devfn node);
    [rewrite foreach_entries_mapping_map|].
Qed.

Lemma foreach_notifier_tree_unmap `{Externals} nodes id
  (t : GTree viommu_mapping) :
  foreach_notifier_tree virtio_iommu_mapping_unmap nodes id t
  = withdrawn_maps nodes id t.
Proof.
  unfold foreach_notifier_tree, withdrawn_maps, g_tree_foreach.
  induction nodes as [|node nodes IH]; simpl; [done|].
  rewrite IH. by destruct (id =? devfn node);
    [rewrite foreach_entries_mapping_unmap|].
Qed.

(** The state after ATTACH of a device that is attached to another
    address space. *)
Lemma as_attach_elsewhere_state `{Externals} s req dev a0 :
  let devid := attach_device req in
  let a1 := attach_address_space req in
  let asp1 := default (mk_as a1 GLeaf 1 []) (address_spaces s !! a1) in
  attach_reserved req = 0 ->
  devices s !! devid = Some dev -> dev_id dev = devid ->
  as_ dev = Some a0 -> a0 <> a1 ->
  virtio_iommu_attach s req
  = (VIRTIO_IOMMU_S_OK,
     mk_state
       (<[a1 := mk_as (as_id asp1) (mappings asp1) (mappings_ref asp1 + 1)
                  (devid :: device_list asp1)]>
          (alter (fun asp =>
                    mk_as (as_id asp) (mappings asp) (mappings_ref asp)
                      (filter (fun d => d ≠ devid) (device_list asp)))
             a0 (address_spaces s)))
       (<[devid := mk_dev devid (Some a1) (reserved_regions dev)]> (devices s))
       (notifiers_list s) (page_size_mask s)
       (notified s
        ++ match address_spaces s !! a0 with
           | Some asp0 => withdrawn_maps (notifiers_list s) devid (mappings asp0)
           | None => []
           end
        ++ replayed_maps (notifiers_list s) devid (mappings asp1))).
Proof.
  destruct req as [a1 devid reserved]; simpl.
  intros -> Hdev Hid Has Hne.
  unfold virtio_iommu_attach, virtio_iommu_get_dev; simpl.
  rewrite Hdev, Has.
  unfold virtio_iommu_detach_dev_from_as. rewrite Has, Hid.
  unfold virtio_iommu_get_as; simpl.
  rewrite lookup_alter_ne by done.
  destruct (address_spaces s !! a0) as [asp0|] eqn:Ha0;
    rewrite ?foreach_notifier_tree_unmap;
    destruct (address_spaces s !! a1) as [asp1|] eqn:Ha1; simpl;
    rewrite foreach_notifier_tree_map;
    unfold memory_region_notify_iommu, set_devices, set_address_spaces; simpl;
    rewrite ?insert_insert_eq, <- ?app_assoc; reflexivity.
Qed.

(** Whatever the headers say and however long the loop runs, PROBE of a
    device the registry holds has no other result than OK. *)
Lemma probe_known_device_status `{Externals} fuel s req dev r b :
  devices s !! probe_device req = Some dev ->
  virtio_iommu_probe fuel s req = Some (r, b) ->
  r = probe_status VIRTIO_IOMMU_S_OK.
Proof.
  intros Hdev. unfold virtio_iommu_probe. rewrite Hdev.
  destruct (probe_loop _ _ _ _) as [b'|]; [|discriminate].
  destruct (virtio_iommu_fill_property _ _ _). by intros [= <- _].
Qed.

(** With the property types of the header the loop of PROBE runs once:
    any fuel but zero lets the command return, and it returns OK. *)
Lemma probe_known_device_returns_ok fuel s req dev :
  devices s !! probe_device req = Some dev ->
  exists b,
    virtio_iommu_probe (H := qemu_headers) (S fuel) s req
    = Some (probe_status VIRTIO_IOMMU_S_OK, Some b).
Proof.
  intros Hdev. unfold virtio_iommu_probe. rewrite Hdev.
  change (SUPPORTED_PROBE_PROPERTIES (H := qemu_headers)) with 1.
  cbn [probe_loop].
  change (ctz32 (Externals := qemu_headers) 1) with 0.
  change (0 =? 32) with false. cbv iota.
  change (Z.shiftl 1 0) with 1.
  destruct (virtio_iommu_fill_property (H := qemu_headers)
              (probe_device req) 1 _) as [[e|] b1].
  - destruct (virtio_iommu_fill_property _ _ b1). by eexists.
  - change (Z.land 1 (Z.lnot 1)) with 0.
    assert (Hl : probe_loop (H := qemu_headers) fuel (probe_device req) 0 b1
                 = Some b1) by (destruct fuel; reflexivity).
    rewrite Hl. destruct (virtio_iommu_fill_property _ _ b1). by eexists.
Qed.


(** A mapping of one byte is stored under [v, v], which the comparator
    places below itself: UNMAP of a range around it finds the mapping,
    asks for its removal, which finds nothing, and starts again. *)
Example unmap_around_one_byte_never_returns `{Externals} :
  forall fuel,
    virtio_iommu_unmap fuel
      (snd (virtio_iommu_map attached_state (mk_req_map 1 0x9000 0x1000 1 3)))
      (mk_req_unmap 1 0 0x3000) = None.
Proof.
  intros fuel. unfold virtio_iommu_unmap.
  change (address_spaces
            (snd (virtio_iommu_map attached_state (mk_req_map 1 0x9000 0x1000 1 3)))
          !! unmap_address_space (mk_req_unmap 1 0 0x3000))
    with (Some (mk_as 1 (GNode GLeaf (mk_interval 0x1000 0x1000)
                           (mk_mapping 0x1000 0x9000 1 3) GLeaf) 2 [7])).
  cbv beta iota.
  assert (Hl : unmap_loop fuel [] [7] 0x3000
                 (GNode GLeaf (mk_interval 0x1000 0x1000)
                    (mk_mapping 0x1000 0x9000 1 3) GLeaf)
                 (mk_interval 0 0x2fff) []
                 (Some (mk_mapping 0x1000 0x9000 1 3)) = None)
    by (induction fuel as [|fuel IH]; [reflexivity|exact IH]).
  cbv zeta.
  change (unmap_loop fuel _ _ _ _ _ _ _)
    with (unmap_loop fuel [] [7] 0x3000
            (GNode GLeaf (mk_interval 0x1000 0x1000)
               (mk_mapping 0x1000 0x9000 1 3) GLeaf)
            (mk_interval 0 0x2fff) []
            (Some (mk_mapping 0x1000 0x9000 1 3))).
  by rewrite Hl.
Qed.

(** *** What translation does get right *)

(** With address spaces and devices, an address a stored mapping stands
    for, its last byte excepted, is translated through that mapping when
    the flags allow the access. *)
Lemma as_translate_covered `{Externals} psm (t : GTree viommu_mapping)
  k m addr flag :
  mappings_wf t -> (k, m) ∈ g_tree_entries t ->
  0 <= addr -> low k <= addr -> addr + 1 <= high k -> high k < 2 ^ 64 ->
  ((negb (Z.land flag IOMMU_RO =? 0)) &&
   (Z.land (flags m) VIRTIO_IOMMU_MAP_F_READ =? 0))
  || ((negb (Z.land flag IOMMU_WO =? 0)) &&
      (Z.land (flags m) VIRTIO_IOMMU_MAP_F_WRITE =? 0)) = false ->
  translate_in_mappings psm t addr flag
  = (mk_entry addr (u64 (addr - virt_addr m + phys_addr m))
       (Z.shiftl 1 (ctz32 psm) - 1) flag, None).
Proof.
  intros Hwf Hin H0 Hlo Hhi Hmax Hperm. unfold translate_in_mappings.
  assert (Hu : u64 (addr + 1) = addr + 1)
    by (unfold u64; apply Z.mod_small; lia).
  rewrite Hu.
  rewrite (as_lookup_within t _ k m Hwf Hin) by (simpl; lia).
  by rewrite Hperm.
Qed.

(** The run of the specification: ATTACH(1, 7), MAP of 0x1000 bytes at
    0x1000 to 0x5000, readable and writable, then a read of 0x1050 by
    device 7. *)
Example translate_0x1050 :
  virtio_iommu_translate (H := qemu_headers) mapped_state
    (mk_iommu_device 0 7) 0x1050 IOMMU_RO
  = (mk_entry 0x1050 0x5050 0xfff IOMMU_RO, None).
Proof. reflexivity. Qed.

(** The same requests with MAP ahead of ATTACH: the MAP fails with
    NOENT, the address space is created empty, the read finds no
    mapping. *)
Example translate_0x1050_map_first :
  let r := virtio_iommu_map (H := qemu_headers) empty_state
             (mk_req_map 1 0x5000 0x1000 0x1000 3) in
  let s := snd (virtio_iommu_attach (snd r) (mk_req_attach 1 7 0)) in
  fst r = VIRTIO_IOMMU_S_NOENT
  /\ virtio_iommu_translate (H := qemu_headers) s (mk_iommu_device 0 7)
       0x1050 IOMMU_RO
     = (mk_entry 0x1050 0x1050 0xfff IOMMU_RO, Some NoMapping).
Proof. split; reflexivity. Qed.

(** MAP of a range that does not wrap and is not empty keeps the
    interval map of the address space well-formed. *)
Lemma as_map_keeps_wf `{Externals} s req asp asp' :
  address_spaces s !! map_address_space req = Some asp ->
  mappings_wf (mappings asp) ->
  map_virt_addr req <= u64 (map_virt_addr req + map_size req - 1) ->
  address_spaces (snd (virtio_iommu_map s req)) !! map_address_space req
  = Some asp' ->
  mappings_wf (mappings asp').
Proof.
  intros Ha Hwf Hreq. unfold virtio_iommu_map, g_tree_lookup. rewrite Ha.
  destruct (g_tree_lookup_extended interval_cmp (mappings asp) _)
    as [[k v]|] eqn:Hl; simpl.
  - rewrite Ha. by intros [= <-].
  - rewrite lookup_insert_eq. intros [= <-]. simpl.
    unfold mappings_wf in *. apply ordered_insert; [| |done|done|done].
    + intros a b. by rewrite as_interval_cmp_neg.
    + intros a b. unfold interval_cmp.
      destruct (Z.leb_spec (high a) (low b)); [lia|].
      destruct (Z.leb_spec (high b) (low a)); lia.
Qed.
End AsFacts.

(** ** The claims *)
Section Claims.
Import AsNotions.

(** C10 (amended): in both variants, UNMAP of a range that is not empty
    and has no address in common with any stored interval of an
    existing domain, the stored intervals being non-empty too, returns
    OK and leaves the whole device state, the interval map included, as
    it was. *)
Theorem unmap_of_unmapped_range_is_noop :
  (forall fuel s req dom,
      let q := mk_interval (DomainVariant.unmap_virt_start req)
                 (DomainVariant.unmap_virt_end req) in
      DomainVariant.domains s !! DomainVariant.unmap_domain req = Some dom ->
      low q <= high q ->
      (forall k v, (k, v) ∈ g_tree_entries (DomainVariant.mappings dom) ->
         low k <= high k /\ forall x, covers q x -> ~ covers k x) ->
      DomainVariant.virtio_iommu_unmap fuel s req
      = Some (VIRTIO_IOMMU_S_OK, s))
  /\
  (forall (E : Externals) fuel s req asp,
      let q := request_interval (AsVariant.unmap_virt_addr req)
                 (AsVariant.unmap_size req) in
      AsVariant.address_spaces s !! AsVariant.unmap_address_space req
      = Some asp ->
      low q <= high q ->
      (forall k m, (k, m) ∈ g_tree_entries (AsVariant.mappings asp) ->
         low k <= high k /\ forall x, covers q x -> ~ covers k x) ->
      AsVariant.virtio_iommu_unmap fuel s req
      = Some (VIRTIO_IOMMU_S_OK, s)).
Proof.
  assert (Hapart : forall q k : viommu_interval,
            low q <= high q ->
            (low k <= high k /\ forall x, covers q x -> ~ covers k x) ->
            ~ intersects q k).
  { intros q k Hq [Hk Hno] Hi.
    apply (intersects_common_address q k Hq Hk) in Hi as (x & Hqx & Hkx).
    by apply (Hno x). }
  split.
  - intros fuel s req dom q Hd Hq Hno.
    unfold DomainVariant.virtio_iommu_unmap. rewrite Hd. fold q.
    rewrite (DomainFacts.unmap_loop_no_match _ _ q)
      by (intros k v Hin; apply Hapart; [done|by apply (Hno k v)]).
    by rewrite DomainFacts.set_domains_same.
  - intros E fuel s req asp q Ha Hq Hno.
    unfold AsVariant.virtio_iommu_unmap. rewrite Ha.
    assert (El : g_tree_lookup AsVariant.interval_cmp (AsVariant.mappings asp)
                   (mk_interval (AsVariant.unmap_virt_addr req)
                      (u64 (AsVariant.unmap_virt_addr req
                            + AsVariant.unmap_size req - 1))) = None).
    { apply g_tree_lookup_None. intros k m Hin Hc.
      apply (Hapart q k Hq (Hno k m Hin)).
      by apply AsFacts.as_interval_cmp_0_intersects. }
    rewrite El. destruct fuel; simpl;
      by rewrite AsFacts.set_address_spaces_same.
Qed.

Lemma unmap_of_unmapped_range_is_noop_witness :
  DomainVariant.virtio_iommu_unmap 4 DomainNotions.mapped_state
    (DomainVariant.mk_req_unmap 1 0x3000 0x3fff)
  = Some (VIRTIO_IOMMU_S_OK, DomainNotions.mapped_state)
  /\ AsVariant.virtio_iommu_unmap (H := qemu_headers) 4 mapped_state
       (AsVariant.mk_req_unmap 1 0x3000 0x1000)
     = Some (VIRTIO_IOMMU_S_OK, mapped_state).
Proof.
  split.
  - apply (proj1 unmap_of_unmapped_range_is_noop 4%nat
             DomainNotions.mapped_state
             (DomainVariant.mk_req_unmap 1 0x3000 0x3fff)
             (DomainVariant.mk_domain 1
                (GNode GLeaf (mk_interval 0x1000 0x1fff)
                   (DomainVariant.mk_mapping 0x5000 3) GLeaf) 2 [7])).
    + reflexivity.
    + simpl. lia.
    + simpl. intros k v Hin.
      apply list_elem_of_singleton in Hin as [= -> ->].
      unfold covers; simpl. split; [lia|]. intros x. lia.
  - apply (proj2 unmap_of_unmapped_range_is_noop qemu_headers 4%nat
             mapped_state (AsVariant.mk_req_unmap 1 0x3000 0x1000)
             (AsVariant.mk_as 1
                (GNode GLeaf (mk_interval 0x1000 0x1fff)
                   (AsVariant.mk_mapping 0x1000 0x5000 0x1000 3) GLeaf)
                2 [7])).
    + reflexivity.
    + vm_compute. discriminate.
    + simpl. intros k v Hin.
      apply list_elem_of_singleton in Hin as [= -> ->].
      unfold covers; simpl. split; [lia|]. intros x.
      change (u64 (0x3000 + 0x1000 - 1)) with 0x3fff. lia.
Defined.

(** C10, as stated, fails on empty ranges.  A request that names no
    address at all, and so intersects nothing, is refused when it lies
    inside a stored interval: UNMAP of 0 bytes at 0x1800 returns INVAL
    with address spaces, UNMAP of [0x1800, 0x17ff] returns RANGE with
    domains.  And around a stored interval that holds no address, which
    MAP accepts, UNMAP does not return OK either: after MAP of [10, 5],
    UNMAP of [0, 20] never returns. *)
Lemma unmap_of_an_empty_range_is_not_a_noop :
  ((forall x, ~ (0x1800 <= x < 0x1800 + 0))
   /\ AsVariant.virtio_iommu_unmap (H := qemu_headers) 4 mapped_state
        (AsVariant.mk_req_unmap 1 0x1800 0)
      = Some (VIRTIO_IOMMU_S_INVAL, mapped_state))
  /\ ((forall x, ~ covers (mk_interval 0x1800 0x17ff) x)
      /\ DomainVariant.virtio_iommu_unmap 4 DomainNotions.mapped_state
           (DomainVariant.mk_req_unmap 1 0x1800 0x17ff)
         = Some (VIRTIO_IOMMU_S_RANGE, DomainNotions.mapped_state))
  /\ ((forall x, ~ covers (mk_interval 10 5) x)
      /\ fst (DomainVariant.virtio_iommu_map DomainNotions.attached_state
                (DomainVariant.mk_req_map 1 0 10 5 3))
         = VIRTIO_IOMMU_S_OK
      /\ forall fuel,
           DomainVariant.virtio_iommu_unmap fuel
             (snd (DomainVariant.virtio_iommu_map DomainNotions.attached_state
                     (DomainVariant.mk_req_map 1 0 10 5 3)))
             (DomainVariant.mk_req_unmap 1 0 20) = None).
Proof.
  split; [|split].
  - split; [intros x; lia|]. vm_compute. reflexivity.
  - split; [unfold covers; simpl; intros x; lia|]. vm_compute. reflexivity.
  - split; [unfold covers; simpl; intros x; lia|].
    split; [reflexivity|]. apply DomainFacts.unmap_of_empty_range_never_returns.
Qed.

(** C5 (amended): an UNMAP whose range lies strictly inside one stored
    interval of a well-formed interval map is refused and leaves the
    device state, that mapping included, untouched; the status is
    RANGE with domains and endpoints, INVAL with address spaces and
    devices. *)
Theorem unmap_inside_a_mapping_is_refused :
  (forall fuel s req dom k v,
      DomainVariant.domains s !! DomainVariant.unmap_domain req = Some dom ->
      DomainNotions.mappings_wf (DomainVariant.mappings dom) ->
      (k, v) ∈ g_tree_entries (DomainVariant.mappings dom) ->
      strictly_inside (mk_interval (DomainVariant.unmap_virt_start req)
                         (DomainVariant.unmap_virt_end req)) k ->
      DomainVariant.virtio_iommu_unmap fuel s req
      = Some (VIRTIO_IOMMU_S_RANGE, s))
  /\
  (forall (E : Externals) fuel s req asp k m,
      AsVariant.address_spaces s !! AsVariant.unmap_address_space req
      = Some asp ->
      mappings_wf (AsVariant.mappings asp) ->
      (k, m) ∈ g_tree_entries (AsVariant.mappings asp) ->
      strictly_inside (request_interval (AsVariant.unmap_virt_addr req)
                         (AsVariant.unmap_size req)) k ->
      AsVariant.virtio_iommu_unmap fuel s req
      = Some (VIRTIO_IOMMU_S_INVAL, s)).
Proof.
  split.
  - intros fuel s req dom k v Hd Hwf Hin Hq.
    unfold DomainVariant.virtio_iommu_unmap. rewrite Hd.
    rewrite (DomainFacts.domain_unmap_loop_split _ _ _ _ _ Hwf Hin Hq).
    by rewrite DomainFacts.set_domains_same.
  - intros E fuel s req asp k m Ha Hwf Hin Hq.
    unfold AsVariant.virtio_iommu_unmap. rewrite Ha.
    fold (request_interval (AsVariant.unmap_virt_addr req)
            (AsVariant.unmap_size req)).
    rewrite (AsFacts.lookup_strictly_inside _ _ _ _ Hwf Hin Hq).
    pose proof (AsFacts.ordered_entry_key _ _ _ Hwf Hin) as ->.
    destruct Hq as (Hlo & _ & Hhi). simpl in Hlo, Hhi.
    rewrite AsFacts.as_unmap_loop_split by done.
    by rewrite AsFacts.set_address_spaces_same.
Qed.

Lemma unmap_inside_a_mapping_is_refused_witness :
  DomainVariant.virtio_iommu_unmap 4 DomainNotions.mapped_state
    (DomainVariant.mk_req_unmap 1 0x1400 0x14ff)
  = Some (VIRTIO_IOMMU_S_RANGE, DomainNotions.mapped_state)
  /\ AsVariant.virtio_iommu_unmap (H := qemu_headers) 4 mapped_state
       (AsVariant.mk_req_unmap 1 0x1400 0x100)
     = Some (VIRTIO_IOMMU_S_INVAL, mapped_state).
Proof.
  split.
  - apply (proj1 unmap_inside_a_mapping_is_refused 4%nat
             DomainNotions.mapped_state
             (DomainVariant.mk_req_unmap 1 0x1400 0x14ff)
             (DomainVariant.mk_domain 1
                (GNode GLeaf (mk_interval 0x1000 0x1fff)
                   (DomainVariant.mk_mapping 0x5000 3) GLeaf) 2 [7])
             (mk_interval 0x1000 0x1fff) (DomainVariant.mk_mapping 0x5000 3)).
    + reflexivity.
    + simpl. repeat split; try constructor. lia.
    + simpl. left.
    + unfold strictly_inside; simpl; lia.
  - apply (proj2 unmap_inside_a_mapping_is_refused qemu_headers 4%nat
             mapped_state (AsVariant.mk_req_unmap 1 0x1400 0x100)
             (AsVariant.mk_as 1
                (GNode GLeaf (mk_interval 0x1000 0x1fff)
                   (AsVariant.mk_mapping 0x1000 0x5000 0x1000 3) GLeaf)
                2 [7])
             (mk_interval 0x1000 0x1fff)
             (AsVariant.mk_mapping 0x1000 0x5000 0x1000 3)).
    + reflexivity.
    + simpl. repeat split; try constructor. lia.
    + simpl. left.
    + unfold strictly_inside; simpl. vm_compute. repeat split; discriminate.
Defined.

(** C5, as stated, fails.  With address spaces and devices the request
    lies strictly inside the only mapping and the status is INVAL, not
    RANGE.  With domains and endpoints, once the empty range [10, 5] has
    been mapped ahead of [6, 20], UNMAP of [7, 8], strictly inside
    [6, 20], finds nothing and returns OK. *)
Lemma unmap_inside_a_mapping_is_not_a_range_error :
  (strictly_inside (request_interval 0x1400 0x100) (mk_interval 0x1000 0x1fff)
   /\ AsVariant.virtio_iommu_unmap (H := qemu_headers) 4 mapped_state
        (AsVariant.mk_req_unmap 1 0x1400 0x100)
      = Some (VIRTIO_IOMMU_S_INVAL, mapped_state)
   /\ ~ (exists s', AsVariant.virtio_iommu_unmap (H := qemu_headers) 4
                      mapped_state (AsVariant.mk_req_unmap 1 0x1400 0x100)
                    = Some (VIRTIO_IOMMU_S_RANGE, s')))
  /\
  (let s := snd (DomainVariant.virtio_iommu_map
                   (snd (DomainVariant.virtio_iommu_map
                           DomainNotions.attached_state
                           (DomainVariant.mk_req_map 1 0 10 5 3)))
                   (DomainVariant.mk_req_map 1 0 6 20 3)) in
   (exists dom,
       DomainVariant.domains s !! 1 = Some dom
       /\ g_tree_keys (DomainVariant.mappings dom)
          = [mk_interval 10 5; mk_interval 6 20])
   /\ strictly_inside (mk_interval 7 8) (mk_interval 6 20)
   /\ DomainVariant.virtio_iommu_unmap 4 s (DomainVariant.mk_req_unmap 1 7 8)
      = Some (VIRTIO_IOMMU_S_OK, s)).
Proof.
  assert (E : AsVariant.virtio_iommu_unmap (H := qemu_headers) 4 mapped_state
                (AsVariant.mk_req_unmap 1 0x1400 0x100)
              = Some (VIRTIO_IOMMU_S_INVAL, mapped_state)) by reflexivity.
  split; [split; [|split]|split; [|split]].
  - vm_compute. repeat split; discriminate.
  - exact E.
  - intros [s' Hs']. rewrite E in Hs'. discriminate.
  - eexists. split; reflexivity.
  - unfold strictly_inside; simpl; lia.
  - reflexivity.
Qed.

(** C6: with domains and endpoints, UNMAP of [0x800, 0x1fff] on a
    domain holding [0, 0xfff] and [0x1000, 0x1fff], both of which it
    intersects, removes [0x1000, 0x1fff], then stops on [0, 0xfff] with
    RANGE; the removal stays. *)
Theorem unmap_is_not_atomic :
  exists s req s' dom dom' k1 v1 k2 v2,
    DomainVariant.domains s !! DomainVariant.unmap_domain req = Some dom
    /\ (k1, v1) ∈ g_tree_entries (DomainVariant.mappings dom)
    /\ (k2, v2) ∈ g_tree_entries (DomainVariant.mappings dom)
    /\ k1 <> k2
    /\ intersects (mk_interval (DomainVariant.unmap_virt_start req)
                     (DomainVariant.unmap_virt_end req)) k1
    /\ intersects (mk_interval (DomainVariant.unmap_virt_start req)
                     (DomainVariant.unmap_virt_end req)) k2
    /\ DomainVariant.virtio_iommu_unmap 4 s req
       = Some (VIRTIO_IOMMU_S_RANGE, s')
    /\ DomainVariant.domains s' !! DomainVariant.unmap_domain req = Some dom'
    /\ ((k1, v1) ∉ g_tree_entries (DomainVariant.mappings dom'))
    /\ (k2, v2) ∈ g_tree_entries (DomainVariant.mappings dom').
Proof.
  exists DomainNotions.mapped_twice_state,
    (DomainVariant.mk_req_unmap 1 0x800 0x1fff).
  eexists. eexists. eexists.
  exists (mk_interval 0x1000 0x1fff), (DomainVariant.mk_mapping 0x5000 3),
    (mk_interval 0 0xfff), (DomainVariant.mk_mapping 0x9000 3).
  split; [reflexivity|].
  split; [simpl; right; left|].
  split; [simpl; left|].
  split; [discriminate|].
  split; [unfold intersects; simpl; lia|].
  split; [unfold intersects; simpl; lia|].
  split; [reflexivity|].
  split; [reflexivity|].
  split; simpl.
  - intros Hin. by apply list_elem_of_singleton in Hin.
  - left.
Qed.

(** C9 (amended): in both variants a domain that the registry does not
    hold is created, with an empty interval map, by the first ATTACH
    that names it; a MAP that names it returns NOENT and changes
    nothing. *)
Theorem domain_is_created_by_attach_not_by_map :
  (forall (E : Externals) s req,
      AsVariant.address_spaces s !! AsVariant.attach_address_space req = None ->
      AsVariant.attach_reserved req = 0 ->
      fst (AsVariant.virtio_iommu_attach s req) = VIRTIO_IOMMU_S_OK
      /\ exists asp,
          AsVariant.address_spaces (snd (AsVariant.virtio_iommu_attach s req))
            !! AsVariant.attach_address_space req = Some asp
          /\ AsVariant.as_id asp = AsVariant.attach_address_space req
          /\ AsVariant.mappings asp = GLeaf)
  /\ (forall (E : Externals) s req,
      AsVariant.address_spaces s !! AsVariant.map_address_space req = None ->
      AsVariant.virtio_iommu_map s req = (VIRTIO_IOMMU_S_NOENT, s))
  /\ (forall s req,
      DomainVariant.domains s !! DomainVariant.attach_domain req = None ->
      fst (DomainVariant.virtio_iommu_attach s req) = VIRTIO_IOMMU_S_OK
      /\ exists dom,
          DomainVariant.domains (snd (DomainVariant.virtio_iommu_attach s req))
            !! DomainVariant.attach_domain req = Some dom
          /\ DomainVariant.domain_id dom = DomainVariant.attach_domain req
          /\ DomainVariant.mappings dom = GLeaf)
  /\ (forall s req,
      DomainVariant.domains s !! DomainVariant.map_domain req = None ->
      DomainVariant.virtio_iommu_map s req = (VIRTIO_IOMMU_S_NOENT, s)).
Proof.
  split; [|split; [|split]].
  - intros E s [asid devid reserved] Hnone Hres; simpl in *. subst reserved.
    unfold AsVariant.virtio_iommu_attach; simpl.
    destruct (AsVariant.virtio_iommu_get_dev s devid) as [s1 dev] eqn:Hget.
    assert (H1 : AsVariant.address_spaces s1 !! asid = None).
    { unfold AsVariant.virtio_iommu_get_dev in Hget.
      destruct (AsVariant.devices s !! devid); by injection Hget as <- <-. }
    set (s2 := match AsVariant.as_ dev with
               | Some _ => AsVariant.virtio_iommu_detach_dev_from_as s1 dev
               | None => s1
               end).
    assert (H2 : AsVariant.address_spaces s2 !! asid = None).
    { subst s2. unfold AsVariant.virtio_iommu_detach_dev_from_as.
      destruct (AsVariant.as_ dev) as [a|]; [|done]. simpl.
      rewrite lookup_alter. case_decide; [subst a; by rewrite H1|done]. }
    unfold AsVariant.virtio_iommu_get_as. rewrite H2. simpl.
    split; [done|]. eexists. split; [apply lookup_insert_eq|done].
  - intros E s req Hnone. unfold AsVariant.virtio_iommu_map. by rewrite Hnone.
  - intros s [did epid] Hnone; simpl in *.
    unfold DomainVariant.virtio_iommu_attach; simpl.
    destruct (DomainVariant.virtio_iommu_get_endpoint s epid) as [s1 ep] eqn:Hget.
    assert (H1 : DomainVariant.domains s1 !! did = None).
    { unfold DomainVariant.virtio_iommu_get_endpoint in Hget.
      destruct (DomainVariant.endpoints s !! epid); by injection Hget as <- <-. }
    set (s2 := match DomainVariant.domain ep with
               | Some _ => DomainVariant.virtio_iommu_detach_endpoint_from_domain s1 ep
               | None => s1
               end).
    assert (H2 : DomainVariant.domains s2 !! did = None).
    { subst s2. unfold DomainVariant.virtio_iommu_detach_endpoint_from_domain.
      destruct (DomainVariant.domain ep) as [a|]; [|done]. simpl.
      rewrite lookup_alter. case_decide; [subst a; by rewrite H1|done]. }
    unfold DomainVariant.virtio_iommu_get_domain. rewrite H2. simpl.
    split; [done|]. eexists. split; [apply lookup_insert_eq|done].
  - intros s req Hnone. unfold DomainVariant.virtio_iommu_map. by rewrite Hnone.
Qed.

Lemma domain_is_created_by_attach_not_by_map_witness :
  AsVariant.virtio_iommu_map (H := qemu_headers) empty_state
    (AsVariant.mk_req_map 1 0x5000 0x1000 0x1000 3)
  = (VIRTIO_IOMMU_S_NOENT, empty_state)
  /\ fst (AsVariant.virtio_iommu_attach (H := qemu_headers) empty_state
            (AsVariant.mk_req_attach 1 7 0)) = VIRTIO_IOMMU_S_OK.
Proof.
  split.
  - apply (proj1 (proj2 domain_is_created_by_attach_not_by_map) qemu_headers
             empty_state (AsVariant.mk_req_map 1 0x5000 0x1000 0x1000 3)).
    reflexivity.
  - apply (proj1 domain_is_created_by_attach_not_by_map qemu_headers
             empty_state (AsVariant.mk_req_attach 1 7 0)); reflexivity.
Defined.

(** C9, as stated, fails: MAP naming address space 1, which the
    registry does not hold, fails with NOENT and creates nothing. *)
Lemma map_does_not_create_the_domain :
  AsVariant.address_spaces empty_state !! 1 = None
  /\ ~ (fst (AsVariant.virtio_iommu_map (H := qemu_headers) empty_state
               (AsVariant.mk_req_map 1 0x5000 0x1000 0x1000 3))
        <> VIRTIO_IOMMU_S_NOENT)
  /\ AsVariant.address_spaces
       (snd (AsVariant.virtio_iommu_map (H := qemu_headers) empty_state
               (AsVariant.mk_req_map 1 0x5000 0x1000 0x1000 3))) !! 1 = None.
Proof.
  split; [reflexivity|]. split; [|reflexivity].
  intros Hne. by apply Hne.
Qed.

(** C4: with address spaces and devices, a translation that faults for
    an unknown device, an unattached device or a missing mapping
    returns the identity translation with the permission that was
    asked for; only the permission fault clears it. *)
Theorem translate_fault_grants_requested_permission :
  forall (E : Externals) s sdev addr flag f,
    snd (AsVariant.virtio_iommu_translate s sdev addr flag) = Some f ->
    f <> PermissionDenied ->
    fst (AsVariant.virtio_iommu_translate s sdev addr flag)
    = mk_entry addr addr
        (Z.shiftl 1 (ctz32 (AsVariant.page_size_mask s)) - 1) flag.
Proof.
  intros E s sdev addr flag f.
  unfold AsVariant.virtio_iommu_translate.
  destruct (AsVariant.devices s !! _) as [dev|]; [|done].
  destruct (AsVariant.as_ dev) as [a|]; [|done].
  destruct (AsVariant.address_spaces s !! a) as [asp|]; [|done].
  destruct (g_tree_lookup _ _ _) as [m|]; [|done].
  destruct (_ || _); simpl; [|done].
  intros [= <-] Hf. by destruct Hf.
Qed.

Lemma translate_fault_grants_requested_permission_witness :
  AsVariant.virtio_iommu_translate (H := qemu_headers) mapped_state
    (mk_iommu_device 0 7) 0x3000 3
  = (mk_entry 0x3000 0x3000 0xfff 3, Some NoMapping)
  /\ AsVariant.virtio_iommu_translate (H := qemu_headers) mapped_state
       (mk_iommu_device 0 9) 0x3000 3
     = (mk_entry 0x3000 0x3000 0xfff 3, Some UnknownDevice).
Proof.
  split.
  - apply injective_projections; [|reflexivity].
    apply (translate_fault_grants_requested_permission qemu_headers
             mapped_state (mk_iommu_device 0 7) 0x3000 3 NoMapping);
      [reflexivity|discriminate].
  - apply injective_projections; [|reflexivity].
    apply (translate_fault_grants_requested_permission qemu_headers
             mapped_state (mk_iommu_device 0 9) 0x3000 3 UnknownDevice);
      [reflexivity|discriminate].
Defined.

(** C1: with address spaces and devices, two MAP commands that both
    return OK leave two entries in the interval map of address space 1
    that both stand for address 0x1fff. *)
Theorem accepted_maps_share_an_address :
  forall (E : Externals),
  exists s2 asp k1 m1 k2 m2,
    fst (AsVariant.virtio_iommu_map attached_state
           (AsVariant.mk_req_map 1 0x5000 0x1000 0x1000 3))
    = VIRTIO_IOMMU_S_OK
    /\ AsVariant.virtio_iommu_map
         (snd (AsVariant.virtio_iommu_map attached_state
                 (AsVariant.mk_req_map 1 0x5000 0x1000 0x1000 3)))
         (AsVariant.mk_req_map 1 0x9000 0x1fff 0x1000 3)
       = (VIRTIO_IOMMU_S_OK, s2)
    /\ AsVariant.address_spaces s2 !! 1 = Some asp
    /\ (k1, m1) ∈ g_tree_entries (AsVariant.mappings asp)
    /\ (k2, m2) ∈ g_tree_entries (AsVariant.mappings asp)
    /\ k1 <> k2
    /\ mapping_covers m1 0x1fff /\ mapping_covers m2 0x1fff
    /\ covers k1 0x1fff /\ covers k2 0x1fff.
Proof.
  intros E. eexists. eexists.
  exists (mk_interval 0x1000 0x1fff),
    (AsVariant.mk_mapping 0x1000 0x5000 0x1000 3),
    (mk_interval 0x1fff 0x2ffe),
    (AsVariant.mk_mapping 0x1fff 0x9000 0x1000 3).
  split; [reflexivity|]. split; [reflexivity|]. split; [reflexivity|].
  split; [simpl; left|]. split; [simpl; right; left|].
  split; [discriminate|].
  unfold mapping_covers, covers; simpl. lia.
Qed.

(** C2: with address spaces and devices, MAP of the one-byte range at
    0x1000 succeeds twice in a row, and MAP of a range that intersects
    a stored one in its last byte succeeds as well. *)
Theorem map_of_a_mapped_range_is_accepted :
  forall (E : Externals),
    let r := AsVariant.mk_req_map 1 0x9000 0x1000 1 3 in
    fst (AsVariant.virtio_iommu_map attached_state r) = VIRTIO_IOMMU_S_OK
    /\ fst (AsVariant.virtio_iommu_map
              (snd (AsVariant.virtio_iommu_map attached_state r)) r)
       = VIRTIO_IOMMU_S_OK
    /\ intersects (request_interval 0x1fff 0x1000) (mk_interval 0x1000 0x1fff)
    /\ fst (AsVariant.virtio_iommu_map
              (snd (AsVariant.virtio_iommu_map attached_state
                      (AsVariant.mk_req_map 1 0x5000 0x1000 0x1000 3)))
              (AsVariant.mk_req_map 1 0x9000 0x1fff 0x1000 3))
       = VIRTIO_IOMMU_S_OK.
Proof.
  intros E r. split; [reflexivity|]. split; [reflexivity|].
  split; [|reflexivity].
  unfold intersects; simpl. vm_compute. split; discriminate.
Qed.

(** C3: an address that a mapping stands for is not translated
    through that mapping.  With address spaces and devices the last
    byte 0x1fff of the mapping of 0x1000 bytes at 0x1000 faults
    (identity, no mapping) instead of 0x5fff.  With domains and
    endpoints address 0xfff, the end of [0, 0xfff] mapped to 0x9000, is
    translated through the neighbour [0x1000, 0x1fff] to 0x4fff
    instead of 0x9fff. *)
Theorem covered_address_is_not_translated :
  (exists asp k m,
      AsVariant.address_spaces (mapped_state (H := qemu_headers)) !! 1
      = Some asp
      /\ (k, m) ∈ g_tree_entries (AsVariant.mappings asp)
      /\ mapping_covers m 0x1fff /\ covers k 0x1fff
      /\ Z.land (AsVariant.flags m) VIRTIO_IOMMU_MAP_F_READ <> 0
      /\ AsVariant.virtio_iommu_translate (H := qemu_headers) mapped_state
           (mk_iommu_device 0 7) 0x1fff IOMMU_RO
         = (mk_entry 0x1fff 0x1fff 0xfff IOMMU_RO, Some NoMapping))
  /\
  (exists dom k v,
      DomainVariant.domains DomainNotions.mapped_twice_state !! 1 = Some dom
      /\ (k, v) ∈ g_tree_entries (DomainVariant.mappings dom)
      /\ covers k 0xfff
      /\ Z.land (DomainVariant.flags v) VIRTIO_IOMMU_MAP_F_READ <> 0
      /\ u64 (0xfff - low k + DomainVariant.phys_addr v) = 0x9fff
      /\ DomainVariant.virtio_iommu_translate (H := qemu_headers)
           DomainNotions.mapped_twice_state (mk_iommu_device 0 7) 0xfff
           IOMMU_RO
         = (mk_entry 0xfff 0x4fff 0xfff IOMMU_RO, None)).
Proof.
  split.
  - eexists. exists (mk_interval 0x1000 0x1fff),
      (AsVariant.mk_mapping 0x1000 0x5000 0x1000 3).
    split; [reflexivity|]. split; [simpl; left|].
    unfold mapping_covers, covers; simpl.
    repeat split; try lia; try discriminate.
  - eexists. exists (mk_interval 0 0xfff), (DomainVariant.mk_mapping 0x9000 3).
    split; [reflexivity|]. split; [simpl; left|].
    unfold covers; simpl. repeat split; try lia; try discriminate.
Qed.

(** The overflow path of PROBE, on a state no input builds (nothing in
    the source adds a reserved region): with 22 reserved regions, 528
    bytes against the 512 of the buffer, the helper that adds the
    terminating property flags the error and the command still returns
    OK. *)
Theorem probe_overflow_returns_ok :
  exists b0 b,
    AsVariant.probe_loop (H := qemu_headers) 4 7
      AsVariant.SUPPORTED_PROBE_PROPERTIES
      (AsVariant.mk_bufstate (AsVariant.mk_dev 7 None (resv_regions 22 0))
         0 [] false) = Some b0
    /\ AsVariant.filled b0 = 528
    /\ AsVariant.VIOMMU_PROBE_SIZE < AsVariant.filled b0
    /\ AsVariant.virtio_iommu_fill_property (H := qemu_headers) 7
         VIRTIO_IOMMU_PROBE_T_NONE b0 = (Some ENOSPC, b)
    /\ AsVariant.error b = true
    /\ AsVariant.virtio_iommu_probe (H := qemu_headers) 4 probe_state
         (AsVariant.mk_req_probe 7)
       = Some (AsVariant.probe_status VIRTIO_IOMMU_S_OK, Some b).
Proof.
  eexists. eexists. split; [vm_compute; reflexivity|].
  split; [reflexivity|]. split; [reflexivity|].
  split; [vm_compute; reflexivity|].
  split; [reflexivity|]. vm_compute; reflexivity.
Qed.

(** What ATTACH of a device that is attached to another domain does,
    in both variants: it returns OK; the device leaves the device list
    of the old domain, whose mappings stay, and heads the list of the
    target domain, whose interval map gains a reference; with address
    spaces and devices the registered notifiers whose devfn equals the
    device id are told the unmap of every mapping of the old address
    space and then the map of every mapping of the new one; from then
    on a translation for the device is the translation in the interval
    map of the target domain. *)
Theorem attach_moves_an_attached_device :
  (forall (E : Externals) s req dev a0,
      let devid := AsVariant.attach_device req in
      let a1 := AsVariant.attach_address_space req in
      let asp1 := default (AsVariant.mk_as a1 GLeaf 1 [])
                    (AsVariant.address_spaces s !! a1) in
      let s' := snd (AsVariant.virtio_iommu_attach s req) in
      AsVariant.attach_reserved req = 0 ->
      AsVariant.devices s !! devid = Some dev ->
      AsVariant.dev_id dev = devid ->
      AsVariant.as_ dev = Some a0 -> a0 <> a1 ->
      fst (AsVariant.virtio_iommu_attach s req) = VIRTIO_IOMMU_S_OK
      /\ (forall asp0, AsVariant.address_spaces s !! a0 = Some asp0 ->
            exists asp0', AsVariant.address_spaces s' !! a0 = Some asp0'
              /\ (devid ∉ AsVariant.device_list asp0')
              /\ AsVariant.mappings asp0' = AsVariant.mappings asp0)
      /\ (exists asp1', AsVariant.address_spaces s' !! a1 = Some asp1'
            /\ AsVariant.device_list asp1'
               = devid :: AsVariant.device_list asp1
            /\ AsVariant.mappings asp1' = AsVariant.mappings asp1
            /\ AsVariant.mappings_ref asp1'
               = AsVariant.mappings_ref asp1 + 1)
      /\ AsVariant.devices s' !! devid
         = Some (AsVariant.mk_dev devid (Some a1)
                   (AsVariant.reserved_regions dev))
      /\ AsVariant.notified s'
         = AsVariant.notified s
           ++ match AsVariant.address_spaces s !! a0 with
              | Some asp0 =>
                  withdrawn_maps (AsVariant.notifiers_list s) devid
                    (AsVariant.mappings asp0)
              | None => []
              end
           ++ replayed_maps (AsVariant.notifiers_list s) devid
                (AsVariant.mappings asp1)
      /\ (forall sdev addr flag,
            AsVariant.virtio_iommu_get_sid sdev = devid ->
            AsVariant.virtio_iommu_translate s' sdev addr flag
            = translate_in_mappings (AsVariant.page_size_mask s)
                (AsVariant.mappings asp1) addr flag))
  /\
  (forall (E : Externals) s req ep d0,
      let epid := DomainVariant.attach_endpoint req in
      let d1 := DomainVariant.attach_domain req in
      let dom1 := default (DomainVariant.mk_domain d1 GLeaf 1 [])
                    (DomainVariant.domains s !! d1) in
      let s' := snd (DomainVariant.virtio_iommu_attach s req) in
      DomainVariant.endpoints s !! epid = Some ep ->
      DomainVariant.endpoint_id ep = epid ->
      DomainVariant.domain ep = Some d0 -> d0 <> d1 ->
      fst (DomainVariant.virtio_iommu_attach s req) = VIRTIO_IOMMU_S_OK
      /\ (forall dom0, DomainVariant.domains s !! d0 = Some dom0 ->
            exists dom0', DomainVariant.domains s' !! d0 = Some dom0'
              /\ (epid ∉ DomainVariant.endpoint_list dom0')
              /\ DomainVariant.mappings dom0' = DomainVariant.mappings dom0
              /\ DomainVariant.mappings_ref dom0'
                 = DomainVariant.mappings_ref dom0 - 1)
      /\ (exists dom1', DomainVariant.domains s' !! d1 = Some dom1'
            /\ DomainVariant.endpoint_list dom1'
               = epid :: DomainVariant.endpoint_list dom1
            /\ DomainVariant.mappings dom1' = DomainVariant.mappings dom1
            /\ DomainVariant.mappings_ref dom1'
               = DomainVariant.mappings_ref dom1 + 1)
      /\ DomainVariant.endpoints s' !! epid
         = Some (DomainVariant.mk_endpoint epid (Some d1))
      /\ (forall sdev addr flag,
            DomainVariant.virtio_iommu_get_sid sdev = epid ->
            DomainVariant.virtio_iommu_translate s' sdev addr flag
            = DomainNotions.translate_in_mappings
                (DomainVariant.page_size_mask s)
                (DomainVariant.mappings dom1) addr flag)).
Proof.
  split.
  - intros E s req dev a0 devid a1 asp1 s' Hres Hdev Hid Has Hne.
    subst s'.
    rewrite (AsFacts.as_attach_elsewhere_state s req dev a0 Hres Hdev Hid Has Hne).
    fold devid a1 asp1. simpl.
    split; [done|]. split; [|split; [|split; [|split]]].
    + intros asp0 Ha0. rewrite lookup_insert_ne by done.
      rewrite lookup_alter_eq, Ha0. simpl. eexists. split; [done|].
      split; [|done]. simpl. rewrite list_elem_of_filter. by intros [? _].
    + rewrite lookup_insert_eq. by eexists.
    + by rewrite lookup_insert_eq.
    + done.
    + intros sdev addr flag Hsid.
      unfold AsVariant.virtio_iommu_translate, translate_in_mappings. simpl.
      rewrite Hsid. fold devid. rewrite lookup_insert_eq. simpl.
      rewrite lookup_insert_eq. simpl.
      by destruct (g_tree_lookup _ _ _).
  - intros E s req ep d0 epid d1 dom1 s' Hep Hid Hdom Hne.
    subst s'.
    rewrite (DomainFacts.domain_attach_elsewhere_state s req ep d0 Hep Hid Hdom Hne).
    fold epid d1 dom1. simpl.
    split; [done|]. split; [|split; [|split]].
    + intros dom0 Hd0. rewrite lookup_insert_ne by done.
      rewrite lookup_alter_eq, Hd0. simpl. eexists. split; [done|].
      split; [|done]. simpl. rewrite list_elem_of_filter. by intros [? _].
    + rewrite lookup_insert_eq. by eexists.
    + by rewrite lookup_insert_eq.
    + intros sdev addr flag Hsid.
      unfold DomainVariant.virtio_iommu_translate,
        DomainNotions.translate_in_mappings. simpl.
      rewrite Hsid. fold epid. rewrite lookup_insert_eq. simpl.
      rewrite lookup_insert_eq. simpl.
      by destruct (g_tree_lookup_extended _ _ _) as [[? ?]|].
Qed.

Lemma attach_moves_an_attached_device_witness :
  (fst (AsVariant.virtio_iommu_attach (H := qemu_headers) watched_state
          (AsVariant.mk_req_attach 2 7 0)) = VIRTIO_IOMMU_S_OK
   /\ AsVariant.notified
        (snd (AsVariant.virtio_iommu_attach (H := qemu_headers) watched_state
                (AsVariant.mk_req_attach 2 7 0)))
      = [(mk_iommu_device 0 7, mk_entry 0x1000 0x5000 0xfff 3);
         (mk_iommu_device 0 7, mk_entry 0x1000 0 0xfff 0)])
  /\ fst (DomainVariant.virtio_iommu_attach DomainNotions.mapped_state
            (DomainVariant.mk_req_attach 2 7)) = VIRTIO_IOMMU_S_OK.
Proof.
  split.
  - pose proof (proj1 attach_moves_an_attached_device qemu_headers
                  watched_state (AsVariant.mk_req_attach 2 7 0)
                  (AsVariant.mk_dev 7 (Some 1) GLeaf) 1
                  eq_refl eq_refl eq_refl eq_refl) as Hthm.
    destruct Hthm as (Hok & _ & _ & _ & Hev & _); [discriminate|].
    split; [exact Hok|]. rewrite Hev. reflexivity.
  - refine (proj1 (proj2 attach_moves_an_attached_device qemu_headers
                     DomainNotions.mapped_state
                     (DomainVariant.mk_req_attach 2 7)
                     (DomainVariant.mk_endpoint 7 (Some 1)) 1
                     eq_refl eq_refl eq_refl _)).
    discriminate.
Defined.
End Claims.

(** * Further properties *)

(** ** The tree: what a removal keeps *)
Section GTreeRemoval.
Context {V : Type}.
Variable key_compare : viommu_interval -> viommu_interval -> Z.

(** A removal takes away nothing but an entry whose key compares equal
    to the key asked for. *)
Lemma g_tree_remove_keeps (t : GTree V) key e :
  e ∈ g_tree_entries t ->
  e ∈ g_tree_entries (g_tree_remove key_compare t key)
  \/ key_compare key (fst e) = 0.
Proof.
  induction t as [|l IHl k0 v0 r IHr]; simpl.
  - intros Hin. by apply elem_of_nil in Hin.
  - destruct (Z.eqb_spec (key_compare key k0) 0) as [E0|E0].
    + rewrite elem_of_app, elem_of_cons.
      destruct l as [|ll lk lv lr].
      * intros [Hin|[->|Hin]]; [by apply elem_of_nil in Hin|by right|by left].
      * destruct (g_tree_first r) as [[k' v']|] eqn:Hf.
        -- rewrite (g_tree_first_entries r _ Hf).
           change (g_tree_entries (GNode (GNode ll lk lv lr) k' v'
                                     (g_tree_remove_first r)))
             with (g_tree_entries (GNode ll lk lv lr)
                   ++ (k', v') :: g_tree_entries (g_tree_remove_first r)).
           rewrite elem_of_app, !elem_of_cons.
           intros [Hin|[->|[->|Hin]]]; auto.
        -- apply g_tree_first_None in Hf as ->.
           intros [Hin|[->|Hin]]; [by left|by right|by apply elem_of_nil in Hin].
    + destruct (key_compare key k0 <? 0); simpl;
        rewrite !elem_of_app, !elem_of_cons.
      * intros [Hin|[->|Hin]]; [|by left; right; left|by left; right; right].
        destruct (IHl Hin); [by left; left|by right].
      * intros [Hin|[->|Hin]]; [by left; left|by left; right; left|].
        destruct (IHr Hin); [by left; right; right|by right].
Qed.
End GTreeRemoval.

(** ** Domains and endpoints: MAP and UNMAP *)
Module DomainMoreFacts.
Import DomainVariant DomainNotions DomainFacts DomainMore.

(** What a MAP that returns OK has done. *)
Lemma map_ok_inv s req :
  fst (virtio_iommu_map s req) = VIRTIO_IOMMU_S_OK ->
  exists dom,
    domains s !! map_domain req = Some dom
    /\ g_tree_lookup_extended interval_cmp (mappings dom)
         (mk_interval (map_virt_start req) (map_virt_end req)) = None
    /\ snd (virtio_iommu_map s req)
       = set_domains s
           (<[map_domain req :=
                mk_domain (domain_id dom)
                  (g_tree_insert interval_cmp (mappings dom)
                     (mk_interval (map_virt_start req) (map_virt_end req))
                     (mk_mapping (map_phys_start req) (map_flags req)))
                  (mappings_ref dom) (endpoint_list dom)]> (domains s)).
Proof.
  unfold virtio_iommu_map, g_tree_lookup.
  destruct (domains s !! map_domain req) as [dom|]; [|discriminate].
  destruct (g_tree_lookup_extended interval_cmp (mappings dom) _)
    as [[k v]|] eqn:Hl; [discriminate|]. intros _. by exists dom.
Qed.

(** The passes of the loop of UNMAP: nothing is added, nothing is lost
    but intervals the request intersects, and the status tells how the
    last search ended. *)
Lemma unmap_loop_effect fuel (t : GTree viommu_mapping) q st t' :
  unmap_loop fuel t q = Some (st, t') ->
  (forall e, e ∈ g_tree_entries t' -> e ∈ g_tree_entries t)
  /\ (forall e, e ∈ g_tree_entries t ->
        e ∈ g_tree_entries t' \/ intersects q (fst e))
  /\ (st = VIRTIO_IOMMU_S_OK
      /\ g_tree_lookup_extended interval_cmp t' q = None
      \/ st = VIRTIO_IOMMU_S_RANGE
         /\ exists k v, g_tree_lookup_extended interval_cmp t' q = Some (k, v)
              /\ ~ (low q <= low k /\ high k <= high q)).
Proof.
  revert t. induction fuel as [|fuel IH]; intros t; simpl;
    destruct (g_tree_lookup_extended interval_cmp t q) as [[k v]|] eqn:Hl.
  - destruct ((low q <=? low k) && (high q >=? high k)) eqn:Hc; [discriminate|].
    intros [= <- <-]. split; [done|]. split; [by left|]. right. split; [done|].
    exists k, v. split; [done|]. apply andb_false_iff in Hc. lia.
  - intros [= <- <-]. split; [done|]. split; [by left|]. by left.
  - destruct ((low q <=? low k) && (high q >=? high k)) eqn:Hc.
    + intros Hr. destruct (IH _ Hr) as (Hsub & Hkeep & Hst).
      split; [|split; [|done]].
      * intros e He. eapply g_tree_remove_entries. by apply Hsub.
      * intros e He.
        destruct (g_tree_remove_keeps interval_cmp t k e He) as [Hin|Hk];
          [by apply Hkeep|].
        right. apply domain_interval_cmp_0 in Hk.
        apply andb_true_iff in Hc. unfold intersects in *. lia.
    + intros [= <- <-]. split; [done|]. split; [by left|]. right. split; [done|].
      exists k, v. split; [done|]. apply andb_false_iff in Hc. lia.
  - intros [= <- <-]. split; [done|]. split; [by left|]. by left.
Qed.

(** In a well-formed tree the removal of a stored key takes that entry
    away. *)
Lemma remove_stored_key (t : GTree viommu_mapping) k v :
  mappings_wf t -> (k, v) ∈ g_tree_entries t ->
  (k, v) ∉ g_tree_entries (g_tree_remove interval_cmp t k).
Proof.
  unfold mappings_wf. intros Hwf Hin Hrem.
  assert (Hlone : forall e, e ∈ g_tree_entries (g_tree_remove interval_cmp t k) ->
                    e ∈ g_tree_entries t)
    by (intros e; apply g_tree_remove_entries).
  induction t as [|l IHl k0 v0 r IHr]; simpl in *.
  - by apply elem_of_nil in Hin.
  - destruct Hwf as (Hk0 & Hl & Hr & Hwl & Hwr).
    rewrite Forall_forall in Hl, Hr.
    assert (Hk : low k <= high k).
    { apply elem_of_app in Hin as [Hin|Hin];
        [by apply (ordered_entry_ok _ _ l k v Hwl)|].
      apply elem_of_cons in Hin as [[= -> ->]|Hin];
        [done|by apply (ordered_entry_ok _ _ r k v Hwr)]. }
    destruct (Z.eqb_spec (interval_cmp k k0) 0) as [E0|E0].
    + apply domain_interval_cmp_0 in E0. unfold intersects in E0.
      assert (Hnl : (k, v) ∉ g_tree_entries l)
        by (intros Hi; specialize (Hl _ Hi); simpl in Hl; lia).
      assert (Hnr : (k, v) ∉ g_tree_entries r)
        by (intros Hi; specialize (Hr _ Hi); simpl in Hr; lia).
      destruct l as [|ll lk lv lr]; [done|].
      destruct (g_tree_first r) as [[k' v']|] eqn:Hf; [|done].
      change (g_tree_entries (GNode (GNode ll lk lv lr) k' v'
                                (g_tree_remove_first r)))
        with (g_tree_entries (GNode ll lk lv lr)
              ++ (k', v') :: g_tree_entries (g_tree_remove_first r)) in Hrem.
      apply elem_of_app in Hrem as [Hrem|Hrem]; [done|].
      apply Hnr. by rewrite (g_tree_first_entries r _ Hf).
    + destruct (Z.ltb_spec (interval_cmp k k0) 0) as [Hlt|Hge]; simpl in Hrem.
      * apply domain_interval_cmp_neg in Hlt.
        apply elem_of_app in Hrem as [Hrem|Hrem].
        -- apply IHl; [done| |done|by intros e; apply g_tree_remove_entries].
           apply elem_of_app in Hin as [Hin|Hin]; [done|].
           apply elem_of_cons in Hin as [[= -> ->]|Hin]; [lia|].
           specialize (Hr _ Hin). simpl in Hr. lia.
        -- apply elem_of_cons in Hrem as [[= -> ->]|Hrem]; [lia|].
           specialize (Hr _ Hrem). simpl in Hr. lia.
      * assert (Hgt : high k0 < low k).
        { revert E0 Hge. unfold interval_cmp.
          destruct (Z.ltb_spec (high k) (low k0)); [lia|].
          destruct (Z.ltb_spec (high k0) (low k)); lia. }
        apply elem_of_app in Hrem as [Hrem|Hrem].
        -- specialize (Hl _ Hrem). simpl in Hl. lia.
        -- apply elem_of_cons in Hrem as [[= -> ->]|Hrem]; [lia|].
           apply IHr; [done| |done|by intros e; apply g_tree_remove_entries].
           apply elem_of_app in Hin as [Hin|Hin].
           ++ specialize (Hl _ Hin). simpl in Hl. lia.
           ++ apply elem_of_cons in Hin as [[= -> ->]|Hin]; [lia|done].
Qed.

(** In a well-formed tree two entries whose keys intersect are the same
    entry. *)
Lemma wf_intersecting_entries_equal (t : GTree viommu_mapping) e1 e2 :
  mappings_wf t -> e1 ∈ g_tree_entries t -> e2 ∈ g_tree_entries t ->
  intersects (fst e1) (fst e2) -> e1 = e2.
Proof.
  unfold mappings_wf, intersects. intros Hwf H1 H2 [Hi1 Hi2].
  induction t as [|l IHl k0 v0 r IHr]; simpl in *.
  - by apply elem_of_nil in H1.
  - destruct Hwf as (Hk0 & Hl & Hr & Hwl & Hwr).
    rewrite Forall_forall in Hl, Hr.
    apply elem_of_app in H1 as [H1|H1]; apply elem_of_app in H2 as [H2|H2].
    + by apply IHl.
    + pose proof (Hl _ H1) as Hb1.
      apply elem_of_cons in H2 as [->|H2]; simpl in *; [lia|].
      pose proof (Hr _ H2). simpl in *. lia.
    + pose proof (Hl _ H2) as Hb2.
      apply elem_of_cons in H1 as [->|H1]; simpl in *; [lia|].
      pose proof (Hr _ H1). simpl in *. lia.
    + apply elem_of_cons in H1 as [->|H1];
        apply elem_of_cons in H2 as [->|H2]; simpl in *.
      * done.
      * pose proof (Hr _ H2). simpl in *. lia.
      * pose proof (Hr _ H1). simpl in *. lia.
      * by apply IHr.
Qed.

(** UNMAP of exactly a stored interval of a well-formed tree, whatever
    the shape of the tree, removes that entry and no other in one
    pass. *)
Lemma exact_unmap_loop fuel (t : GTree viommu_mapping) k v :
  mappings_wf t -> (k, v) ∈ g_tree_entries t ->
  unmap_loop (S fuel) t k
  = Some (VIRTIO_IOMMU_S_OK, g_tree_remove interval_cmp t k)
  /\ mappings_wf (g_tree_remove interval_cmp t k)
  /\ (forall e, e ∈ g_tree_entries (g_tree_remove interval_cmp t k)
        <-> e ∈ g_tree_entries t /\ e <> (k, v)).
Proof.
  intros Hwf Hin.
  pose proof (ordered_entry_ok _ _ _ _ _ Hwf Hin) as Hk. simpl in Hk.
  assert (Hl : g_tree_lookup_extended interval_cmp t k = Some (k, v))
    by (apply lookup_within; [done..|lia|done|lia]).
  set (t1 := g_tree_remove interval_cmp t k).
  assert (Hwf1 : mappings_wf t1) by (by apply domain_remove_wf).
  assert (Hsub : forall e, e ∈ g_tree_entries t1 ->
                   e ∈ g_tree_entries t /\ e <> (k, v)).
  { intros e He. split; [by eapply g_tree_remove_entries|].
    intros ->. by apply (remove_stored_key t k v). }
  assert (Hno : forall e, e ∈ g_tree_entries t1 -> ~ intersects k (fst e)).
  { intros e He Hi. destruct (Hsub e He) as [He' Hne]. apply Hne.
    symmetry. apply (wf_intersecting_entries_equal t); done. }
  split; [|split; [done|]].
  - simpl. rewrite Hl. simpl.
    rewrite Z.leb_refl. replace (high k >=? high k) with true
      by (symmetry; apply Z.geb_le; lia). simpl. fold t1.
    by apply unmap_loop_no_match; intros k' v' He; apply (Hno (k', v')).
  - intros e. split; [apply Hsub|]. intros [He Hne].
    destruct (g_tree_remove_keeps interval_cmp t k e He) as [Hr|Hc]; [done|].
    destruct Hne. symmetry.
    apply (wf_intersecting_entries_equal t); [done..|].
    by apply domain_interval_cmp_0.
Qed.
End DomainMoreFacts.

Section MoreDomainProperties.
Import DomainVariant DomainNotions DomainFacts DomainMore DomainMoreFacts.

(** X1: With domains and endpoints and a well-formed interval map, an
    UNMAP of exactly the non-empty range that an accepted MAP has just
    mapped returns OK and leaves the interval map with the entries it
    had before the MAP, well-formed again; the endpoint list and the
    reference count of the domain, the other domains and the endpoints
    are as before the MAP.  (The statement is about the entries: the
    shape of the tree, on which nothing here depends, is GLib's
    business.) *)
Theorem domain_map_then_unmap_restores fuel s req dom :
  domains s !! map_domain req = Some dom ->
  mappings_wf (mappings dom) ->
  map_virt_start req <= map_virt_end req ->
  fst (virtio_iommu_map s req) = VIRTIO_IOMMU_S_OK ->
  exists s' dom',
    virtio_iommu_unmap (S fuel) (snd (virtio_iommu_map s req))
      (mk_req_unmap (map_domain req) (map_virt_start req) (map_virt_end req))
    = Some (VIRTIO_IOMMU_S_OK, s')
    /\ domains s' !! map_domain req = Some dom'
    /\ (forall e, e ∈ g_tree_entries (mappings dom')
          <-> e ∈ g_tree_entries (mappings dom))
    /\ mappings_wf (mappings dom')
    /\ endpoint_list dom' = endpoint_list dom
    /\ mappings_ref dom' = mappings_ref dom
    /\ (forall d, d <> map_domain req -> domains s' !! d = domains s !! d)
    /\ endpoints s' = endpoints s.
Proof.
  intros Hd Hwf Hreq Hok.
  destruct (map_ok_inv s req Hok) as (dom0 & Hd0 & Hl & ->).
  rewrite Hd in Hd0. injection Hd0 as <-.
  set (q := mk_interval (map_virt_start req) (map_virt_end req)) in *.
  set (m := mk_mapping (map_phys_start req) (map_flags req)) in *.
  set (t1 := g_tree_insert interval_cmp (mappings dom) q m).
  assert (Hwf1 : mappings_wf t1) by (by apply domain_insert_wf).
  assert (Hin1 : (q, m) ∈ g_tree_entries t1)
    by (apply g_tree_insert_entries; [done|by left]).
  assert (Hnew : (q, m) ∉ g_tree_entries (mappings dom)).
  { intros Hin.
    destruct (lookup_intersecting (mappings dom) q q m Hwf Hin) as [x Hx].
    - unfold intersects. simpl. lia.
    - rewrite Hl in Hx. discriminate. }
  destruct (exact_unmap_loop fuel t1 q m Hwf1 Hin1) as (Hloop & Hwf2 & Hent).
  eexists _, _. unfold virtio_iommu_unmap.
  cbn [unmap_domain unmap_virt_start unmap_virt_end domains set_domains].
  rewrite lookup_insert_eq. cbn [mappings]. fold q t1. rewrite Hloop.
  split; [reflexivity|]. cbn [domains set_domains].
  split; [apply lookup_insert_eq|]. cbn [mappings endpoint_list mappings_ref
    domain_id endpoints].
  split_and!; try done.
  - intros e. rewrite Hent. unfold t1.
    rewrite (g_tree_insert_entries interval_cmp _ q m e Hl).
    split; [intros [[->|He] Hne]; done|].
    intros He. split; [by right|]. intros ->. done.
  - intros d Hne. by rewrite !lookup_insert_ne.
Qed.

Lemma domain_map_then_unmap_restores_witness :
  exists s' dom',
    virtio_iommu_unmap 1
      (snd (virtio_iommu_map mapped_state (mk_req_map 1 0x9000 0 0xfff 3)))
      (mk_req_unmap 1 0 0xfff)
    = Some (VIRTIO_IOMMU_S_OK, s')
    /\ domains s' !! 1 = Some dom'
    /\ (forall e, e ∈ g_tree_entries (mappings dom')
          <-> e ∈ [(mk_interval 0x1000 0x1fff, mk_mapping 0x5000 3)]).
Proof.
  destruct (domain_map_then_unmap_restores 0 mapped_state
              (mk_req_map 1 0x9000 0 0xfff 3)
              (mk_domain 1
                 (GNode GLeaf (mk_interval 0x1000 0x1fff) (mk_mapping 0x5000 3)
                    GLeaf) 2 [7]))
    as (s' & dom' & H1 & H2 & H3 & _).
  - reflexivity.
  - simpl. repeat split; try lia; constructor.
  - simpl. lia.
  - reflexivity.
  - exists s', dom'. split; [exact H1|]. split; [exact H2|exact H3].
Defined.

(** X2: With domains and endpoints and a well-formed interval map, UNMAP
    returns after at most as many passes as the map has entries, with OK
    or RANGE; it adds no entry, keeps every entry the request does not
    intersect, and when it returns OK no entry that intersects the
    request is left. *)
Theorem domain_unmap_removes_what_it_covers s req dom :
  domains s !! unmap_domain req = Some dom ->
  mappings_wf (mappings dom) ->
  let q := mk_interval (unmap_virt_start req) (unmap_virt_end req) in
  exists st s' dom',
    virtio_iommu_unmap (g_tree_nnodes (mappings dom)) s req = Some (st, s')
    /\ domains s' !! unmap_domain req = Some dom'
    /\ (st = VIRTIO_IOMMU_S_OK \/ st = VIRTIO_IOMMU_S_RANGE)
    /\ (forall e, e ∈ g_tree_entries (mappings dom') ->
          e ∈ g_tree_entries (mappings dom))
    /\ (forall e, e ∈ g_tree_entries (mappings dom) ->
          ~ intersects q (fst e) -> e ∈ g_tree_entries (mappings dom'))
    /\ (st = VIRTIO_IOMMU_S_OK ->
        forall e, e ∈ g_tree_entries (mappings dom') -> ~ intersects q (fst e)).
Proof.
  intros Hd Hwf q.
  destruct (unmap_loop_returns (g_tree_nnodes (mappings dom)) (mappings dom) q
              Hwf) as [[st t'] Hl]; [done|].
  destruct (unmap_loop_effect _ _ _ _ _ Hl) as (Hsub & Hkeep & Hst).
  pose proof (unmap_loop_wf _ _ _ _ _ Hwf Hl) as Hwf'.
  exists st. eexists. eexists.
  unfold virtio_iommu_unmap. rewrite Hd. fold q. rewrite Hl.
  split; [reflexivity|]. simpl. rewrite lookup_insert_eq.
  split; [reflexivity|]. simpl.
  split; [destruct Hst as [[-> _]|[-> _]]; auto|].
  split; [done|]. split.
  - intros e He Hno. by destruct (Hkeep e He).
  - intros -> e He Hi. destruct Hst as [[_ Hnone]|[? _]]; [|discriminate].
    destruct e as [k v].
    destruct (lookup_intersecting t' q k v Hwf' He Hi) as [x Hx].
    rewrite Hnone in Hx. discriminate.
Qed.

Lemma domain_unmap_removes_what_it_covers_witness :
  exists st s' dom',
    virtio_iommu_unmap 2 mapped_twice_state (mk_req_unmap 1 0x800 0x1fff)
    = Some (st, s')
    /\ domains s' !! 1 = Some dom'
    /\ (st = VIRTIO_IOMMU_S_OK \/ st = VIRTIO_IOMMU_S_RANGE).
Proof.
  destruct (domain_unmap_removes_what_it_covers mapped_twice_state
              (mk_req_unmap 1 0x800 0x1fff)
              (mk_domain 1
                 (GNode (GNode GLeaf (mk_interval 0 0xfff) (mk_mapping 0x9000 3)
                           GLeaf)
                    (mk_interval 0x1000 0x1fff) (mk_mapping 0x5000 3) GLeaf)
                 2 [7]))
    as (st & s' & dom' & H1 & H2 & H3 & _).
  - reflexivity.
  - simpl. repeat split; try lia; repeat constructor; simpl; lia.
  - exists st, s', dom'. repeat split; assumption.
Defined.

(** X3: With domains and endpoints and a well-formed interval map, UNMAP of
    exactly the range of a stored mapping returns OK and removes that
    entry and no other; from then on the translation of an address of
    that range, its last address excepted, finds no mapping and is
    denied. *)
Theorem domain_unmap_of_a_mapping `{Externals} fuel s d dom k v :
  domains s !! d = Some dom ->
  mappings_wf (mappings dom) ->
  (k, v) ∈ g_tree_entries (mappings dom) ->
  exists s' dom',
    virtio_iommu_unmap (S fuel) s (mk_req_unmap d (low k) (high k))
    = Some (VIRTIO_IOMMU_S_OK, s')
    /\ domains s' !! d = Some dom'
    /\ (forall e, e ∈ g_tree_entries (mappings dom')
                  <-> e ∈ g_tree_entries (mappings dom) /\ e <> (k, v))
    /\ (forall sdev ep addr flag,
          endpoints s' !! virtio_iommu_get_sid sdev = Some ep ->
          domain ep = Some d ->
          low k <= addr -> addr < high k -> 0 <= addr -> high k < 2 ^ 64 ->
          virtio_iommu_translate s' sdev addr flag
          = (mk_entry addr addr (Z.shiftl 1 (ctz32 (page_size_mask s)) - 1)
               IOMMU_NONE, Some NoMapping)).
Proof.
  intros Hd Hwf Hin.
  pose proof (ordered_entry_ok _ _ _ _ _ Hwf Hin) as Hk. simpl in Hk.
  assert (Hl : g_tree_lookup_extended interval_cmp (mappings dom) k = Some (k, v))
    by (apply lookup_within; [done..|lia|done|lia]).
  set (t1 := g_tree_remove interval_cmp (mappings dom) k).
  assert (Hwf1 : mappings_wf t1) by (by apply domain_remove_wf).
  assert (Hsub : forall e, e ∈ g_tree_entries t1 ->
                   e ∈ g_tree_entries (mappings dom) /\ e <> (k, v)).
  { intros e He. split; [by eapply g_tree_remove_entries|].
    intros ->. by apply (remove_stored_key (mappings dom) k v). }
  assert (Hno : forall e, e ∈ g_tree_entries t1 -> ~ intersects k (fst e)).
  { intros e He Hi. destruct (Hsub e He) as [He' Hne]. apply Hne.
    symmetry. apply (wf_intersecting_entries_equal (mappings dom)); done. }
  assert (Hl1 : unmap_loop fuel t1 k = Some (VIRTIO_IOMMU_S_OK, t1))
    by (by apply unmap_loop_no_match; intros k' v' He; apply (Hno (k', v'))).
  exists (set_domains s
            (<[d := mk_domain (domain_id dom) t1 (mappings_ref dom)
                      (endpoint_list dom)]> (domains s))).
  eexists. split; [|split; [simpl; apply lookup_insert_eq|split]].
  - unfold virtio_iommu_unmap. simpl. rewrite Hd.
    destruct k as [lo hi]. simpl in *. rewrite Hl. simpl.
    rewrite Z.leb_refl. replace (hi >=? hi) with true
      by (symmetry; apply Z.geb_le; lia). simpl.
    fold t1. by rewrite Hl1.
  - simpl. intros e. split; [apply Hsub|]. intros [He Hne].
    destruct (g_tree_remove_keeps interval_cmp (mappings dom) k e He)
      as [Hr|Hc]; [done|].
    destruct Hne. symmetry.
    apply (wf_intersecting_entries_equal (mappings dom)); [done..|].
    by apply domain_interval_cmp_0.
  - intros sdev ep addr flag Hep Hdom Hlo Hhi H0 Hmax.
    unfold virtio_iommu_translate. rewrite Hep, Hdom. simpl.
    rewrite lookup_insert_eq. simpl.
    assert (Hu : u64 (addr + 1) = addr + 1)
      by (unfold u64; apply Z.mod_small; lia).
    rewrite Hu.
    rewrite (g_tree_lookup_extended_None interval_cmp t1); [done|].
    intros k' v' He Hc. apply domain_interval_cmp_0 in Hc.
    apply (Hno (k', v') He). unfold intersects in *. simpl in *. lia.
Qed.

Lemma domain_unmap_of_a_mapping_witness :
  exists s' dom',
    virtio_iommu_unmap 1 mapped_state (mk_req_unmap 1 0x1000 0x1fff)
    = Some (VIRTIO_IOMMU_S_OK, s')
    /\ domains s' !! 1 = Some dom'.
Proof.
  destruct (domain_unmap_of_a_mapping (H := qemu_headers) 0 mapped_state 1
              (mk_domain 1
                 (GNode GLeaf (mk_interval 0x1000 0x1fff) (mk_mapping 0x5000 3)
                    GLeaf) 2 [7])
              (mk_interval 0x1000 0x1fff) (mk_mapping 0x5000 3))
    as (s' & dom' & H1 & H2 & _).
  - reflexivity.
  - simpl. repeat split; try lia; constructor.
  - simpl. left.
  - exists s', dom'. split; assumption.
Defined.
End MoreDomainProperties.

(** ** Domains and endpoints: attachment *)
Module DomainAttachFacts.
Import DomainVariant DomainNotions DomainFacts DomainMore.

Lemma length_filter_ne (l : list Z) (e : Z) :
  NoDup l -> e ∈ l ->
  Z.of_nat (length (filter (fun x => x ≠ e) l)) = Z.of_nat (length l) - 1.
Proof.
  induction l as [|x l IH]; intros Hnd Hin.
  - by apply elem_of_nil in Hin.
  - apply NoDup_cons in Hnd as [Hx Hnd].
    destruct (decide (x = e)) as [->|Hne].
    + rewrite filter_cons_False by (intros Hf; by apply Hf).
      assert (Hall : filter (fun x => x ≠ e) l = l).
      { clear IH Hin Hnd. induction l as [|y l IH]; [done|].
        rewrite filter_cons_True.
        - f_equal. apply IH. intros Hi. apply Hx. by right.
        - intros ->. apply Hx. left. }
      rewrite Hall. simpl. lia.
    + rewrite filter_cons_True by done.
      apply elem_of_cons in Hin as [->|Hin]; [done|].
      simpl. specialize (IH Hnd Hin). lia.
Qed.

Lemma consistent_get_endpoint s e :
  attachment_consistent s ->
  attachment_consistent (fst (virtio_iommu_get_endpoint s e))
  /\ endpoints (fst (virtio_iommu_get_endpoint s e)) !! e
     = Some (snd (virtio_iommu_get_endpoint s e))
  /\ domains (fst (virtio_iommu_get_endpoint s e)) = domains s.
Proof.
  intros [H1 H2]. unfold virtio_iommu_get_endpoint.
  destruct (endpoints s !! e) as [ep|] eqn:He; simpl; [done|].
  split; [|split; [apply lookup_insert_eq|done]].
  split; simpl.
  - intros d dom Hd. destruct (H1 d dom Hd) as (Hnd & Href & Hmem).
    split; [done|]. split; [done|]. intros e' He'.
    destruct (Hmem e' He') as (ep' & Hep' & Hdom').
    exists ep'. split; [|done]. rewrite lookup_insert_ne; [done|].
    intros <-. rewrite He in Hep'. discriminate.
  - intros e' ep'. rewrite lookup_insert. case_decide.
    + intros [= <-]. simpl. subst. split; [done|]. discriminate.
    + apply H2.
Qed.

Lemma consistent_detach s e ep d0 :
  attachment_consistent s -> endpoints s !! e = Some ep ->
  domain ep = Some d0 ->
  attachment_consistent (virtio_iommu_detach_endpoint_from_domain s ep)
  /\ endpoints (virtio_iommu_detach_endpoint_from_domain s ep) !! e
     = Some (mk_endpoint e None).
Proof.
  intros [H1 H2] He Hd0.
  destruct (H2 e ep He) as [Hid Hback].
  destruct (Hback d0 Hd0) as (dom0 & Hdom0 & Hin0).
  unfold virtio_iommu_detach_endpoint_from_domain. rewrite Hd0, Hid. simpl.
  split; [|apply lookup_insert_eq].
  split; simpl.
  - intros d dom'. simpl. rewrite lookup_alter. case_decide as Hdd.
    + subst d. rewrite Hdom0. intros [= <-]. simpl.
      destruct (H1 d0 dom0 Hdom0) as (Hnd & Href & Hmem).
      split; [by apply NoDup_filter|]. split.
      * rewrite length_filter_ne by done. lia.
      * intros e' He'. apply list_elem_of_filter in He' as [Hne He'].
        destruct (Hmem e' He') as (ep' & Hep' & Hdom').
        exists ep'. by rewrite lookup_insert_ne.
    + intros Hd. destruct (H1 d dom' Hd) as (Hnd & Href & Hmem).
      split; [done|]. split; [done|]. intros e' He'.
      destruct (Hmem e' He') as (ep' & Hep' & Hdom').
      exists ep'. split; [|done]. rewrite lookup_insert_ne; [done|].
      intros <-. rewrite He in Hep'. injection Hep' as <-. congruence.
  - intros e' ep'. simpl. rewrite lookup_insert. case_decide.
    + intros [= <-]. simpl. subst. split; [done|]. discriminate.
    + intros Hep'. destruct (H2 e' ep' Hep') as [Hid' Hback'].
      split; [done|]. intros d Hd.
      destruct (Hback' d Hd) as (dom & Hdom & Hin).
      rewrite lookup_alter. case_decide as Hdd.
      * subst d. rewrite Hdom. simpl. eexists. split; [done|]. simpl.
        apply list_elem_of_filter. split; [congruence|done].
      * by exists dom.
Qed.

Lemma consistent_get_domain s d :
  attachment_consistent s ->
  attachment_consistent (fst (virtio_iommu_get_domain s d))
  /\ domains (fst (virtio_iommu_get_domain s d)) !! d
     = Some (snd (virtio_iommu_get_domain s d))
  /\ endpoints (fst (virtio_iommu_get_domain s d)) = endpoints s.
Proof.
  intros [H1 H2]. unfold virtio_iommu_get_domain.
  destruct (domains s !! d) as [dom|] eqn:Hd; simpl; [done|].
  split; [|split; [apply lookup_insert_eq|done]].
  split; simpl.
  - intros d' dom'. rewrite lookup_insert. case_decide.
    + intros [= <-]. simpl. split; [constructor|]. split; [done|].
      intros e He. by apply elem_of_nil in He.
    + apply H1.
  - intros e ep Hep. destruct (H2 e ep Hep) as [Hid Hback].
    split; [done|]. intros d' Hd'.
    destruct (Hback d' Hd') as (dom & Hdom & Hin). exists dom.
    split; [|done]. rewrite lookup_insert_ne; [done|].
    intros <-. rewrite Hd in Hdom. discriminate.
Qed.

Lemma consistent_link s e ep d dom :
  attachment_consistent s -> endpoints s !! e = Some ep -> domain ep = None ->
  domains s !! d = Some dom ->
  attachment_consistent
    (set_endpoints
       (set_domains s
          (<[d := mk_domain (domain_id dom) (mappings dom) (mappings_ref dom + 1)
                    (e :: endpoint_list dom)]> (domains s)))
       (<[e := mk_endpoint e (Some d)]> (endpoints s))).
Proof.
  intros [H1 H2] He Hnone Hd.
  assert (Hfree : forall d' dom', domains s !! d' = Some dom' ->
                    e ∉ endpoint_list dom').
  { intros d' dom' Hd' Hin. destruct (H1 d' dom' Hd') as (_ & _ & Hmem).
    destruct (Hmem e Hin) as (ep' & Hep' & Hdom'). congruence. }
  split; simpl.
  - intros d' dom'. rewrite lookup_insert. case_decide as Hdd.
    + intros [= <-]. simpl. subst d'.
      destruct (H1 d dom Hd) as (Hnd & Href & Hmem).
      split; [apply NoDup_cons; split; [by apply (Hfree d)|done]|].
      split; [rewrite Href; simpl length; lia|].
      intros e' He'. apply elem_of_cons in He' as [->|He'].
      * eexists. split; [apply lookup_insert_eq|done].
      * destruct (Hmem e' He') as (ep' & Hep' & Hdom').
        exists ep'. split; [|done]. rewrite lookup_insert_ne; [done|].
        intros <-. congruence.
    + intros Hd'. destruct (H1 d' dom' Hd') as (Hnd & Href & Hmem).
      split; [done|]. split; [done|]. intros e' He'.
      destruct (Hmem e' He') as (ep' & Hep' & Hdom').
      exists ep'. split; [|done]. rewrite lookup_insert_ne; [done|].
      intros <-. congruence.
  - intros e' ep'. rewrite lookup_insert. case_decide as Hee.
    + intros [= <-]. simpl. subst e'. split; [done|].
      intros d' [= <-]. eexists. split; [apply lookup_insert_eq|]. simpl. left.
    + intros Hep'. destruct (H2 e' ep' Hep') as [Hid Hback].
      split; [done|]. intros d' Hd'.
      destruct (Hback d' Hd') as (dom' & Hdom' & Hin).
      rewrite lookup_insert. case_decide as Hdd.
      * subst d'. eexists. split; [done|]. simpl. right. congruence.
      * by exists dom'.
Qed.

Lemma consistent_set_mappings s d dom t :
  attachment_consistent s -> domains s !! d = Some dom ->
  attachment_consistent
    (set_domains s
       (<[d := mk_domain (domain_id dom) t (mappings_ref dom)
                 (endpoint_list dom)]> (domains s))).
Proof.
  intros [H1 H2] Hd. split; simpl.
  - intros d' dom'. rewrite lookup_insert. case_decide as Hdd.
    + intros [= <-]. simpl. subst d'. apply (H1 d dom Hd).
    + apply H1.
  - intros e ep Hep. destruct (H2 e ep Hep) as [Hid Hback].
    split; [done|]. intros d' Hd'.
    destruct (Hback d' Hd') as (dom' & Hdom' & Hin).
    rewrite lookup_insert. case_decide as Hdd.
    + subst d'. eexists. split; [done|]. simpl. congruence.
    + by exists dom'.
Qed.

Lemma consistent_attach s req :
  attachment_consistent s ->
  attachment_consistent (snd (virtio_iommu_attach s req)).
Proof.
  intros HI. unfold virtio_iommu_attach.
  destruct (consistent_get_endpoint s (attach_endpoint req) HI)
    as (HI1 & Hep1 & _).
  destruct (virtio_iommu_get_endpoint s (attach_endpoint req)) as [s1 ep].
  simpl in HI1, Hep1.
  assert (Hid : endpoint_id ep = attach_endpoint req)
    by (by destruct HI1 as [_ H2]; destruct (H2 _ _ Hep1)).
  assert (H2 : exists s2 ep2,
             s2 = match domain ep with
                  | Some _ => virtio_iommu_detach_endpoint_from_domain s1 ep
                  | None => s1
                  end
             /\ attachment_consistent s2
             /\ endpoints s2 !! attach_endpoint req = Some ep2
             /\ domain ep2 = None).
  { destruct (domain ep) as [d0|] eqn:Hd0.
    - destruct (consistent_detach s1 _ ep d0 HI1 Hep1 Hd0) as [HI2 Hep2].
      by eexists _, _.
    - by exists s1, ep. }
  destruct H2 as (s2 & ep2 & <- & HI2 & Hep2 & Hnone2).
  destruct (consistent_get_domain s2 (attach_domain req) HI2)
    as (HI3 & Hd3 & He3).
  destruct (virtio_iommu_get_domain s2 (attach_domain req)) as [s3 dom].
  simpl in HI3, Hd3, He3. simpl. rewrite Hid.
  apply consistent_link with (ep := ep2); [done| |done|done].
  by rewrite He3.
Qed.

Lemma consistent_detach_command s req :
  attachment_consistent s ->
  attachment_consistent (snd (virtio_iommu_detach s req)).
Proof.
  intros HI. unfold virtio_iommu_detach.
  destruct (endpoints s !! detach_endpoint req) as [ep|] eqn:He; [|done].
  destruct (domain ep) as [d0|] eqn:Hd0; [|done]. simpl.
  by destruct (consistent_detach s _ ep d0 HI He Hd0).
Qed.

Lemma consistent_map s req :
  attachment_consistent s ->
  attachment_consistent (snd (virtio_iommu_map s req)).
Proof.
  intros HI. unfold virtio_iommu_map.
  destruct (domains s !! map_domain req) as [dom|] eqn:Hd; [|done].
  destruct (g_tree_lookup _ _ _); [done|]. simpl.
  by apply consistent_set_mappings.
Qed.

Lemma consistent_unmap fuel s req st s' :
  attachment_consistent s ->
  virtio_iommu_unmap fuel s req = Some (st, s') ->
  attachment_consistent s'.
Proof.
  intros HI. unfold virtio_iommu_unmap.
  destruct (domains s !! unmap_domain req) as [dom|] eqn:Hd;
    [|by intros [= <- <-]].
  destruct (unmap_loop _ _ _) as [[st' t']|]; [|discriminate].
  intros [= <- <-]. by apply consistent_set_mappings.
Qed.

Lemma consistent_run_commands fuel cs s s' :
  attachment_consistent s -> run_commands fuel s cs = Some s' ->
  attachment_consistent s'.
Proof.
  revert s. induction cs as [|c cs IH]; intros s HI; simpl.
  - by intros [= <-].
  - destruct (run_command fuel s c) as [[st s1]|] eqn:Hc; [|discriminate].
    apply IH. destruct c as [req|req|req|req]; simpl in Hc.
    + injection Hc as Hc. replace s1 with (snd (virtio_iommu_attach s req))
        by (by rewrite Hc). by apply consistent_attach.
    + injection Hc as Hc. replace s1 with (snd (virtio_iommu_detach s req))
        by (by rewrite Hc). by apply consistent_detach_command.
    + injection Hc as Hc. replace s1 with (snd (virtio_iommu_map s req))
        by (by rewrite Hc). by apply consistent_map.
    + by eapply consistent_unmap.
Qed.
End DomainAttachFacts.

Module DomainReachFacts.
Import DomainVariant DomainNotions DomainFacts DomainMore DomainAttachFacts.

Lemma empty_state_consistent : attachment_consistent empty_state.
Proof.
  split; simpl; intros ? ? Hl; by rewrite lookup_empty in Hl.
Qed.

Lemma reachable_consistent fuel cs s :
  run_commands fuel empty_state cs = Some s -> attachment_consistent s.
Proof. apply consistent_run_commands, empty_state_consistent. Qed.

Lemma attach_endpoint_lookup s req :
  attachment_consistent s ->
  endpoints (snd (virtio_iommu_attach s req)) !! attach_endpoint req
  = Some (mk_endpoint (attach_endpoint req) (Some (attach_domain req))).
Proof.
  intros HI.
  destruct (consistent_get_endpoint s (attach_endpoint req) HI)
    as ([_ H2] & Hep1 & _).
  destruct (H2 _ _ Hep1) as [Hid _]. revert Hid.
  unfold virtio_iommu_attach.
  destruct (virtio_iommu_get_endpoint s (attach_endpoint req)) as [s1 ep].
  destruct (virtio_iommu_get_domain _ _) as [s3 dom]. simpl.
  intros ->. apply lookup_insert_eq.
Qed.

Lemma detach_endpoint_keeps_settings s ep :
  acked_features (virtio_iommu_detach_endpoint_from_domain s ep)
  = acked_features s
  /\ page_size_mask (virtio_iommu_detach_endpoint_from_domain s ep)
     = page_size_mask s.
Proof.
  unfold virtio_iommu_detach_endpoint_from_domain. by destruct (domain ep).
Qed.

Lemma attach_keeps_settings s req :
  acked_features (snd (virtio_iommu_attach s req)) = acked_features s
  /\ page_size_mask (snd (virtio_iommu_attach s req)) = page_size_mask s.
Proof.
  unfold virtio_iommu_attach, virtio_iommu_get_endpoint.
  destruct (endpoints s !! attach_endpoint req) as [ep|]; simpl.
  - destruct (domain ep) as [d0|] eqn:Hd0.
    + unfold virtio_iommu_get_domain, virtio_iommu_detach_endpoint_from_domain.
      rewrite Hd0. simpl. by destruct (_ !! _).
    + unfold virtio_iommu_get_domain. by destruct (_ !! _).
  - unfold virtio_iommu_get_domain. simpl. by destruct (_ !! _).
Qed.

Lemma map_not_ok_unchanged s req :
  fst (virtio_iommu_map s req) <> VIRTIO_IOMMU_S_OK ->
  snd (virtio_iommu_map s req) = s.
Proof.
  unfold virtio_iommu_map. destruct (domains s !! _) as [dom|]; [|done].
  by destruct (g_tree_lookup _ _ _).
Qed.
End DomainReachFacts.

(** ** Domains and endpoints: translation, attachment and refusals *)
Section DomainCommandProperties.
Import DomainVariant DomainNotions DomainFacts DomainMore DomainMoreFacts.
Import DomainAttachFacts DomainReachFacts.

(** X4: With domains and endpoints and the bypass feature not acknowledged,
    a translation that reports no fault went through a stored mapping
    of the domain the endpoint is attached to: the interval of that
    mapping has an address in common with [addr, addr + 1], its flags
    allow every access the request asks for, and the translated address
    is the offset of [addr] in that interval added to the physical
    start of the mapping. *)
Theorem domain_translate_grants_only_through_a_mapping `{Externals}
  s sdev addr flag :
  virtio_has_feature (acked_features s) VIRTIO_IOMMU_F_BYPASS = false ->
  snd (virtio_iommu_translate s sdev addr flag) = None ->
  exists ep d dom k v,
    endpoints s !! virtio_iommu_get_sid sdev = Some ep
    /\ domain ep = Some d
    /\ domains s !! d = Some dom
    /\ (k, v) ∈ g_tree_entries (mappings dom)
    /\ intersects (mk_interval addr (u64 (addr + 1))) k
    /\ (Z.land flag IOMMU_RO <> 0 ->
        Z.land (flags v) VIRTIO_IOMMU_MAP_F_READ <> 0)
    /\ (Z.land flag IOMMU_WO <> 0 ->
        Z.land (flags v) VIRTIO_IOMMU_MAP_F_WRITE <> 0)
    /\ fst (virtio_iommu_translate s sdev addr flag)
       = mk_entry addr (u64 (addr - low k + phys_addr v))
           (Z.shiftl 1 (ctz32 (page_size_mask s)) - 1) flag.
Proof.
  intros Hby. unfold virtio_iommu_translate. rewrite Hby. simpl.
  destruct (endpoints s !! _) as [ep|] eqn:Hep; [|discriminate].
  destruct (domain ep) as [d|] eqn:Hd; [|discriminate].
  destruct (domains s !! d) as [dom|] eqn:Hdom; [|discriminate].
  destruct (g_tree_lookup_extended _ _ _) as [[k v]|] eqn:Hl; [|discriminate].
  destruct (_ || _) eqn:Hperm; [discriminate|]. intros _.
  apply g_tree_lookup_extended_Some in Hl as [Hin Hc].
  apply domain_interval_cmp_0 in Hc.
  apply orb_false_iff in Hperm as [Hr Hw].
  apply andb_false_iff in Hr, Hw.
  exists ep, d, dom, k, v. split_and!; try done.
  - intros Hf Hz. destruct Hr as [Hr|Hr].
    + apply negb_false_iff, Z.eqb_eq in Hr. done.
    + apply Z.eqb_neq in Hr. done.
  - intros Hf Hz. destruct Hw as [Hw|Hw].
    + apply negb_false_iff, Z.eqb_eq in Hw. done.
    + apply Z.eqb_neq in Hw. done.
Qed.

Lemma domain_translate_grants_only_through_a_mapping_witness :
  exists k v,
    (k, v) ∈ [(mk_interval 0x1000 0x1fff, mk_mapping 0x5000 3)]
    /\ fst (virtio_iommu_translate (H := qemu_headers) mapped_state
              (mk_iommu_device 0 7) 0x1050 1)
       = mk_entry 0x1050 (u64 (0x1050 - low k + phys_addr v)) 4095 1.
Proof.
  destruct (domain_translate_grants_only_through_a_mapping (H := qemu_headers)
              mapped_state (mk_iommu_device 0 7) 0x1050 1)
    as (ep & d & dom & k & v & Hep & Hd & Hdom & Hin & _ & _ & _ & Hfst).
  - reflexivity.
  - reflexivity.
  - exists k, v. split; [|exact Hfst].
    injection Hep as <-. injection Hd as <-. injection Hdom as <-.
    exact Hin.
Defined.

(** X5: With domains and endpoints and a well-formed interval map, an
    address that a stored interval holds together with the address
    after it is translated through that mapping, whenever the flags of
    the mapping allow the access: no fault, the requested permission,
    and the offset in the interval added to the physical start. *)
Theorem domain_translate_of_a_mapped_address `{Externals}
  s sdev ep d dom k v addr flag :
  endpoints s !! virtio_iommu_get_sid sdev = Some ep ->
  domain ep = Some d ->
  domains s !! d = Some dom ->
  mappings_wf (mappings dom) ->
  (k, v) ∈ g_tree_entries (mappings dom) ->
  0 <= addr -> low k <= addr -> addr + 1 <= high k -> high k < 2 ^ 64 ->
  (Z.land flag IOMMU_RO <> 0 ->
   Z.land (flags v) VIRTIO_IOMMU_MAP_F_READ <> 0) ->
  (Z.land flag IOMMU_WO <> 0 ->
   Z.land (flags v) VIRTIO_IOMMU_MAP_F_WRITE <> 0) ->
  virtio_iommu_translate s sdev addr flag
  = (mk_entry addr (u64 (addr - low k + phys_addr v))
       (Z.shiftl 1 (ctz32 (page_size_mask s)) - 1) flag, None).
Proof.
  intros Hep Hd Hdom Hwf Hin H0 Hlo Hhi Hmax Hr Hw.
  unfold virtio_iommu_translate. rewrite Hep, Hd, Hdom. simpl.
  assert (Hu : u64 (addr + 1) = addr + 1)
    by (unfold u64; apply Z.mod_small; lia).
  rewrite Hu.
  rewrite (lookup_within (mappings dom) (mk_interval addr (addr + 1)) k v)
    by (simpl; done || lia).
  assert (Hperm : (negb (Z.land flag IOMMU_RO =? 0)
                   && (Z.land (flags v) VIRTIO_IOMMU_MAP_F_READ =? 0))
                  || (negb (Z.land flag IOMMU_WO =? 0)
                      && (Z.land (flags v) VIRTIO_IOMMU_MAP_F_WRITE =? 0))
                  = false).
  { apply orb_false_iff. split; apply andb_false_iff.
    - destruct (Z.eqb_spec (Z.land flag IOMMU_RO) 0); [by left|].
      right. apply Z.eqb_neq. auto.
    - destruct (Z.eqb_spec (Z.land flag IOMMU_WO) 0); [by left|].
      right. apply Z.eqb_neq. auto. }
  by rewrite Hperm.
Qed.

Lemma domain_translate_of_a_mapped_address_witness :
  virtio_iommu_translate (H := qemu_headers) mapped_state
    (mk_iommu_device 0 7) 0x1050 3
  = (mk_entry 0x1050 (u64 (0x1050 - 0x1000 + 0x5000)) (Z.shiftl 1 12 - 1) 3,
     None).
Proof.
  apply (domain_translate_of_a_mapped_address (H := qemu_headers) mapped_state
           (mk_iommu_device 0 7) (mk_endpoint 7 (Some 1))
           1 (mk_domain 1
                (GNode GLeaf (mk_interval 0x1000 0x1fff) (mk_mapping 0x5000 3)
                   GLeaf) 2 [7])
           (mk_interval 0x1000 0x1fff) (mk_mapping 0x5000 3) 0x1050 3);
    try reflexivity; simpl; try lia.
  - repeat split; try lia; constructor.
  - left.
Defined.

(** X6: With domains and endpoints, once the driver has acknowledged the
    bypass feature a device whose endpoint is unknown or attached to no
    domain is let through untranslated with the permission it asks for
    and no fault, while for an endpoint attached to a domain the
    acknowledged features make no difference to the translation. *)
Theorem domain_bypass_is_for_unattached_endpoints `{Externals}
  s val sdev addr flag :
  virtio_has_feature val VIRTIO_IOMMU_F_BYPASS = true ->
  ((forall ep, endpoints s !! virtio_iommu_get_sid sdev = Some ep ->
      domain ep = None) ->
   virtio_iommu_translate (virtio_iommu_set_features s val) sdev addr flag
   = (mk_entry addr addr (Z.shiftl 1 (ctz32 (page_size_mask s)) - 1) flag,
      None))
  /\ (forall ep d, endpoints s !! virtio_iommu_get_sid sdev = Some ep ->
        domain ep = Some d ->
        virtio_iommu_translate (virtio_iommu_set_features s val) sdev addr flag
        = virtio_iommu_translate s sdev addr flag).
Proof.
  intros Hby. unfold virtio_iommu_translate, virtio_iommu_set_features. simpl.
  rewrite Hby. simpl. split.
  - intros Hno. destruct (endpoints s !! _) as [ep|]; [|done].
    by rewrite (Hno ep).
  - intros ep d -> ->. done.
Qed.

Lemma domain_bypass_is_for_unattached_endpoints_witness :
  virtio_iommu_translate (H := qemu_headers)
    (virtio_iommu_set_features mapped_state 8) (mk_iommu_device 0 9) 0x1050 3
  = (mk_entry 0x1050 0x1050 4095 3, None)
  /\ virtio_iommu_translate (H := qemu_headers)
       (virtio_iommu_set_features mapped_state 8) (mk_iommu_device 0 7) 0x3000 3
     = virtio_iommu_translate (H := qemu_headers) mapped_state
         (mk_iommu_device 0 7) 0x3000 3.
Proof.
  split.
  - apply (domain_bypass_is_for_unattached_endpoints (H := qemu_headers)
             mapped_state 8 (mk_iommu_device 0 9) 0x1050 3).
    + reflexivity.
    + intros ep Hep. vm_compute in Hep. discriminate.
  - apply (proj2 (domain_bypass_is_for_unattached_endpoints
                    (H := qemu_headers) mapped_state 8 (mk_iommu_device 0 7)
                    0x3000 3 eq_refl) (mk_endpoint 7 (Some 1)) 1);
      reflexivity.
Defined.

(** X7: With domains and endpoints, whatever commands the device has run
    since it was empty, the attachment records agree: the endpoint list
    of a domain has no duplicates and holds exactly the endpoints whose
    domain it is, every endpoint is registered under its own id, and
    the reference count of the interval map of a domain is one more
    than the number of endpoints attached to it. *)
Theorem domain_attachment_stays_consistent fuel cs s :
  run_commands fuel empty_state cs = Some s ->
  attachment_consistent s.
Proof. apply reachable_consistent. Qed.

Lemma domain_attachment_stays_consistent_witness :
  exists s,
    run_commands 0 empty_state
      [ATTACH (mk_req_attach 1 7); ATTACH (mk_req_attach 2 7);
       ATTACH (mk_req_attach 2 8); DETACH (mk_req_detach 2 7)] = Some s
    /\ attachment_consistent s.
Proof.
  eexists. split; [reflexivity|].
  apply (domain_attachment_stays_consistent 0
           [ATTACH (mk_req_attach 1 7); ATTACH (mk_req_attach 2 7);
            ATTACH (mk_req_attach 2 8); DETACH (mk_req_detach 2 7)]).
  reflexivity.
Defined.

(** X8: With domains and endpoints, in a state reached from the empty
    device: after ATTACH of an endpoint to a domain, DETACH of that
    endpoint returns OK whatever domain the request names; the endpoint
    stays registered with no domain, the domain stays registered
    without it, a second DETACH returns INVAL and changes nothing, and
    without the bypass feature a translation for that endpoint is
    denied as unattached. *)
Theorem domain_detach_after_attach `{Externals} fuel cs s d d' e :
  run_commands fuel empty_state cs = Some s ->
  let s1 := snd (virtio_iommu_attach s (mk_req_attach d e)) in
  let s2 := snd (virtio_iommu_detach s1 (mk_req_detach d' e)) in
  fst (virtio_iommu_detach s1 (mk_req_detach d' e)) = VIRTIO_IOMMU_S_OK
  /\ endpoints s2 !! e = Some (mk_endpoint e None)
  /\ (exists dom, domains s2 !! d = Some dom /\ e ∉ endpoint_list dom)
  /\ virtio_iommu_detach s2 (mk_req_detach d' e) = (VIRTIO_IOMMU_S_INVAL, s2)
  /\ (forall sdev addr flag,
        virtio_iommu_get_sid sdev = e ->
        virtio_has_feature (acked_features s) VIRTIO_IOMMU_F_BYPASS = false ->
        virtio_iommu_translate s2 sdev addr flag
        = (mk_entry addr addr (Z.shiftl 1 (ctz32 (page_size_mask s)) - 1)
             IOMMU_NONE, Some Unattached)).
Proof.
  intros Hrun s1 s2. apply reachable_consistent in Hrun.
  pose proof (consistent_attach s (mk_req_attach d e) Hrun) as HI1.
  pose proof (attach_endpoint_lookup s (mk_req_attach d e) Hrun) as Hep1.
  pose proof (attach_keeps_settings s (mk_req_attach d e)) as [Hf1 Hp1].
  fold s1 in HI1, Hep1, Hf1, Hp1. simpl in Hep1.
  destruct (consistent_detach s1 e _ d HI1 Hep1 eq_refl) as [HI2 Hep2].
  pose proof (detach_endpoint_keeps_settings s1 (mk_endpoint e (Some d)))
    as [Hf2 Hp2].
  assert (Hdet : virtio_iommu_detach s1 (mk_req_detach d' e)
                 = (VIRTIO_IOMMU_S_OK,
                    virtio_iommu_detach_endpoint_from_domain s1
                      (mk_endpoint e (Some d)))).
  { unfold virtio_iommu_detach. simpl. by rewrite Hep1. }
  assert (Hs2 : s2 = virtio_iommu_detach_endpoint_from_domain s1
                       (mk_endpoint e (Some d)))
    by (unfold s2; by rewrite Hdet).
  rewrite Hdet. rewrite Hs2. split_and!; [done|done| | |].
  - destruct HI1 as [_ H2]. destruct (H2 _ _ Hep1) as [_ Hback].
    destruct (Hback d eq_refl) as (dom & Hdom & Hin).
    unfold virtio_iommu_detach_endpoint_from_domain. simpl.
    rewrite lookup_alter_eq, Hdom. simpl. eexists. split; [done|]. simpl.
    intros Hf. apply list_elem_of_filter in Hf as [Hne _]. by apply Hne.
  - unfold virtio_iommu_detach at 1.
    change (detach_endpoint (mk_req_detach d' e)) with e. by rewrite Hep2.
  - intros sdev addr flag Hsid Hby. unfold virtio_iommu_translate.
    rewrite Hsid, Hep2. cbv zeta. cbn [domain addr_mask].
    rewrite Hf2, Hf1, Hby, Hp2, Hp1. done.
Qed.

Lemma domain_detach_after_attach_witness :
  fst (virtio_iommu_detach attached_state (mk_req_detach 5 7))
  = VIRTIO_IOMMU_S_OK
  /\ endpoints (snd (virtio_iommu_detach attached_state (mk_req_detach 5 7)))
       !! 7 = Some (mk_endpoint 7 None).
Proof.
  destruct (domain_detach_after_attach (H := qemu_headers) 0 [] empty_state
              1 5 7 eq_refl) as (H1 & H2 & _).
  split; [exact H1|exact H2].
Defined.

(** X9: With domains and endpoints, a command that returns neither OK nor
    RANGE leaves the device as it was: ATTACH never fails, DETACH and
    MAP change nothing when they fail, and UNMAP fails in no other way
    than NOENT or RANGE. *)
Theorem domain_refused_command_changes_nothing fuel s c st s' :
  run_command fuel s c = Some (st, s') ->
  st <> VIRTIO_IOMMU_S_OK -> st <> VIRTIO_IOMMU_S_RANGE ->
  s' = s.
Proof.
  intros Hc Hok Hrange. destruct c as [req|req|req|req]; simpl in Hc.
  - injection Hc as Hc. exfalso. apply Hok.
    replace st with (fst (virtio_iommu_attach s req)) by (by rewrite Hc).
    unfold virtio_iommu_attach.
    destruct (virtio_iommu_get_endpoint _ _) as [s1 ep].
    by destruct (virtio_iommu_get_domain _ _).
  - revert Hc. unfold virtio_iommu_detach.
    destruct (endpoints s !! _) as [ep|]; [|by intros [= <- <-]].
    destruct (domain ep); intros [= <- <-]; done.
  - injection Hc as Hc.
    replace s' with (snd (virtio_iommu_map s req)) by (by rewrite Hc).
    apply map_not_ok_unchanged. by rewrite Hc.
  - revert Hc. unfold virtio_iommu_unmap.
    destruct (domains s !! _) as [dom|]; [|by intros [= <- <-]].
    destruct (unmap_loop _ _ _) as [[st' t']|] eqn:Hl; [|discriminate].
    intros [= <- <-].
    destruct (unmap_loop_effect _ _ _ _ _ Hl) as (_ & _ & [[? _]|[? _]]);
      done.
Qed.

Lemma domain_refused_command_changes_nothing_witness :
  run_command 0 mapped_state (MAP (mk_req_map 1 0x7000 0x1800 0x27ff 3))
  = Some (VIRTIO_IOMMU_S_INVAL, mapped_state)
  /\ mapped_state = mapped_state.
Proof.
  split; [reflexivity|].
  apply (domain_refused_command_changes_nothing 0 mapped_state
           (MAP (mk_req_map 1 0x7000 0x1800 0x27ff 3)) VIRTIO_IOMMU_S_INVAL
           mapped_state); [reflexivity|discriminate|discriminate].
Defined.

(** X10: With domains and endpoints and a well-formed interval map, MAP on
    a registered domain either finds a stored interval with an address
    in common with the requested range, returns INVAL and changes
    nothing, or finds none, returns OK and adds exactly the requested
    interval with its physical start and flags, leaving the map
    well-formed when the range is not empty. *)
Theorem domain_map_accepts_exactly_free_ranges s req dom :
  domains s !! map_domain req = Some dom ->
  mappings_wf (mappings dom) ->
  let q := mk_interval (map_virt_start req) (map_virt_end req) in
  (virtio_iommu_map s req = (VIRTIO_IOMMU_S_INVAL, s)
   /\ exists k v, (k, v) ∈ g_tree_entries (mappings dom) /\ intersects q k)
  \/ (fst (virtio_iommu_map s req) = VIRTIO_IOMMU_S_OK
      /\ (forall k v, (k, v) ∈ g_tree_entries (mappings dom) ->
            ~ intersects q k)
      /\ exists dom',
           domains (snd (virtio_iommu_map s req)) !! map_domain req = Some dom'
           /\ (forall e, e ∈ g_tree_entries (mappings dom')
                 <-> e = (q, mk_mapping (map_phys_start req) (map_flags req))
                     \/ e ∈ g_tree_entries (mappings dom))
           /\ (low q <= high q -> mappings_wf (mappings dom'))).
Proof.
  intros Hd Hwf q. unfold virtio_iommu_map, g_tree_lookup. rewrite Hd.
  fold q.
  destruct (g_tree_lookup_extended interval_cmp (mappings dom) q)
    as [[k v]|] eqn:Hl; simpl.
  - left. split; [done|].
    apply g_tree_lookup_extended_Some in Hl as [Hin Hc].
    exists k, v. split; [done|]. by apply domain_interval_cmp_0.
  - right. split; [done|]. split.
    + intros k v Hin Hi.
      destruct (lookup_intersecting _ _ k v Hwf Hin Hi) as [x Hx].
      rewrite Hl in Hx. discriminate.
    + eexists. split; [apply lookup_insert_eq|]. simpl. split.
      * intros e. by apply g_tree_insert_entries.
      * intros Hq. by apply domain_insert_wf.
Qed.

Lemma domain_map_accepts_exactly_free_ranges_witness :
  (virtio_iommu_map mapped_state (mk_req_map 1 0x7000 0x1800 0x27ff 3)
   = (VIRTIO_IOMMU_S_INVAL, mapped_state)
   /\ exists k v,
        (k, v) ∈ [(mk_interval 0x1000 0x1fff, mk_mapping 0x5000 3)]
        /\ intersects (mk_interval 0x1800 0x27ff) k)
  \/ fst (virtio_iommu_map mapped_state (mk_req_map 1 0x7000 0x1800 0x27ff 3))
     = VIRTIO_IOMMU_S_OK.
Proof.
  destruct (domain_map_accepts_exactly_free_ranges mapped_state
              (mk_req_map 1 0x7000 0x1800 0x27ff 3)
              (mk_domain 1
                 (GNode GLeaf (mk_interval 0x1000 0x1fff) (mk_mapping 0x5000 3)
                    GLeaf) 2 [7])) as [Hl|[Hr _]].
  - reflexivity.
  - simpl. repeat split; try lia; constructor.
  - left. exact Hl.
  - right. exact Hr.
Defined.
End DomainCommandProperties.

(** ** Address spaces and devices: attachment *)
Module AsAttachFacts.
Import AsVariant AsNotions AsFacts AsMore.

Lemma as_filter_ne_not_elem (l : list Z) (e : Z) :
  e ∉ filter (fun x => x ≠ e) l.
Proof. intros Hf. apply list_elem_of_filter in Hf as [Hne _]. by apply Hne. Qed.

Lemma as_consistent_ext s s' :
  address_spaces s' = address_spaces s -> devices s' = devices s ->
  attachment_consistent s -> attachment_consistent s'.
Proof. unfold attachment_consistent. by intros -> ->. Qed.

Section WithHeaders.
Context `{Externals}.

Lemma as_consistent_get_dev s e :
  attachment_consistent s ->
  attachment_consistent (fst (virtio_iommu_get_dev s e))
  /\ devices (fst (virtio_iommu_get_dev s e)) !! e
     = Some (snd (virtio_iommu_get_dev s e))
  /\ address_spaces (fst (virtio_iommu_get_dev s e)) = address_spaces s
  /\ notifiers_list (fst (virtio_iommu_get_dev s e)) = notifiers_list s
  /\ notified (fst (virtio_iommu_get_dev s e)) = notified s.
Proof.
  intros [H1 H2]. unfold virtio_iommu_get_dev.
  destruct (devices s !! e) as [ep|] eqn:He; simpl; [done|].
  split; [|split; [apply lookup_insert_eq|done]].
  split; simpl.
  - intros d dom Hd. destruct (H1 d dom Hd) as (Hnd & Hmem).
    split; [done|]. intros e' He'.
    destruct (Hmem e' He') as (ep' & Hep' & Hdom').
    exists ep'. split; [|done]. rewrite lookup_insert_ne; [done|].
    intros <-. rewrite He in Hep'. discriminate.
  - intros e' ep'. rewrite lookup_insert. case_decide.
    + intros [= <-]. simpl. subst. split; [done|]. discriminate.
    + apply H2.
Qed.

Lemma as_consistent_detach_dev s e dev a0 :
  attachment_consistent s -> devices s !! e = Some dev ->
  as_ dev = Some a0 ->
  attachment_consistent (virtio_iommu_detach_dev_from_as s dev)
  /\ devices (virtio_iommu_detach_dev_from_as s dev) !! e
     = Some (mk_dev e None (reserved_regions dev)).
Proof.
  intros [H1 H2] He Hd0.
  destruct (H2 e dev He) as [Hid Hback].
  destruct (Hback a0 Hd0) as (asp0 & Hasp0 & Hin0).
  unfold virtio_iommu_detach_dev_from_as. rewrite Hd0, Hid. simpl.
  split; [|apply lookup_insert_eq].
  split; simpl.
  - intros d asp'. rewrite lookup_alter. case_decide as Hdd.
    + subst d. rewrite Hasp0. intros [= <-]. simpl.
      destruct (H1 a0 asp0 Hasp0) as (Hnd & Hmem).
      split; [by apply NoDup_filter|].
      intros e' He'. apply list_elem_of_filter in He' as [Hne He'].
      destruct (Hmem e' He') as (ep' & Hep' & Hdom').
      exists ep'. by rewrite lookup_insert_ne.
    + intros Hd. destruct (H1 d asp' Hd) as (Hnd & Hmem).
      split; [done|]. intros e' He'.
      destruct (Hmem e' He') as (ep' & Hep' & Hdom').
      exists ep'. split; [|done]. rewrite lookup_insert_ne; [done|].
      intros <-. rewrite He in Hep'. injection Hep' as <-. congruence.
  - intros e' ep'. rewrite lookup_insert. case_decide.
    + intros [= <-]. simpl. subst. split; [done|]. discriminate.
    + intros Hep'. destruct (H2 e' ep' Hep') as [Hid' Hback'].
      split; [done|]. intros d Hd.
      destruct (Hback' d Hd) as (asp & Hasp & Hin).
      rewrite lookup_alter. case_decide as Hdd.
      * subst d. rewrite Hasp. simpl. eexists. split; [done|]. simpl.
        apply list_elem_of_filter. split; [congruence|done].
      * by exists asp.
Qed.

Lemma as_consistent_get_as s d :
  attachment_consistent s ->
  attachment_consistent (fst (virtio_iommu_get_as s d))
  /\ address_spaces (fst (virtio_iommu_get_as s d)) !! d
     = Some (snd (virtio_iommu_get_as s d))
  /\ devices (fst (virtio_iommu_get_as s d)) = devices s.
Proof.
  intros [H1 H2]. unfold virtio_iommu_get_as.
  destruct (address_spaces s !! d) as [asp|] eqn:Hd; simpl; [done|].
  split; [|split; [apply lookup_insert_eq|done]].
  split; simpl.
  - intros d' asp'. rewrite lookup_insert. case_decide.
    + intros [= <-]. simpl. split; [constructor|].
      intros e He. by apply elem_of_nil in He.
    + apply H1.
  - intros e ep Hep. destruct (H2 e ep Hep) as [Hid Hback].
    split; [done|]. intros d' Hd'.
    destruct (Hback d' Hd') as (asp & Hasp & Hin). exists asp.
    split; [|done]. rewrite lookup_insert_ne; [done|].
    intros <-. rewrite Hd in Hasp. discriminate.
Qed.

Lemma as_consistent_link s e dev d asp :
  attachment_consistent s -> devices s !! e = Some dev -> as_ dev = None ->
  address_spaces s !! d = Some asp ->
  attachment_consistent
    (set_devices
       (set_address_spaces s
          (<[d := mk_as (as_id asp) (mappings asp) (mappings_ref asp + 1)
                    (e :: device_list asp)]> (address_spaces s)))
       (<[e := mk_dev e (Some d) (reserved_regions dev)]> (devices s))).
Proof.
  intros [H1 H2] He Hnone Hd.
  assert (Hfree : forall d' asp', address_spaces s !! d' = Some asp' ->
                    e ∉ device_list asp').
  { intros d' asp' Hd' Hin. destruct (H1 d' asp' Hd') as (_ & Hmem).
    destruct (Hmem e Hin) as (ep' & Hep' & Hdom'). congruence. }
  split; simpl.
  - intros d' asp'. rewrite lookup_insert. case_decide as Hdd.
    + intros [= <-]. simpl. subst d'.
      destruct (H1 d asp Hd) as (Hnd & Hmem).
      split; [apply NoDup_cons; split; [by apply (Hfree d)|done]|].
      intros e' He'. apply elem_of_cons in He' as [->|He'].
      * eexists. split; [apply lookup_insert_eq|done].
      * destruct (Hmem e' He') as (ep' & Hep' & Hdom').
        exists ep'. split; [|done]. rewrite lookup_insert_ne; [done|].
        intros <-. congruence.
    + intros Hd'. destruct (H1 d' asp' Hd') as (Hnd & Hmem).
      split; [done|]. intros e' He'.
      destruct (Hmem e' He') as (ep' & Hep' & Hdom').
      exists ep'. split; [|done]. rewrite lookup_insert_ne; [done|].
      intros <-. congruence.
  - intros e' ep'. rewrite lookup_insert. case_decide as Hee.
    + intros [= <-]. simpl. subst e'. split; [done|].
      intros d' [= <-]. eexists. split; [apply lookup_insert_eq|]. simpl. left.
    + intros Hep'. destruct (H2 e' ep' Hep') as [Hid Hback].
      split; [done|]. intros d' Hd'.
      destruct (Hback d' Hd') as (asp' & Hasp' & Hin).
      rewrite lookup_insert. case_decide as Hdd.
      * subst d'. eexists. split; [done|]. simpl. right. congruence.
      * by exists asp'.
Qed.

Lemma as_consistent_set_mappings s d asp t :
  attachment_consistent s -> address_spaces s !! d = Some asp ->
  attachment_consistent
    (set_address_spaces s
       (<[d := mk_as (as_id asp) t (mappings_ref asp)
                 (device_list asp)]> (address_spaces s))).
Proof.
  intros [H1 H2] Hd. split; simpl.
  - intros d' asp'. rewrite lookup_insert. case_decide as Hdd.
    + intros [= <-]. simpl. subst d'. apply (H1 d asp Hd).
    + apply H1.
  - intros e ep Hep. destruct (H2 e ep Hep) as [Hid Hback].
    split; [done|]. intros d' Hd'.
    destruct (Hback d' Hd') as (asp' & Hasp' & Hin).
    rewrite lookup_insert. case_decide as Hdd.
    + subst d'. eexists. split; [done|]. simpl. congruence.
    + by exists asp'.
Qed.

Lemma as_consistent_attach s req :
  attachment_consistent s ->
  attachment_consistent (snd (virtio_iommu_attach s req)).
Proof.
  intros HI. unfold virtio_iommu_attach.
  destruct (negb _); [done|].
  destruct (as_consistent_get_dev s (attach_device req) HI)
    as (HI1 & Hep1 & _).
  destruct (virtio_iommu_get_dev s (attach_device req)) as [s1 dev].
  simpl in HI1, Hep1.
  assert (Hid : dev_id dev = attach_device req)
    by (by destruct HI1 as [_ H2]; destruct (H2 _ _ Hep1)).
  assert (H2 : exists s2 dev2,
             s2 = match as_ dev with
                  | Some _ => virtio_iommu_detach_dev_from_as s1 dev
                  | None => s1
                  end
             /\ attachment_consistent s2
             /\ devices s2 !! attach_device req = Some dev2
             /\ as_ dev2 = None
             /\ reserved_regions dev2 = reserved_regions dev).
  { destruct (as_ dev) as [d0|] eqn:Hd0.
    - destruct (as_consistent_detach_dev s1 _ dev d0 HI1 Hep1 Hd0)
        as [HI2 Hep2].
      by eexists _, _.
    - by exists s1, dev. }
  destruct H2 as (s2 & dev2 & <- & HI2 & Hep2 & Hnone2 & Hres2).
  destruct (as_consistent_get_as s2 (attach_address_space req) HI2)
    as (HI3 & Hd3 & He3).
  destruct (virtio_iommu_get_as s2 (attach_address_space req)) as [s3 asp].
  simpl in HI3, Hd3, He3. simpl. rewrite Hid, <- Hres2.
  eapply as_consistent_ext;
    [| |apply (as_consistent_link s3 (attach_device req) dev2
                 (attach_address_space req) asp); [done| |done|done]];
    [done|done|].
  by rewrite He3.
Qed.

Lemma as_consistent_detach s req :
  attachment_consistent s ->
  attachment_consistent (snd (virtio_iommu_detach s req)).
Proof.
  intros HI. unfold virtio_iommu_detach. destruct (negb _); [done|].
  destruct (devices s !! detach_device req) as [dev|] eqn:He; [|done].
  destruct (as_ dev) as [d0|] eqn:Hd0; [|done]. simpl.
  by destruct (as_consistent_detach_dev s _ dev d0 HI He Hd0).
Qed.

Lemma as_consistent_map s req :
  attachment_consistent s ->
  attachment_consistent (snd (virtio_iommu_map s req)).
Proof.
  intros HI. unfold virtio_iommu_map.
  destruct (address_spaces s !! map_address_space req) as [asp|] eqn:Hd;
    [|done].
  destruct (g_tree_lookup _ _ _); [done|]. simpl.
  eapply as_consistent_ext; [| |by apply as_consistent_set_mappings]; done.
Qed.

Lemma as_consistent_unmap fuel s req st s' :
  attachment_consistent s ->
  virtio_iommu_unmap fuel s req = Some (st, s') ->
  attachment_consistent s'.
Proof.
  intros HI. unfold virtio_iommu_unmap.
  destruct (address_spaces s !! unmap_address_space req) as [asp|] eqn:Hd;
    [|by intros [= <- <-]].
  destruct (unmap_loop _ _ _ _ _ _ _ _) as [[[st' t'] evs]|]; [|discriminate].
  intros [= <- <-].
  eapply as_consistent_ext; [| |by apply as_consistent_set_mappings]; done.
Qed.

Lemma as_consistent_run_commands fuel cs s s' :
  attachment_consistent s -> run_commands fuel s cs = Some s' ->
  attachment_consistent s'.
Proof.
  revert s. induction cs as [|c cs IH]; intros s HI; simpl.
  - by intros [= <-].
  - destruct (run_command fuel s c) as [[st s1]|] eqn:Hc; [|discriminate].
    apply IH. destruct c as [req|req|req|req]; simpl in Hc.
    + injection Hc as Hc. replace s1 with (snd (virtio_iommu_attach s req))
        by (by rewrite Hc). by apply as_consistent_attach.
    + injection Hc as Hc. replace s1 with (snd (virtio_iommu_detach s req))
        by (by rewrite Hc). by apply as_consistent_detach.
    + injection Hc as Hc. replace s1 with (snd (virtio_iommu_map s req))
        by (by rewrite Hc). by apply as_consistent_map.
    + by eapply as_consistent_unmap.
Qed.
End WithHeaders.

Lemma as_initial_consistent nodes psm evs :
  attachment_consistent (mk_state ∅ ∅ nodes psm evs).
Proof.
  split; simpl; intros ? ? Hl; by rewrite lookup_empty in Hl.
Qed.
End AsAttachFacts.

(** ** Address spaces and devices: attachment, round trips, translation *)
Module AsMoreFacts.
Import AsVariant AsNotions AsFacts AsMore.

Lemma as_lookup_None_extended (t : GTree viommu_mapping) q :
  g_tree_lookup interval_cmp t q = None ->
  g_tree_lookup_extended interval_cmp t q = None.
Proof.
  unfold g_tree_lookup. by destruct (g_tree_lookup_extended _ _ _) as [[]|].
Qed.

Lemma as_attach_keeps_settings `{Externals} s req :
  notifiers_list (snd (virtio_iommu_attach s req)) = notifiers_list s
  /\ page_size_mask (snd (virtio_iommu_attach s req)) = page_size_mask s.
Proof.
  unfold virtio_iommu_attach. destruct (negb _); [done|].
  unfold virtio_iommu_get_dev.
  destruct (devices s !! attach_device req) as [dev|]; simpl.
  - destruct (as_ dev) as [d0|] eqn:Hd0.
    + unfold virtio_iommu_get_as, virtio_iommu_detach_dev_from_as.
      rewrite Hd0. simpl. by destruct (_ !! _).
    + unfold virtio_iommu_get_as. by destruct (_ !! _).
  - unfold virtio_iommu_get_as. simpl. by destruct (_ !! _).
Qed.

Lemma as_detach_dev_address_space `{Externals} s dev a :
  address_spaces (virtio_iommu_detach_dev_from_as s dev) !! a = None
  /\ address_spaces s !! a = None
  \/ exists asp asp',
       address_spaces (virtio_iommu_detach_dev_from_as s dev) !! a = Some asp'
       /\ address_spaces s !! a = Some asp
       /\ as_id asp' = as_id asp /\ mappings asp' = mappings asp
       /\ mappings_ref asp' = mappings_ref asp.
Proof.
  unfold virtio_iommu_detach_dev_from_as.
  destruct (as_ dev) as [a0|]; simpl.
  - rewrite lookup_alter. case_decide as Ha.
    + subst a0. destruct (address_spaces s !! a) as [asp|]; simpl.
      * right. by eexists _, _.
      * by left.
    + destruct (address_spaces s !! a) as [asp|]; [right|by left].
      by eexists _, _.
  - destruct (address_spaces s !! a) as [asp|]; [right|by left].
    by eexists _, _.
Qed.

Lemma as_attach_result `{Externals} s a d :
  attachment_consistent s ->
  let s1 := snd (virtio_iommu_attach s (mk_req_attach a d 0)) in
  let asp0 := default (mk_as a GLeaf 1 []) (address_spaces s !! a) in
  fst (virtio_iommu_attach s (mk_req_attach a d 0)) = VIRTIO_IOMMU_S_OK
  /\ (exists r, devices s1 !! d = Some (mk_dev d (Some a) r))
  /\ exists asp1,
       address_spaces s1 !! a = Some asp1
       /\ mappings asp1 = mappings asp0
       /\ mappings_ref asp1 = mappings_ref asp0 + 1
       /\ d ∈ device_list asp1.
Proof.
  intros HI s1 asp0. subst s1. unfold virtio_iommu_attach.
  change (negb (attach_reserved (mk_req_attach a d 0) =? 0)) with false.
  cbv iota. change (attach_device (mk_req_attach a d 0)) with d.
  change (attach_address_space (mk_req_attach a d 0)) with a.
  destruct (AsAttachFacts.as_consistent_get_dev s d HI)
    as (HI1 & Hdev1 & Has1 & _).
  destruct (virtio_iommu_get_dev s d) as [s1 dev]. simpl in HI1, Hdev1, Has1.
  assert (Hid : dev_id dev = d)
    by (by destruct HI1 as [_ H2]; destruct (H2 _ _ Hdev1)).
  set (s2 := match as_ dev with
             | Some _ => virtio_iommu_detach_dev_from_as s1 dev
             | None => s1
             end).
  assert (Has2 : address_spaces s2 !! a = None /\ address_spaces s !! a = None
                 \/ exists asp asp',
                      address_spaces s2 !! a = Some asp'
                      /\ address_spaces s !! a = Some asp
                      /\ as_id asp' = as_id asp /\ mappings asp' = mappings asp
                      /\ mappings_ref asp' = mappings_ref asp).
  { subst s2. rewrite <- Has1. destruct (as_ dev).
    - apply as_detach_dev_address_space.
    - destruct (address_spaces s1 !! a) as [asp|]; [right|by left].
      by eexists _, _. }
  clearbody s2. unfold virtio_iommu_get_as. subst asp0.
  destruct Has2 as [[-> ->]|(asp & asp' & -> & -> & _ & Hm & Hr)]; simpl;
    rewrite Hid.
  - split; [done|]. split; [eexists; apply lookup_insert_eq|].
    eexists. split; [apply lookup_insert_eq|]. simpl.
    split; [done|]. split; [done|]. left.
  - split; [done|]. split; [eexists; apply lookup_insert_eq|].
    eexists. split; [apply lookup_insert_eq|]. simpl.
    split; [done|]. split; [lia|]. left.
Qed.

Lemma fill_resv_mem_props `{Externals}
  (es : list (viommu_interval * virtio_iommu_probe_resv_mem)) buf :
  0 <= sizeof_probe_resv_mem ->
  filled buf + (sizeof_probe_resv_mem + 4) * Z.of_nat (length es) + 4
  < VIOMMU_PROBE_SIZE ->
  foreach_entries virtio_iommu_fill_resv_mem_prop es buf
  = mk_bufstate (buf_dev buf)
      (filled buf + (sizeof_probe_resv_mem + 4) * Z.of_nat (length es))
      (start buf ++ serialized_regions (filled buf) es) (error buf).
Proof.
  intros Hsz. revert buf.
  induction es as [|[k v] es IH]; intros buf Hfit.
  - simpl. rewrite Z.mul_0_r, Z.add_0_r, app_nil_r. by destruct buf.
  - assert (Hlen : Z.of_nat (length ((k, v) :: es)) = Z.of_nat (length es) + 1)
      by (simpl length; lia).
    rewrite Hlen in *. rewrite Z.mul_add_distr_l, Z.mul_1_r in *.
    pose proof (Zle_0_nat (length es)) as Hn.
    assert (Hprod : 0 <= (sizeof_probe_resv_mem + 4) * Z.of_nat (length es))
      by (apply Z.mul_nonneg_nonneg; lia).
    simpl foreach_entries. unfold virtio_iommu_fill_resv_mem_prop at 1.
    destruct (Z.geb_spec (filled buf) VIOMMU_PROBE_SIZE) as [Hge|Hlt]; [lia|].
    unfold VIOMMU_PROBE_SIZE in *.
    rewrite IH by (cbn [filled]; lia).
    cbn [filled start buf_dev error serialized_regions].
    rewrite <- app_assoc, Z.add_assoc. simpl app.
    f_equal. lia.
Qed.

Lemma foreach_notifier_device_nil `{Externals}
  (notify : IOMMUDevice -> IOMMUDevice * IOMMUTLBEntry) nodes devs :
  (forall node d, node ∈ nodes -> d ∈ devs -> d <> devfn node) ->
  foreach_notifier_device notify nodes devs = [].
Proof.
  intros Hno. unfold foreach_notifier_device.
  induction nodes as [|node nodes IH]; [done|]. simpl.
  rewrite IH by (intros n d Hn; apply Hno; by right).
  rewrite app_nil_r.
  assert (Hnode : forall d, d ∈ devs -> d <> devfn node)
    by (intros d; apply Hno; left).
  clear IH Hno. induction devs as [|d devs IH]; [done|]. simpl.
  destruct (Z.eqb_spec d (devfn node)) as [He|_].
  - exfalso. apply (Hnode d); [left|done].
  - apply IH. intros d' Hd'. apply Hnode. by right.
Qed.

Lemma foreach_entries_remap `{Externals} mr
  (es : list (viommu_interval * viommu_mapping)) acc :
  foreach_entries (virtio_iommu_remap mr) es acc
  = acc ++ flat_map
             (fun e => [virtio_iommu_notify_unmap mr (virt_addr (snd e)) 0
                          (size (snd e));
                        virtio_iommu_notify_map mr (virt_addr (snd e))
                          (phys_addr (snd e)) (size (snd e))]) es.
Proof.
  revert acc. induction es as [|[k m] es IH]; intros acc; simpl.
  - by rewrite app_nil_r.
  - rewrite IH. by rewrite <- app_assoc.
Qed.

Lemma as_remove_wf (t : GTree viommu_mapping) key :
  mappings_wf t -> mappings_wf (g_tree_remove interval_cmp t key).
Proof.
  unfold mappings_wf. apply ordered_remove.
  intros a b c v ? [? _] ?. lia.
Qed.

(** In a well-formed tree two entries whose keys overlap by more than a
    shared end are the same entry. *)
Lemma as_overlapping_entries_equal (t : GTree viommu_mapping) e1 e2 :
  mappings_wf t -> e1 ∈ g_tree_entries t -> e2 ∈ g_tree_entries t ->
  low (fst e2) < high (fst e1) -> low (fst e1) < high (fst e2) -> e1 = e2.
Proof.
  unfold mappings_wf. intros Hwf H1 H2 Hi1 Hi2.
  induction t as [|l IHl k0 v0 r IHr]; simpl in *.
  - by apply elem_of_nil in H1.
  - destruct Hwf as ((Hk0 & _) & Hl & Hr & Hwl & Hwr).
    rewrite Forall_forall in Hl, Hr.
    apply elem_of_app in H1 as [H1|H1]; apply elem_of_app in H2 as [H2|H2].
    + by apply IHl.
    + pose proof (Hl _ H1) as Hb1.
      apply elem_of_cons in H2 as [->|H2]; simpl in *; [lia|].
      pose proof (Hr _ H2). simpl in *. lia.
    + pose proof (Hl _ H2) as Hb2.
      apply elem_of_cons in H1 as [->|H1]; simpl in *; [lia|].
      pose proof (Hr _ H1). simpl in *. lia.
    + apply elem_of_cons in H1 as [->|H1];
        apply elem_of_cons in H2 as [->|H2]; simpl in *.
      * done.
      * pose proof (Hr _ H2). simpl in *. lia.
      * pose proof (Hr _ H1). simpl in *. lia.
      * by apply IHr.
Qed.

(** In a well-formed tree the removal of a stored key of more than one
    address takes that entry away. *)
Lemma as_remove_stored_key (t : GTree viommu_mapping) k v :
  mappings_wf t -> (k, v) ∈ g_tree_entries t -> low k < high k ->
  (k, v) ∉ g_tree_entries (g_tree_remove interval_cmp t k).
Proof.
  unfold mappings_wf. intros Hwf Hin Hk Hrem.
  induction t as [|l IHl k0 v0 r IHr]; simpl in *.
  - by apply elem_of_nil in Hin.
  - destruct Hwf as ((Hk0 & _) & Hl & Hr & Hwl & Hwr).
    rewrite Forall_forall in Hl, Hr.
    destruct (Z.eqb_spec (interval_cmp k k0) 0) as [E0|E0].
    + apply as_interval_cmp_0 in E0.
      assert (Hnl : (k, v) ∉ g_tree_entries l)
        by (intros Hi; specialize (Hl _ Hi); simpl in Hl; lia).
      assert (Hnr : (k, v) ∉ g_tree_entries r)
        by (intros Hi; specialize (Hr _ Hi); simpl in Hr; lia).
      destruct l as [|ll lk lv lr]; [done|].
      destruct (g_tree_first r) as [[k' v']|] eqn:Hf; [|done].
      change (g_tree_entries (GNode (GNode ll lk lv lr) k' v'
                                (g_tree_remove_first r)))
        with (g_tree_entries (GNode ll lk lv lr)
              ++ (k', v') :: g_tree_entries (g_tree_remove_first r)) in Hrem.
      apply elem_of_app in Hrem as [Hrem|Hrem]; [done|].
      apply Hnr. by rewrite (g_tree_first_entries r _ Hf).
    + destruct (Z.ltb_spec (interval_cmp k k0) 0) as [Hlt|Hge]; simpl in Hrem.
      * apply as_interval_cmp_neg in Hlt.
        apply elem_of_app in Hrem as [Hrem|Hrem].
        -- apply IHl; [done| |done].
           apply elem_of_app in Hin as [Hin|Hin]; [done|].
           apply elem_of_cons in Hin as [[= -> ->]|Hin]; [lia|].
           specialize (Hr _ Hin). simpl in Hr. lia.
        -- apply elem_of_cons in Hrem as [[= -> ->]|Hrem]; [lia|].
           specialize (Hr _ Hrem). simpl in Hr. lia.
      * assert (Hgt : high k0 <= low k).
        { revert E0 Hge. unfold interval_cmp.
          destruct (Z.leb_spec (high k) (low k0)); [lia|].
          destruct (Z.leb_spec (high k0) (low k)); lia. }
        apply elem_of_app in Hrem as [Hrem|Hrem].
        -- specialize (Hl _ Hrem). simpl in Hl. lia.
        -- apply elem_of_cons in Hrem as [[= -> ->]|Hrem]; [lia|].
           apply IHr; [done| |done].
           apply elem_of_app in Hin as [Hin|Hin].
           ++ specialize (Hl _ Hin). simpl in Hl. lia.
           ++ apply elem_of_cons in Hin as [[= -> ->]|Hin]; [lia|done].
Qed.

(** UNMAP of exactly a stored mapping of a well-formed tree, whatever
    the shape of the tree: one pass removes that entry and no other. *)
Lemma as_exact_unmap_loop `{Externals} fuel nodes devs
  (t : GTree viommu_mapping) m evs :
  mappings_wf t -> (key_of m, m) ∈ g_tree_entries t ->
  0 <= virt_addr m -> 2 <= size m -> virt_addr m + size m < 2 ^ 64 ->
  unmap_loop fuel nodes devs (size m) t (key_of m) evs
    (g_tree_lookup interval_cmp t (key_of m))
  = Some (VIRTIO_IOMMU_S_OK, g_tree_remove interval_cmp t (key_of m),
          evs ++ foreach_notifier_device
                   (fun mr => virtio_iommu_notify_unmap mr (virt_addr m) 0
                                (size m)) nodes devs)
  /\ mappings_wf (g_tree_remove interval_cmp t (key_of m))
  /\ (forall e, e ∈ g_tree_entries (g_tree_remove interval_cmp t (key_of m))
        <-> e ∈ g_tree_entries t /\ e <> (key_of m, m)).
Proof.
  intros Hwf Hin H0 Hsz Hmax.
  assert (Hu : u64 (virt_addr m + size m - 1) = virt_addr m + size m - 1)
    by (unfold u64; apply Z.mod_small; lia).
  assert (Hlo : low (key_of m) = virt_addr m) by done.
  assert (Hhi : high (key_of m) = virt_addr m + size m - 1)
    by (unfold key_of; simpl; done).
  assert (Hl : g_tree_lookup interval_cmp t (key_of m) = Some m)
    by (apply (as_lookup_within t _ (key_of m) m Hwf Hin); lia).
  set (t1 := g_tree_remove interval_cmp t (key_of m)).
  assert (Hsub : forall e, e ∈ g_tree_entries t1 ->
                   e ∈ g_tree_entries t /\ e <> (key_of m, m)).
  { intros e He. split; [by eapply g_tree_remove_entries|].
    intros ->. apply (as_remove_stored_key t (key_of m) m); [done..|lia|done]. }
  split; [|split; [by apply as_remove_wf|]].
  - rewrite Hl.
    assert (Hgeb : (size m >=? size m) = true) by (apply Z.geb_le; lia).
    assert (Hnext : (virt_addr m + size m - 1 + 1
                     >=? virt_addr m + size m - 1) = true)
      by (apply Z.geb_le; lia).
    assert (Hu1 : u64 (virt_addr m + size m - 1 + 1)
                  = virt_addr m + size m - 1 + 1)
      by (unfold u64; apply Z.mod_small; lia).
    assert (Hu2 : u64 (virt_addr m + size m - 1 - virt_addr m + 1) = size m)
      by (unfold u64; rewrite Z.mod_small; lia).
    destruct fuel; simpl; rewrite Hu, Z.eqb_refl, Hgeb; simpl;
      rewrite Hu1, Hnext, Hu2; unfold t1, key_of; by rewrite Hu.
  - intros e. split; [apply Hsub|]. intros [He Hne].
    destruct (g_tree_remove_keeps interval_cmp t (key_of m) e He) as [Hr|Hc];
      [done|].
    destruct Hne. symmetry. apply as_interval_cmp_0 in Hc.
    apply (as_overlapping_entries_equal t (key_of m, m) e); [done..| |];
      simpl; lia.
Qed.

Lemma withdrawn_maps_nil `{Externals} nodes id (t : GTree viommu_mapping) :
  (forall node, node ∈ nodes -> id <> devfn node) ->
  withdrawn_maps nodes id t = [].
Proof.
  intros Hno. unfold withdrawn_maps.
  induction nodes as [|node nodes IH]; [done|]. simpl.
  destruct (Z.eqb_spec id (devfn node)) as [He|_].
  - exfalso. apply (Hno node); [left|done].
  - apply IH. intros n Hn. apply Hno. by right.
Qed.

Lemma ctz_pos_nonneg p : 0 <= ctz_pos p.
Proof. induction p; simpl; lia. Qed.

Lemma ctz_pos_pow p : 2 ^ ctz_pos p <= Z.pos p.
Proof.
  induction p as [p IH|p IH|]; simpl ctz_pos; try (simpl; lia).
  pose proof (ctz_pos_nonneg p).
  rewrite Z.pow_add_r by lia. lia.
Qed.

Lemma ctz_pos_land p q :
  match Pos.land p q with
  | N0 => True
  | Npos r => ctz_pos p <= ctz_pos r
  end.
Proof.
  revert q. induction p as [p IH|p IH|]; intros q.
  - destruct (Pos.land p~1 q) as [|r]; [done|]. simpl. apply ctz_pos_nonneg.
  - destruct q as [q|q|]; [| |done].
    + change (Pos.land p~0 q~1) with (Pos.Ndouble (Pos.land p q)).
      specialize (IH q). destruct (Pos.land p q) as [|r]; [done|].
      change (1 + ctz_pos p <= 1 + ctz_pos r). lia.
    + change (Pos.land p~0 q~0) with (Pos.Ndouble (Pos.land p q)).
      specialize (IH q). destruct (Pos.land p q) as [|r]; [done|].
      change (1 + ctz_pos p <= 1 + ctz_pos r). lia.
  - destruct (Pos.land 1 q) as [|r]; [done|]. simpl. apply ctz_pos_nonneg.
Qed.

Lemma ctz32_host_le_32 val : 0 <= ctz32_host val <= 32.
Proof.
  unfold ctz32_host.
  pose proof (Z.mod_pos_bound val (2 ^ 32) ltac:(lia)) as Hb.
  destruct (val mod 2 ^ 32) as [|p|p]; [lia| |lia].
  pose proof (ctz_pos_nonneg p). pose proof (ctz_pos_pow p).
  split; [done|].
  destruct (Z.le_gt_cases (ctz_pos p) 32) as [|Hgt]; [done|].
  assert (2 ^ 32 <= 2 ^ ctz_pos p) by (apply Z.pow_le_mono_r; lia). lia.
Qed.

Lemma ctz32_host_land val mask :
  ctz32_host val <= ctz32_host (Z.land val mask).
Proof.
  pose proof (ctz32_host_le_32 val) as Hv.
  unfold ctz32_host in *.
  assert (Hl : Z.land val mask mod 2 ^ 32
               = Z.land (val mod 2 ^ 32) (mask mod 2 ^ 32)).
  { rewrite <- !Z.land_ones by lia. apply Z.bits_inj'. intros i Hi.
    rewrite !Z.land_spec. by destruct (Z.testbit val i), (Z.testbit mask i),
      (Z.testbit (Z.ones 32) i). }
  rewrite Hl.
  pose proof (Z.mod_pos_bound val (2 ^ 32) ltac:(lia)) as Hb1.
  pose proof (Z.mod_pos_bound mask (2 ^ 32) ltac:(lia)) as Hb2.
  destruct (val mod 2 ^ 32) as [|p|p]; [done| |lia].
  cbv beta iota in Hv.
  destruct (mask mod 2 ^ 32) as [|q|q]; [rewrite Z.land_0_r; lia| |lia].
  change (Z.land (Z.pos p) (Z.pos q)) with (Z.of_N (Pos.land p q)).
  pose proof (ctz_pos_land p q) as Hpq.
  destruct (Pos.land p q) as [|r]; cbv beta iota delta [Z.of_N]; [lia|done].
Qed.

Lemma ctz_pos_divide p : (2 ^ ctz_pos p | Z.pos p).
Proof.
  induction p as [p IH|p IH|]; cbn [ctz_pos]; try apply Z.divide_1_l.
  pose proof (ctz_pos_nonneg p).
  rewrite Z.pow_add_r, Z.pow_1_r by lia.
  change (Z.pos p~0) with (2 * Z.pos p). by apply Z.mul_divide_mono_l.
Qed.

Lemma ctz32_host_small val : val mod 2 ^ 31 <> 0 -> ctz32_host val <= 30.
Proof.
  intros Hval. unfold ctz32_host.
  assert (Hm : val mod 2 ^ 31 = (val mod 2 ^ 32) mod 2 ^ 31)
    by (symmetry; apply Z.mod_mod_divide; exists 2; lia).
  pose proof (Z.mod_pos_bound val (2 ^ 32) ltac:(lia)) as Hb.
  destruct (val mod 2 ^ 32) as [|p|p]; [done| |lia].
  destruct (Z.le_gt_cases (ctz_pos p) 30) as [|Hgt]; [done|].
  exfalso. apply Hval. rewrite Hm. apply Z.mod_divide; [lia|].
  transitivity (2 ^ ctz_pos p); [|apply ctz_pos_divide].
  exists (2 ^ (ctz_pos p - 31)). rewrite <- Z.pow_add_r by lia.
  f_equal. lia.
Qed.

Lemma as_translate_addr_mask `{Externals} s sdev addr flag :
  addr_mask (fst (virtio_iommu_translate s sdev addr flag))
  = Z.shiftl 1 (ctz32 (page_size_mask s)) - 1.
Proof.
  unfold virtio_iommu_translate.
  destruct (devices s !! _) as [dev|]; [|done].
  destruct (as_ dev) as [a|]; [|done].
  destruct (address_spaces s !! a) as [asp|]; [|done].
  destruct (g_tree_lookup _ _ _) as [m|]; [|done].
  by destruct (_ || _).
Qed.
End AsMoreFacts.

Section AsCommandProperties.
Import AsVariant AsNotions AsFacts AsMore AsAttachFacts AsMoreFacts.

(** X15: With address spaces and devices, whatever commands the device has
    run since it held no address space and no device, the attachment
    records agree: the device list of an address space has no
    duplicates and holds exactly the devices attached to it, and every
    device is registered under its own id. *)
Theorem as_attachment_stays_consistent `{Externals} fuel nodes psm cs s :
  run_commands fuel (mk_state ∅ ∅ nodes psm []) cs = Some s ->
  attachment_consistent s.
Proof. apply as_consistent_run_commands, as_initial_consistent. Qed.

Lemma as_attachment_stays_consistent_witness :
  exists s,
    run_commands (H := qemu_headers) 0 (mk_state ∅ ∅ [] 4096 [])
      [ATTACH (mk_req_attach 1 7 0); ATTACH (mk_req_attach 2 7 0);
       ATTACH (mk_req_attach 2 8 0); DETACH (mk_req_detach 7 0)] = Some s
    /\ attachment_consistent s.
Proof.
  eexists. split; [vm_compute; reflexivity|].
  apply (as_attachment_stays_consistent (H := qemu_headers) 0 [] 4096
           [ATTACH (mk_req_attach 1 7 0); ATTACH (mk_req_attach 2 7 0);
            ATTACH (mk_req_attach 2 8 0); DETACH (mk_req_detach 7 0)]).
  vm_compute. reflexivity.
Defined.

(** X16: With address spaces and devices and a well-formed interval map,
    an UNMAP of the address and size that an accepted MAP has just
    mapped (at least two bytes, not reaching the end of the 64-bit
    space) returns OK without looping and leaves the interval map with
    the entries it had before the MAP, well-formed again; the device
    list and the reference count of the address space and the devices
    are as before.  What is notified is the map and then the unmap of
    that range, once for every pair of a registered notifier and a
    device of the address space whose id equals the devfn of the
    notifier.  (The statement is about the entries: the shape of the
    tree, on which nothing here depends, is GLib's business.) *)
Theorem as_map_then_unmap_restores `{Externals} fuel s req asp :
  address_spaces s !! map_address_space req = Some asp ->
  mappings_wf (mappings asp) ->
  0 <= map_virt_addr req -> 2 <= map_size req ->
  map_virt_addr req + map_size req < 2 ^ 64 ->
  fst (virtio_iommu_map s req) = VIRTIO_IOMMU_S_OK ->
  exists s' asp',
    virtio_iommu_unmap fuel (snd (virtio_iommu_map s req))
      (mk_req_unmap (map_address_space req) (map_virt_addr req) (map_size req))
    = Some (VIRTIO_IOMMU_S_OK, s')
    /\ address_spaces s' !! map_address_space req = Some asp'
    /\ (forall e, e ∈ g_tree_entries (mappings asp')
          <-> e ∈ g_tree_entries (mappings asp))
    /\ mappings_wf (mappings asp')
    /\ device_list asp' = device_list asp
    /\ mappings_ref asp' = mappings_ref asp
    /\ (forall a, a <> map_address_space req ->
          address_spaces s' !! a = address_spaces s !! a)
    /\ devices s' = devices s
    /\ notified s'
       = notified s
         ++ foreach_notifier_device
              (fun mr => virtio_iommu_notify_map mr (map_virt_addr req)
                           (map_phys_addr req) (map_size req))
              (notifiers_list s) (device_list asp)
         ++ foreach_notifier_device
              (fun mr => virtio_iommu_notify_unmap mr (map_virt_addr req) 0
                           (map_size req))
              (notifiers_list s) (device_list asp).
Proof.
  intros Ha Hwf H0 Hsz Hmax Hok.
  set (m := mk_mapping (map_virt_addr req) (map_phys_addr req) (map_size req)
              (map_flags req)).
  assert (Hq : mk_interval (map_virt_addr req)
                 (u64 (map_virt_addr req + map_size req - 1)) = key_of m)
    by done.
  assert (Hu : u64 (map_virt_addr req + map_size req - 1)
               = map_virt_addr req + map_size req - 1)
    by (unfold u64; apply Z.mod_small; lia).
  revert Hok. unfold virtio_iommu_map. rewrite Ha, Hq. fold m.
  destruct (g_tree_lookup interval_cmp (mappings asp) (key_of m)) eqn:Hl;
    [discriminate|]. intros _.
  apply as_lookup_None_extended in Hl.
  set (t1 := g_tree_insert interval_cmp (mappings asp) (key_of m) m).
  assert (Hwf1 : mappings_wf t1).
  { unfold mappings_wf in *. apply ordered_insert; [| |done| |done].
    - intros a b. by rewrite as_interval_cmp_neg.
    - intros a b. unfold interval_cmp.
      destruct (Z.leb_spec (high a) (low b)); [lia|].
      destruct (Z.leb_spec (high b) (low a)); lia.
    - split; [|done]. unfold key_of. simpl. rewrite Hu. lia. }
  assert (Hin1 : (key_of m, m) ∈ g_tree_entries t1)
    by (apply g_tree_insert_entries; [done|by left]).
  assert (Hnew : (key_of m, m) ∉ g_tree_entries (mappings asp)).
  { intros Hin.
    assert (Hf : g_tree_lookup interval_cmp (mappings asp) (key_of m) = Some m)
      by (apply (AsFacts.as_lookup_within _ _ (key_of m) m Hwf Hin);
          unfold key_of; simpl; rewrite ?Hu; lia).
    unfold g_tree_lookup in Hf. rewrite Hl in Hf. discriminate. }
  destruct (as_exact_unmap_loop fuel (notifiers_list s) (device_list asp) t1 m
              [] Hwf1 Hin1) as (Hloop & Hwf2 & Hent); [done..|].
  eexists _, _. unfold virtio_iommu_unmap.
  cbn [unmap_address_space unmap_virt_addr unmap_size address_spaces
       memory_region_notify_iommu set_address_spaces notifiers_list
       device_list mappings snd].
  rewrite lookup_insert_eq.
  cbn [mappings device_list as_id mappings_ref]. rewrite Hq. fold t1.
  change (map_size req) with (size m) at 1. rewrite Hloop.
  split; [reflexivity|].
  cbn [address_spaces memory_region_notify_iommu set_address_spaces devices
       notified].
  split; [apply lookup_insert_eq|].
  cbn [mappings device_list mappings_ref].
  split_and!; try done.
  - intros e. rewrite Hent. unfold t1.
    rewrite (g_tree_insert_entries interval_cmp _ (key_of m) m e Hl).
    split; [intros [[->|He] Hne]; done|].
    intros He. split; [by right|]. intros ->. done.
  - intros a Hne. by rewrite !lookup_insert_ne.
  - by rewrite <- app_assoc.
Qed.

Lemma as_map_then_unmap_restores_witness :
  exists s' asp',
    virtio_iommu_unmap (H := qemu_headers) 0
      (snd (virtio_iommu_map (attached_state (H := qemu_headers))
              (mk_req_map 1 0x5000 0x1000 0x1000 3)))
      (mk_req_unmap 1 0x1000 0x1000)
    = Some (VIRTIO_IOMMU_S_OK, s')
    /\ address_spaces s' !! 1 = Some asp'
    /\ (forall e, e ∈ g_tree_entries (mappings asp') <-> e ∈ []).
Proof.
  destruct (as_map_then_unmap_restores (H := qemu_headers) 0
              (attached_state (H := qemu_headers))
              (mk_req_map 1 0x5000 0x1000 0x1000 3) (mk_as 1 GLeaf 2 [7]))
    as (s' & asp' & H1 & H2 & H3 & _).
  - reflexivity.
  - simpl. done.
  - simpl. lia.
  - simpl. lia.
  - simpl. lia.
  - reflexivity.
  - exists s', asp'. split; [exact H1|]. split; [exact H2|exact H3].
Defined.

(** X17: With address spaces and devices, in a state reached from a device
    without address spaces: after ATTACH of a device to an address
    space, DETACH of that device returns OK; the device stays
    registered with no address space, the address space stays
    registered without it and with the same mappings, and a second
    DETACH returns INVAL and changes nothing.  The unmap of every
    mapping of the address space is notified, in key order, to the
    registered notifiers whose devfn equals the device id and to no
    other: when the device id is the devfn of no registered notifier,
    as for a device whose id carries a bus number, DETACH notifies
    nothing.  The reference ATTACH took on the interval map is still
    held: the count is one higher than before the ATTACH. *)
Theorem as_detach_after_attach `{Externals} fuel nodes psm cs s a d :
  run_commands fuel (mk_state ∅ ∅ nodes psm []) cs = Some s ->
  let s1 := snd (virtio_iommu_attach s (mk_req_attach a d 0)) in
  let s2 := snd (virtio_iommu_detach s1 (mk_req_detach d 0)) in
  let asp0 := default (mk_as a GLeaf 1 []) (address_spaces s !! a) in
  fst (virtio_iommu_detach s1 (mk_req_detach d 0)) = VIRTIO_IOMMU_S_OK
  /\ (exists dev, devices s2 !! d = Some dev /\ as_ dev = None)
  /\ (exists asp2,
        address_spaces s2 !! a = Some asp2
        /\ (d ∉ device_list asp2)
        /\ mappings asp2 = mappings asp0
        /\ mappings_ref asp2 = mappings_ref asp0 + 1)
  /\ notified s2
     = notified s1 ++ withdrawn_maps (notifiers_list s) d (mappings asp0)
  /\ ((forall node, node ∈ notifiers_list s -> d <> devfn node) ->
      notified s2 = notified s1)
  /\ virtio_iommu_detach s2 (mk_req_detach d 0) = (VIRTIO_IOMMU_S_INVAL, s2).
Proof.
  intros Hrun s1 s2 asp0.
  apply as_consistent_run_commands in Hrun; [|apply as_initial_consistent].
  destruct (as_attach_result s a d Hrun)
    as (_ & [r Hdev1] & asp1 & Hasp1 & Hm1 & Hr1 & Hin1).
  fold s1 in Hdev1, Hasp1. fold asp0 in Hm1, Hr1.
  pose proof (as_consistent_attach s (mk_req_attach a d 0) Hrun) as HI1.
  fold s1 in HI1.
  pose proof (as_attach_keeps_settings s (mk_req_attach a d 0)) as [Hn1 _].
  fold s1 in Hn1.
  destruct (as_consistent_detach_dev s1 d _ a HI1 Hdev1 eq_refl)
    as [HI2 Hdev2].
  assert (Hdet : virtio_iommu_detach s1 (mk_req_detach d 0)
                 = (VIRTIO_IOMMU_S_OK,
                    virtio_iommu_detach_dev_from_as s1 (mk_dev d (Some a) r))).
  { unfold virtio_iommu_detach. simpl. by rewrite Hdev1. }
  assert (Hs2 : s2 = virtio_iommu_detach_dev_from_as s1 (mk_dev d (Some a) r))
    by (unfold s2; by rewrite Hdet).
  rewrite Hdet, Hs2.
  assert (Hev : notified (virtio_iommu_detach_dev_from_as s1
                            (mk_dev d (Some a) r))
                = notified s1
                  ++ withdrawn_maps (notifiers_list s) d (mappings asp0)).
  { unfold virtio_iommu_detach_dev_from_as. simpl. rewrite Hasp1.
    by rewrite foreach_notifier_tree_unmap, Hn1, Hm1. }
  split_and!; [done|by eexists| |done| |].
  - unfold virtio_iommu_detach_dev_from_as. simpl.
    rewrite lookup_alter_eq, Hasp1. simpl. eexists. split; [done|]. simpl.
    split; [apply as_filter_ne_not_elem|]. by split.
  - intros Hno. rewrite Hev, withdrawn_maps_nil by done. apply app_nil_r.
  - unfold virtio_iommu_detach at 1.
    change (detach_reserved (mk_req_detach d 0)) with 0.
    change (detach_device (mk_req_detach d 0)) with d.
    simpl negb. cbv iota. by rewrite Hdev2.
Qed.

Lemma as_detach_after_attach_witness :
  fst (virtio_iommu_detach (H := qemu_headers)
         (attached_state (H := qemu_headers)) (mk_req_detach 7 0))
  = VIRTIO_IOMMU_S_OK
  /\ exists asp2,
       address_spaces
         (snd (virtio_iommu_detach (H := qemu_headers)
                 (attached_state (H := qemu_headers)) (mk_req_detach 7 0)))
         !! 1 = Some asp2
       /\ mappings_ref asp2 = 2.
Proof.
  destruct (as_detach_after_attach (H := qemu_headers) 0 [] 4096 []
              (mk_state ∅ ∅ [] 4096 []) 1 7 eq_refl)
    as (H1 & _ & (asp2 & H2 & _ & _ & H3) & _).
  split; [exact H1|]. exists asp2. split; [exact H2|exact H3].
Defined.

(** X18: With address spaces and devices and a well-formed interval map, a
    translation that reports no fault went through a stored mapping
    whose interval holds the address, strictly before its end, and
    whose flags allow every access the request asks for; the translated
    address is the offset of the address in the mapping added to its
    physical start. *)
Theorem as_translate_goes_through_a_covering_mapping `{Externals}
  s sdev dev a asp addr flag :
  devices s !! virtio_iommu_get_sid sdev = Some dev ->
  as_ dev = Some a ->
  address_spaces s !! a = Some asp ->
  mappings_wf (mappings asp) ->
  0 <= addr -> addr + 1 < 2 ^ 64 ->
  snd (virtio_iommu_translate s sdev addr flag) = None ->
  exists m,
    (key_of m, m) ∈ g_tree_entries (mappings asp)
    /\ virt_addr m <= addr < u64 (virt_addr m + size m - 1)
    /\ (Z.land flag IOMMU_RO <> 0 ->
        Z.land (flags m) VIRTIO_IOMMU_MAP_F_READ <> 0)
    /\ (Z.land flag IOMMU_WO <> 0 ->
        Z.land (flags m) VIRTIO_IOMMU_MAP_F_WRITE <> 0)
    /\ fst (virtio_iommu_translate s sdev addr flag)
       = mk_entry addr (u64 (addr - virt_addr m + phys_addr m))
           (Z.shiftl 1 (ctz32 (page_size_mask s)) - 1) flag.
Proof.
  intros Hdev Ha Hasp Hwf H0 Hmax.
  unfold virtio_iommu_translate. rewrite Hdev, Ha, Hasp. simpl.
  assert (Hu : u64 (addr + 1) = addr + 1)
    by (unfold u64; apply Z.mod_small; lia).
  rewrite Hu.
  destruct (g_tree_lookup _ _ _) as [m|] eqn:Hl; [|discriminate].
  destruct (_ || _) eqn:Hperm; [discriminate|]. intros _.
  apply g_tree_lookup_Some in Hl as (k & Hin & Hc).
  apply as_interval_cmp_0 in Hc. simpl in Hc.
  pose proof (ordered_entry_key _ _ _ Hwf Hin) as ->.
  apply orb_false_iff in Hperm as [Hr Hw].
  apply andb_false_iff in Hr, Hw.
  exists m. simpl in Hc. split_and!; try done; lia.
Qed.

Lemma as_translate_goes_through_a_covering_mapping_witness :
  exists m,
    (key_of m, m) ∈ [(mk_interval 0x1000 0x1fff, mk_mapping 0x1000 0x5000 0x1000 3)]
    /\ virt_addr m <= 0x1050 < u64 (virt_addr m + size m - 1).
Proof.
  destruct (as_translate_goes_through_a_covering_mapping (H := qemu_headers)
              (mapped_state (H := qemu_headers)) (mk_iommu_device 0 7)
              (mk_dev 7 (Some 1) GLeaf) 1
              (mk_as 1
                 (GNode GLeaf (mk_interval 0x1000 0x1fff)
                    (mk_mapping 0x1000 0x5000 0x1000 3) GLeaf) 2 [7])
              0x1050 1) as (m & H1 & H2 & _).
  - reflexivity.
  - reflexivity.
  - reflexivity.
  - simpl. repeat split; try lia; constructor.
  - lia.
  - lia.
  - reflexivity.
  - exists m. split; [exact H1|exact H2].
Defined.

(** X19: With address spaces and devices and a well-formed interval map, an
    address of a stored mapping other than its last is translated
    through that mapping whenever the flags of the mapping allow the
    access: no fault, the requested permission, and the offset in the
    mapping added to its physical start. *)
Theorem as_translate_of_a_mapped_address `{Externals}
  s sdev dev a asp m addr flag :
  devices s !! virtio_iommu_get_sid sdev = Some dev ->
  as_ dev = Some a ->
  address_spaces s !! a = Some asp ->
  mappings_wf (mappings asp) ->
  (key_of m, m) ∈ g_tree_entries (mappings asp) ->
  0 <= virt_addr m -> virt_addr m + size m <= 2 ^ 64 ->
  virt_addr m <= addr -> addr + 1 < virt_addr m + size m ->
  (Z.land flag IOMMU_RO <> 0 ->
   Z.land (flags m) VIRTIO_IOMMU_MAP_F_READ <> 0) ->
  (Z.land flag IOMMU_WO <> 0 ->
   Z.land (flags m) VIRTIO_IOMMU_MAP_F_WRITE <> 0) ->
  virtio_iommu_translate s sdev addr flag
  = (mk_entry addr (u64 (addr - virt_addr m + phys_addr m))
       (Z.shiftl 1 (ctz32 (page_size_mask s)) - 1) flag, None).
Proof.
  intros Hdev Ha Hasp Hwf Hin H0 Hmax Hlo Hhi Hr Hw.
  unfold virtio_iommu_translate. rewrite Hdev, Ha, Hasp. simpl.
  assert (Hu : u64 (addr + 1) = addr + 1)
    by (unfold u64; apply Z.mod_small; lia).
  assert (Hk : u64 (virt_addr m + size m - 1) = virt_addr m + size m - 1)
    by (unfold u64; apply Z.mod_small; lia).
  rewrite Hu.
  rewrite (as_lookup_within (mappings asp) (mk_interval addr (addr + 1))
             (key_of m) m Hwf Hin)
    by (unfold key_of; simpl; rewrite ?Hk; lia).
  assert (Hperm : (negb (Z.land flag IOMMU_RO =? 0)
                   && (Z.land (flags m) VIRTIO_IOMMU_MAP_F_READ =? 0))
                  || (negb (Z.land flag IOMMU_WO =? 0)
                      && (Z.land (flags m) VIRTIO_IOMMU_MAP_F_WRITE =? 0))
                  = false).
  { apply orb_false_iff. split; apply andb_false_iff.
    - destruct (Z.eqb_spec (Z.land flag IOMMU_RO) 0); [by left|].
      right. apply Z.eqb_neq. auto.
    - destruct (Z.eqb_spec (Z.land flag IOMMU_WO) 0); [by left|].
      right. apply Z.eqb_neq. auto. }
  by rewrite Hperm.
Qed.

Lemma as_translate_of_a_mapped_address_witness :
  virtio_iommu_translate (H := qemu_headers) (mapped_state (H := qemu_headers))
    (mk_iommu_device 0 7) 0x1ffe 3
  = (mk_entry 0x1ffe (u64 (0x1ffe - 0x1000 + 0x5000)) (Z.shiftl 1 12 - 1) 3,
     None).
Proof.
  apply (as_translate_of_a_mapped_address (H := qemu_headers)
           (mapped_state (H := qemu_headers)) (mk_iommu_device 0 7)
           (mk_dev 7 (Some 1) GLeaf) 1
           (mk_as 1
              (GNode GLeaf (mk_interval 0x1000 0x1fff)
                 (mk_mapping 0x1000 0x5000 0x1000 3) GLeaf) 2 [7])
           (mk_mapping 0x1000 0x5000 0x1000 3) 0x1ffe 3);
    try reflexivity; simpl; try lia.
  - repeat split; try lia; constructor.
  - left.
Defined.

(** X20: With the property types of the virtio-iommu header (NONE is 0,
    RESV_MEM is 1), PROBE of a registered device whose reserved regions
    and the terminating property fit in the buffer returns OK after
    writing one RESV_MEM property per reserved region, in key order and
    back to back, and then the terminating NONE property; nothing is
    flagged as an error. *)
Theorem probe_lists_the_reserved_regions `{Externals} fuel s req dev :
  VIRTIO_IOMMU_PROBE_T_NONE = 0 -> VIRTIO_IOMMU_PROBE_T_RESV_MEM = 1 ->
  ctz32 1 = 0 -> ctz32 0 = 32 -> 0 <= sizeof_probe_resv_mem ->
  devices s !! probe_device req = Some dev ->
  let n := Z.of_nat (g_tree_nnodes (reserved_regions dev)) in
  let total := sizeof_probe_resv_mem + 4 in
  total * n + 4 < VIOMMU_PROBE_SIZE ->
  virtio_iommu_probe (S fuel) s req
  = Some (probe_status VIRTIO_IOMMU_S_OK,
          Some (mk_bufstate dev (total * n + 4)
                  (serialized_regions 0 (g_tree_entries (reserved_regions dev))
                   ++ [mk_property (total * n) 0 0 None])
                  false)).
Proof.
  intros Hnone Hresv Hctz1 Hctz0 Hsz Hdev n total Hfit.
  unfold virtio_iommu_probe. rewrite Hdev.
  unfold g_tree_nnodes in *. subst total.
  assert (Hn : 0 <= (sizeof_probe_resv_mem + 4) * n)
    by (apply Z.mul_nonneg_nonneg; lia).
  assert (Hloop : probe_loop (S fuel) (probe_device req)
                    SUPPORTED_PROBE_PROPERTIES (mk_bufstate dev 0 [] false)
                  = Some (mk_bufstate dev ((sizeof_probe_resv_mem + 4) * n)
                            (serialized_regions 0
                               (g_tree_entries (reserved_regions dev)))
                            false)).
  { unfold SUPPORTED_PROBE_PROPERTIES. rewrite Hnone, Hresv.
    change (Z.lor 0 1) with 1. cbn [probe_loop]. rewrite Hctz1.
    change (0 =? 32) with false. cbv iota.
    change (Z.shiftl 1 0) with 1.
    unfold virtio_iommu_fill_property at 1. cbn [filled].
    change (0 + 4 >=? VIOMMU_PROBE_SIZE) with false. cbv iota.
    rewrite Hnone, Hresv.
    change (1 =? 0) with false. change (1 =? 1) with true. cbv iota.
    cbn [buf_dev]. unfold g_tree_foreach.
    rewrite fill_resv_mem_props by (cbn [filled]; fold n; lia).
    cbn [error filled start buf_dev app].
    change (Z.land 1 (Z.lnot 1)) with 0. fold n. rewrite Z.add_0_l.
    destruct fuel; cbn [probe_loop]; rewrite Hctz0; done. }
  rewrite Hloop. unfold virtio_iommu_fill_property. cbn [filled].
  destruct (Z.geb_spec ((sizeof_probe_resv_mem + 4) * n + 4) VIOMMU_PROBE_SIZE)
    as [Hge|_]; [lia|].
  rewrite Z.eqb_refl. unfold virtio_iommu_fill_none_prop.
  cbn [filled start buf_dev error]. rewrite Hnone. done.
Qed.

Lemma probe_lists_the_reserved_regions_witness :
  virtio_iommu_probe (H := qemu_headers) 1
    (mk_state ∅ {[ 7 := mk_dev 7 None (resv_regions 2 0) ]} [] 4096 [])
    (mk_req_probe 7)
  = Some (probe_status VIRTIO_IOMMU_S_OK,
          Some (mk_bufstate (mk_dev 7 None (resv_regions 2 0)) 52
                  [mk_property 0 1 20 (Some (mk_resv_mem 0 0 0x1000 0));
                   mk_property 24 1 20 (Some (mk_resv_mem 0 0x1000 0x1000 0));
                   mk_property 48 0 0 None]
                  false)).
Proof.
  apply (probe_lists_the_reserved_regions (H := qemu_headers) 0
           (mk_state ∅ {[ 7 := mk_dev 7 None (resv_regions 2 0) ]} [] 4096 [])
           (mk_req_probe 7) (mk_dev 7 None (resv_regions 2 0)));
    reflexivity || (simpl; lia).
Defined.



(** X22: With address spaces and devices, the notifications of MAP go by
    devfn alone: when no device of the address space has an id equal to
    the devfn of a registered notifier, as for a device whose id
    carries a bus number, MAP notifies nobody. *)
Theorem as_map_notifies_by_devfn_only `{Externals} s req asp :
  address_spaces s !! map_address_space req = Some asp ->
  (forall node d, node ∈ notifiers_list s -> d ∈ device_list asp ->
     d <> devfn node) ->
  notified (snd (virtio_iommu_map s req)) = notified s.
Proof.
  intros Ha Hno. unfold virtio_iommu_map. rewrite Ha.
  destruct (g_tree_lookup _ _ _); [done|].
  cbn [snd notified memory_region_notify_iommu set_address_spaces
       notifiers_list device_list].
  rewrite foreach_notifier_device_nil by done. apply app_nil_r.
Qed.

Lemma as_map_notifies_by_devfn_only_witness :
  notified
    (snd (virtio_iommu_map (H := qemu_headers)
            (snd (virtio_iommu_attach (H := qemu_headers)
                    (mk_state ∅ ∅ [mk_iommu_device 1 7] 4096 [])
                    (mk_req_attach 1 0x107 0)))
            (mk_req_map 1 0x5000 0x1000 0x1000 3)))
  = [].
Proof.
  refine (eq_trans
            (as_map_notifies_by_devfn_only (H := qemu_headers)
               (snd (virtio_iommu_attach (H := qemu_headers)
                       (mk_state ∅ ∅ [mk_iommu_device 1 7] 4096 [])
                       (mk_req_attach 1 0x107 0)))
               (mk_req_map 1 0x5000 0x1000 0x1000 3) (mk_as 1 GLeaf 2 [0x107])
               _ _) _).
  - reflexivity.
  - intros node d Hn Hd. simpl in Hn, Hd.
    apply list_elem_of_singleton in Hn, Hd. subst. discriminate.
  - reflexivity.
Defined.

(** X23: With address spaces and devices, a replay changes no registry; for
    a device attached to an address space it tells the memory region,
    for every mapping of that address space in key order, the unmap of
    the mapping and then its map, and for a device that is unknown or
    attached to nothing it does nothing. *)
Theorem as_replay_tells_every_mapping `{Externals} s sdev :
  address_spaces (virtio_iommu_replay s sdev) = address_spaces s
  /\ devices (virtio_iommu_replay s sdev) = devices s
  /\ notifiers_list (virtio_iommu_replay s sdev) = notifiers_list s
  /\ (forall dev a asp,
        devices s !! virtio_iommu_get_sid sdev = Some dev ->
        as_ dev = Some a -> address_spaces s !! a = Some asp ->
        notified (virtio_iommu_replay s sdev)
        = notified s
          ++ flat_map
               (fun e => [virtio_iommu_notify_unmap sdev (virt_addr (snd e)) 0
                            (size (snd e));
                          virtio_iommu_notify_map sdev (virt_addr (snd e))
                            (phys_addr (snd e)) (size (snd e))])
               (g_tree_entries (mappings asp)))
  /\ (devices s !! virtio_iommu_get_sid sdev = None ->
      virtio_iommu_replay s sdev = s)
  /\ (forall dev, devices s !! virtio_iommu_get_sid sdev = Some dev ->
        as_ dev = None -> virtio_iommu_replay s sdev = s).
Proof.
  unfold virtio_iommu_replay. split_and!.
  - destruct (devices s !! _) as [dev|]; [|done].
    destruct (as_ dev) as [a|]; [|done]. by destruct (address_spaces s !! a).
  - destruct (devices s !! _) as [dev|]; [|done].
    destruct (as_ dev) as [a|]; [|done]. by destruct (address_spaces s !! a).
  - destruct (devices s !! _) as [dev|]; [|done].
    destruct (as_ dev) as [a|]; [|done]. by destruct (address_spaces s !! a).
  - intros dev a asp -> -> ->. unfold g_tree_foreach.
    by rewrite foreach_entries_remap.
  - by intros ->.
  - by intros dev -> ->.
Qed.

(** X24: With address spaces and devices, the first request for the address
    space of a PCI function creates its IOMMU device and registers a
    device under its bus/devfn identifier without touching the address
    spaces; asking again returns the same IOMMU device and changes
    nothing, and a translation for that device no longer reports an
    unknown device. *)
Theorem as_find_add_as_registers_the_device `{Externals} buses s bus fn :
  default ∅ (buses !! bus) !! fn = None ->
  0 <= PCI_BUILD_BDF bus fn < 2 ^ 16 ->
  let r := virtio_iommu_find_add_as buses s bus fn in
  snd r = mk_iommu_device bus fn
  /\ virtio_iommu_find_add_as (fst (fst r)) (snd (fst r)) bus fn = r
  /\ address_spaces (snd (fst r)) = address_spaces s
  /\ (forall d dev, devices s !! d = Some dev ->
        devices (snd (fst r)) !! d = Some dev)
  /\ is_Some (devices (snd (fst r)) !! virtio_iommu_get_sid (snd r))
  /\ (forall addr flag,
        snd (virtio_iommu_translate (snd (fst r)) (snd r) addr flag)
        <> Some UnknownDevice).
Proof.
  intros Hnew Hbdf r. subst r. unfold virtio_iommu_find_add_as. rewrite Hnew.
  cbn [fst snd].
  assert (Hsid : virtio_iommu_get_sid (mk_iommu_device bus fn)
                 = PCI_BUILD_BDF bus fn mod 2 ^ 32).
  { unfold virtio_iommu_get_sid. cbn [bus_num devfn].
    rewrite !Z.mod_small; lia. }
  assert (Hreg : is_Some (devices
                            (fst (virtio_iommu_get_dev s
                                    (PCI_BUILD_BDF bus fn mod 2 ^ 32)))
                          !! (PCI_BUILD_BDF bus fn mod 2 ^ 32))).
  { unfold virtio_iommu_get_dev.
    destruct (devices s !! _) as [dev|] eqn:Hd; cbn [fst]; [by rewrite Hd|].
    cbn [devices set_devices]. rewrite lookup_insert_eq. by eexists. }
  split_and!.
  - done.
  - assert (Hb : (<[bus := <[fn := mk_iommu_device bus fn]>
                             (default ∅ (buses !! bus))]>
                    match buses !! bus with
                    | Some _ => buses
                    | None => <[bus := ∅]> buses
                    end) !! bus
                 = Some (<[fn := mk_iommu_device bus fn]>
                           (default ∅ (buses !! bus))))
      by apply lookup_insert_eq.
    rewrite Hb. cbn [default from_option id]. rewrite lookup_insert_eq. done.
  - unfold virtio_iommu_get_dev. by destruct (devices s !! _).
  - intros d dev Hd. unfold virtio_iommu_get_dev.
    destruct (devices s !! (PCI_BUILD_BDF bus fn mod 2 ^ 32)) eqn:Hx;
      cbn [fst]; [done|].
    cbn [devices set_devices]. rewrite lookup_insert_ne; [done|].
    intros <-. rewrite Hx in Hd. discriminate.
  - by rewrite Hsid.
  - intros addr flag. unfold virtio_iommu_translate. rewrite Hsid.
    destruct Hreg as [dev ->].
    destruct (as_ dev) as [a|]; [|done].
    destruct (address_spaces _ !! a) as [asp|]; [|done].
    destruct (g_tree_lookup _ _ _) as [m|]; [|done].
    by destruct (_ || _).
Qed.

Lemma as_find_add_as_registers_the_device_witness :
  is_Some (devices
             (snd (fst (virtio_iommu_find_add_as (H := qemu_headers) ∅
                          (mk_state ∅ ∅ [] 4096 []) 0 7)))
           !! virtio_iommu_get_sid (H := qemu_headers)
                (snd (virtio_iommu_find_add_as (H := qemu_headers) ∅
                        (mk_state ∅ ∅ [] 4096 []) 0 7))).
Proof.
  destruct (as_find_add_as_registers_the_device (H := qemu_headers) ∅
              (mk_state ∅ ∅ [] 4096 []) 0 7) as (_ & _ & _ & _ & H5 & _).
  - reflexivity.
  - change (0 <= 7 < 2 ^ 16). lia.
  - exact H5.
Defined.

(** X25: With QEMU's [ctz32], a new page size mask that leaves a page size
    below 2^31 raises no fatal error and only takes page sizes away:
    the mask kept is contained in the old one, and the address mask of
    the entries that translation returns, derived from the smallest
    page size left, never gets smaller and stays within an [int]. *)
Theorem set_page_size_mask_never_shrinks_the_granule s mask sdev addr flag :
  Z.land (page_size_mask s) mask mod 2 ^ 31 <> 0 ->
  let s' := fst (virtio_iommu_set_page_size_mask s mask) in
  snd (virtio_iommu_set_page_size_mask s mask) = false
  /\ Z.land (page_size_mask s') (page_size_mask s) = page_size_mask s'
  /\ addr_mask (fst (virtio_iommu_translate (H := qemu_headers) s sdev addr
                       flag))
     <= addr_mask (fst (virtio_iommu_translate (H := qemu_headers) s' sdev
                          addr flag))
     < 2 ^ 31.
Proof.
  intros Hleft s'. subst s'. unfold virtio_iommu_set_page_size_mask.
  cbn [fst snd page_size_mask]. split_and!.
  - apply Z.eqb_neq. intros Hz. by rewrite Hz in Hleft.
  - rewrite <- Z.land_assoc, (Z.land_comm mask), Z.land_assoc, Z.land_diag.
    done.
  - rewrite !as_translate_addr_mask. cbn [page_size_mask].
    change (ctz32 (Externals := qemu_headers)) with ctz32_host.
    pose proof (ctz32_host_land (page_size_mask s) mask) as Hle.
    pose proof (ctz32_host_le_32 (page_size_mask s)) as [H0 _].
    rewrite !Z.shiftl_1_l.
    assert (2 ^ ctz32_host (page_size_mask s)
            <= 2 ^ ctz32_host (Z.land (page_size_mask s) mask))
      by (apply Z.pow_le_mono_r; lia).
    lia.
  - rewrite as_translate_addr_mask. cbn [page_size_mask].
    change (ctz32 (Externals := qemu_headers)) with ctz32_host.
    pose proof (ctz32_host_small _ Hleft) as Hsmall.
    pose proof (ctz32_host_le_32 (Z.land (page_size_mask s) mask)) as [H0 _].
    rewrite Z.shiftl_1_l.
    assert (2 ^ ctz32_host (Z.land (page_size_mask s) mask) <= 2 ^ 30)
      by (apply Z.pow_le_mono_r; lia).
    lia.
Qed.

Lemma set_page_size_mask_never_shrinks_the_granule_witness :
  addr_mask (fst (virtio_iommu_translate (H := qemu_headers)
                    (mk_state ∅ ∅ [] 0x11000 []) (mk_iommu_device 0 7)
                    0x1050 3))
  <= addr_mask (fst (virtio_iommu_translate (H := qemu_headers)
                       (fst (virtio_iommu_set_page_size_mask
                               (mk_state ∅ ∅ [] 0x11000 []) 0x10000))
                       (mk_iommu_device 0 7) 0x1050 3))
  < 2 ^ 31.
Proof.
  destruct (set_page_size_mask_never_shrinks_the_granule
              (mk_state ∅ ∅ [] 0x11000 []) 0x10000 (mk_iommu_device 0 7)
              0x1050 3) as (_ & _ & H3).
  - vm_compute. discriminate.
  - exact H3.
Defined.
End AsCommandProperties.

(** ** The comparator of the registries and the bus table *)
Section RegistryProperties.

(** X14: [int_cmp] orders the keys of the registries as unsigned 32-bit
    numbers: it returns 0 exactly for keys with the same 32 low bits,
    a negative number exactly when the first is the smaller, the
    opposite when the arguments are swapped, and it is transitive. *)
Theorem int_cmp_orders_ids_as_unsigned a b c :
  (int_cmp a b = 0 <-> GPOINTER_TO_UINT a = GPOINTER_TO_UINT b)
  /\ (int_cmp a b < 0 <-> GPOINTER_TO_UINT a < GPOINTER_TO_UINT b)
  /\ int_cmp b a = - int_cmp a b
  /\ (int_cmp a b < 0 -> int_cmp b c < 0 -> int_cmp a c < 0).
Proof.
  unfold int_cmp.
  generalize (GPOINTER_TO_UINT a), (GPOINTER_TO_UINT b), (GPOINTER_TO_UINT c).
  intros x y z.
  destruct (Z.gtb_spec x y), (Z.ltb_spec x y), (Z.gtb_spec y x),
    (Z.ltb_spec y x), (Z.gtb_spec y z), (Z.ltb_spec y z), (Z.gtb_spec x z),
    (Z.ltb_spec x z); lia.
Qed.

(** X13: With domains and endpoints, the first request for the address
    space of a PCI function creates its IOMMU device in the bus table;
    asking again returns the same IOMMU device and leaves the table as
    it is, and the IOMMU devices of the other functions are untouched. *)
Theorem domain_find_add_as_is_idempotent buses bus devfn :
  let r := DomainMore.virtio_iommu_find_add_as buses bus devfn in
  DomainMore.virtio_iommu_find_add_as (fst r) bus devfn = r
  /\ default ∅ (fst r !! bus) !! devfn = Some (snd r)
  /\ (forall bus' devfn', (bus', devfn') <> (bus, devfn) ->
        default ∅ (fst r !! bus') !! devfn'
        = default ∅ (buses !! bus') !! devfn').
Proof.
  intros r. subst r. unfold DomainMore.virtio_iommu_find_add_as.
  destruct (buses !! bus) as [sbus|] eqn:Hb; cbn [default from_option id].
  - destruct (sbus !! devfn) as [sdev|] eqn:Hd; cbn [fst snd].
    + rewrite Hb. cbn [default from_option id]. rewrite Hd. split; [done|]. split; [done|].
      done.
    + rewrite lookup_insert_eq. cbn [default from_option id]. rewrite lookup_insert_eq.
      split; [done|]. split; [done|]. intros bus' devfn' Hne.
      destruct (decide (bus' = bus)) as [->|Hbus].
      * rewrite lookup_insert_eq, Hb. cbn [default from_option id].
        rewrite lookup_insert_ne; [done|]. congruence.
      * by rewrite lookup_insert_ne.
  - rewrite lookup_empty. cbn [fst snd]. rewrite lookup_insert_eq.
    cbn [default from_option id]. rewrite lookup_insert_eq.
    split; [done|]. split; [done|]. intros bus' devfn' Hne.
    destruct (decide (bus' = bus)) as [->|Hbus].
    + rewrite lookup_insert_eq, Hb. cbn [default from_option id].
      rewrite lookup_insert_ne; [done|]. congruence.
    + rewrite !lookup_insert_ne by done. done.
Qed.
End RegistryProperties.

(** ** Accepted ranges with address spaces, and further instances *)
Module AsOverlapFacts.
Import AsVariant AsNotions AsFacts.

(** In an ordered tree the search finds an entry whenever a stored
    interval overlaps the query by more than a shared end. *)
Lemma as_lookup_overlapping (t : GTree viommu_mapping) q k m :
  mappings_wf t -> (k, m) ∈ g_tree_entries t ->
  low k < high q -> low q < high k ->
  is_Some (g_tree_lookup_extended interval_cmp t q).
Proof.
  unfold mappings_wf. intros Hwf Hin Hi1 Hi2.
  induction t as [|l IHl k0 v0 r IHr]; simpl in *.
  - by apply elem_of_nil in Hin.
  - destruct Hwf as ((Hk0 & _) & Hl & Hr & Hwl & Hwr).
    rewrite Forall_forall in Hl, Hr.
    destruct (Z.eqb_spec (interval_cmp q k0) 0) as [|Hne]; [by eexists|].
    destruct (Z.ltb_spec (interval_cmp q k0) 0) as [Hlt|Hge].
    + apply as_interval_cmp_neg in Hlt. apply IHl; [done|].
      apply elem_of_app in Hin as [Hin|Hin]; [done|].
      apply elem_of_cons in Hin as [[= -> ->]|Hin]; [lia|].
      specialize (Hr _ Hin). simpl in Hr. lia.
    + assert (Hgt : high k0 <= low q).
      { revert Hne Hge. unfold interval_cmp.
        destruct (Z.leb_spec (high q) (low k0)); [lia|].
        destruct (Z.leb_spec (high k0) (low q)); lia. }
      apply IHr; [done|].
      apply elem_of_app in Hin as [Hin|Hin].
      * specialize (Hl _ Hin). simpl in Hl. lia.
      * apply elem_of_cons in Hin as [[= -> ->]|Hin]; [lia|done].
Qed.
End AsOverlapFacts.

Section AsMapProperties.
Import AsVariant AsNotions AsFacts AsMore AsOverlapFacts.

(** X26: With address spaces and devices and a well-formed interval map,
    MAP on a registered address space either finds a stored interval
    that overlaps the requested one by more than a shared end, returns
    INVAL and changes nothing, or finds none, returns OK and adds
    exactly the requested mapping, leaving the map well-formed when the
    range does not wrap. *)
Theorem as_map_accepts_exactly_ranges_without_overlap `{Externals} s req asp :
  address_spaces s !! map_address_space req = Some asp ->
  mappings_wf (mappings asp) ->
  let q := request_interval (map_virt_addr req) (map_size req) in
  (virtio_iommu_map s req = (VIRTIO_IOMMU_S_INVAL, s)
   /\ exists k m, (k, m) ∈ g_tree_entries (mappings asp)
                  /\ low k < high q /\ low q < high k)
  \/ (fst (virtio_iommu_map s req) = VIRTIO_IOMMU_S_OK
      /\ (forall k m, (k, m) ∈ g_tree_entries (mappings asp) ->
            ~ (low k < high q /\ low q < high k))
      /\ exists asp',
           address_spaces (snd (virtio_iommu_map s req)) !! map_address_space req
           = Some asp'
           /\ (forall e, e ∈ g_tree_entries (mappings asp')
                 <-> e = (q, mk_mapping (map_virt_addr req) (map_phys_addr req)
                               (map_size req) (map_flags req))
                     \/ e ∈ g_tree_entries (mappings asp))
           /\ (low q <= high q -> mappings_wf (mappings asp'))).
Proof.
  intros Ha Hwf q.
  unfold virtio_iommu_map, g_tree_lookup. rewrite Ha.
  change (mk_interval (map_virt_addr req)
            (u64 (map_virt_addr req + map_size req - 1))) with q.
  destruct (g_tree_lookup_extended interval_cmp (mappings asp) q)
    as [[k m]|] eqn:Hl.
  - left. split; [done|].
    apply g_tree_lookup_extended_Some in Hl as [Hin Hc].
    apply as_interval_cmp_0 in Hc. exists k, m. split; [done|]. lia.
  - right. split; [done|]. split.
    + intros k m Hin [Hi1 Hi2].
      destruct (as_lookup_overlapping _ q k m Hwf Hin Hi1 Hi2) as [x Hx].
      rewrite Hl in Hx. discriminate.
    + eexists. split; [apply lookup_insert_eq|]. cbn [mappings]. split.
      * intros e. by apply g_tree_insert_entries.
      * intros Hq. unfold mappings_wf in *.
        apply ordered_insert; [| |done|done|done].
        -- intros a b. by rewrite as_interval_cmp_neg.
        -- intros a b. unfold interval_cmp.
           destruct (Z.leb_spec (high a) (low b)); [lia|].
           destruct (Z.leb_spec (high b) (low a)); lia.
Qed.

Lemma as_map_accepts_exactly_ranges_without_overlap_witness :
  virtio_iommu_map (H := qemu_headers) (mapped_state (H := qemu_headers))
    (mk_req_map 1 0x7000 0x1800 0x1000 3)
  = (VIRTIO_IOMMU_S_INVAL, mapped_state (H := qemu_headers))
  \/ fst (virtio_iommu_map (H := qemu_headers)
            (mapped_state (H := qemu_headers))
            (mk_req_map 1 0x7000 0x1800 0x1000 3))
     = VIRTIO_IOMMU_S_OK.
Proof.
  destruct (as_map_accepts_exactly_ranges_without_overlap (H := qemu_headers)
              (mapped_state (H := qemu_headers))
              (mk_req_map 1 0x7000 0x1800 0x1000 3)
              (mk_as 1
                 (GNode GLeaf (mk_interval 0x1000 0x1fff)
                    (mk_mapping 0x1000 0x5000 0x1000 3) GLeaf) 2 [7]))
    as [[Hl _]|[Hr _]].
  - reflexivity.
  - simpl. repeat split; try lia; constructor.
  - left. exact Hl.
  - right. exact Hr.
Defined.
End AsMapProperties.

Section FurtherInstances.
Import DomainVariant DomainNotions.

Lemma domain_mappings_stay_apart_witness :
  exists fuel s',
    run_commands fuel empty_state
      [ATTACH (mk_req_attach 1 7); MAP (mk_req_map 1 0x5000 0x1000 0x1fff 3);
       MAP (mk_req_map 1 0x9000 0 0xfff 3);
       UNMAP (mk_req_unmap 1 0 0x1fff)] = Some s'
    /\ forall d dom, domains s' !! d = Some dom ->
         all_apart (g_tree_keys (mappings dom)).
Proof.
  apply (DomainFacts.domain_mappings_stay_apart
           [ATTACH (mk_req_attach 1 7);
            MAP (mk_req_map 1 0x5000 0x1000 0x1fff 3);
            MAP (mk_req_map 1 0x9000 0 0xfff 3);
            UNMAP (mk_req_unmap 1 0 0x1fff)]).
  repeat constructor; simpl; lia.
Defined.

Lemma translate_fault_denies_witness :
  perm (fst (virtio_iommu_translate (H := qemu_headers) mapped_state
               (mk_iommu_device 0 7) 0x3000 3))
  = IOMMU_NONE (Externals := qemu_headers).
Proof.
  apply (DomainFacts.translate_fault_denies (H := qemu_headers) mapped_state
           (mk_iommu_device 0 7) 0x3000 3 NoMapping).
  reflexivity.
Defined.
End FurtherInstances.

(** ** ATTACH and the notifiers, PROBE on the states the inputs build *)
Module AsInputFacts.
Import AsVariant AsNotions AsFacts AsMore AsAttachFacts.

Lemma foreach_notifier_tree_nil `{Externals}
  (func : IOMMUDevice -> viommu_interval -> viommu_mapping ->
          list (IOMMUDevice * IOMMUTLBEntry) ->
          list (IOMMUDevice * IOMMUTLBEntry) * bool)
  nodes id (t : GTree viommu_mapping) :
  (forall node, node ∈ nodes -> id <> devfn node) ->
  foreach_notifier_tree func nodes id t = [].
Proof.
  intros Hno. unfold foreach_notifier_tree.
  induction nodes as [|node nodes IH]; [done|]. simpl.
  destruct (Z.eqb_spec id (devfn node)) as [He|_].
  - exfalso. apply (Hno node); [left|done].
  - apply IH. intros n Hn. apply Hno. by right.
Qed.

Lemma attach_notifies_by_devfn `{Externals} s req :
  attach_reserved req = 0 ->
  (forall dev, devices s !! attach_device req = Some dev ->
     dev_id dev = attach_device req) ->
  (forall node, node ∈ notifiers_list s -> attach_device req <> devfn node) ->
  notified (snd (virtio_iommu_attach s req)) = notified s.
Proof.
  intros Hres Hid Hno. unfold virtio_iommu_attach. rewrite Hres.
  change (negb (0 =? 0)) with false. cbv iota.
  unfold virtio_iommu_get_dev.
  destruct (devices s !! attach_device req) as [dev|] eqn:Hdev.
  - specialize (Hid dev eq_refl).
    destruct (as_ dev) as [a0|] eqn:Ha0.
    + unfold virtio_iommu_detach_dev_from_as. rewrite Ha0, Hid.
      unfold virtio_iommu_get_as. cbn [address_spaces set_devices
        set_address_spaces memory_region_notify_iommu].
      destruct (alter _ a0 (address_spaces s) !! attach_address_space req);
        cbn [snd notified notifiers_list memory_region_notify_iommu
             set_devices set_address_spaces];
        rewrite !foreach_notifier_tree_nil by done;
        destruct (address_spaces s !! a0);
        rewrite ?foreach_notifier_tree_nil by done;
        by rewrite !app_nil_r.
    + unfold virtio_iommu_get_as.
      destruct (address_spaces s !! attach_address_space req);
        cbn [snd notified notifiers_list memory_region_notify_iommu
             set_devices set_address_spaces];
        rewrite !foreach_notifier_tree_nil by done; by rewrite !app_nil_r.
  - cbn [as_]. unfold virtio_iommu_get_as.
    cbn [address_spaces set_devices].
    destruct (address_spaces s !! attach_address_space req);
      cbn [snd notified notifiers_list memory_region_notify_iommu
           set_devices set_address_spaces];
      rewrite !foreach_notifier_tree_nil by done; by rewrite !app_nil_r.
Qed.








End AsInputFacts.

Section AttachAndNotifiers.
Import AsVariant AsNotions AsMore AsInputFacts.

(** C7: with address spaces and devices the replay of ATTACH does not
    reach the notifier of a device that sits on a numbered bus.  The
    notifiers are matched by comparing the device id with the devfn of
    the notifier's IOMMU device, while the id under which a device is
    registered, translated and replayed is its bus/devfn stream id: an
    ATTACH whose device id is the devfn of no registered notifier
    notifies nothing.  For the function at bus 1, devfn 7 (stream id
    0x107) with its notifier registered and device 0x107 attached to
    address space 1, ATTACH to address space 2 returns OK, moves the
    device, adds a reference to the map of address space 2 and makes
    translation use that map, but replays none of its mappings; the
    reference on the map of address space 1 is still held. *)
Theorem attach_replay_misses_the_notifier_of_a_bus_device :
  (forall (E : Externals) s req,
      attach_reserved req = 0 ->
      (forall dev, devices s !! attach_device req = Some dev ->
         dev_id dev = attach_device req) ->
      (forall node, node ∈ notifiers_list s ->
         attach_device req <> devfn node) ->
      notified (snd (virtio_iommu_attach s req)) = notified s)
  /\ exists buses s,
       run_inputs (H := qemu_headers) 0 0 (initial 4096) bus_device_inputs
       = Some (buses, s)
       /\ notifiers_list s = [mk_iommu_device 1 7]
       /\ virtio_iommu_get_sid (H := qemu_headers) (mk_iommu_device 1 7)
          = 0x107
       /\ devices s !! 0x107 = Some (mk_dev 0x107 (Some 1) GLeaf)
       /\ address_spaces s !! 1 = Some (mk_as 1 GLeaf 2 [0x107])
       /\ address_spaces s !! 2
          = Some (mk_as 2
                    (GNode GLeaf (mk_interval 0x1000 0x1fff)
                       (mk_mapping 0x1000 0x5000 0x1000 3) GLeaf) 2 [8])
       /\ notified s = []
       /\ let r := virtio_iommu_attach (H := qemu_headers) s
                     (mk_req_attach 2 0x107 0) in
          fst r = VIRTIO_IOMMU_S_OK
          /\ devices (snd r) !! 0x107 = Some (mk_dev 0x107 (Some 2) GLeaf)
          /\ address_spaces (snd r) !! 2
             = Some (mk_as 2
                       (GNode GLeaf (mk_interval 0x1000 0x1fff)
                          (mk_mapping 0x1000 0x5000 0x1000 3) GLeaf)
                       3 [0x107; 8])
          /\ address_spaces (snd r) !! 1 = Some (mk_as 1 GLeaf 2 [])
          /\ virtio_iommu_translate (H := qemu_headers) (snd r)
               (mk_iommu_device 1 7) 0x1050 3
             = (mk_entry 0x1050 0x5050 0xfff 3, None)
          /\ (virtio_iommu_notify_map (H := qemu_headers)
                (mk_iommu_device 1 7) 0x1000 0x5000 0x1000
              ∉ notified (snd r))
          /\ notified (snd r) = [].
Proof.
  split.
  - intros E s req. apply attach_notifies_by_devfn.
  - eexists _, _. split; [vm_compute; reflexivity|].
    split_and!; try (vm_compute; reflexivity).
    cbv zeta. split_and!; try (vm_compute; reflexivity).
    intros Hin. vm_compute in Hin. inversion Hin.
Qed.
End AttachAndNotifiers.

Section ProbeOnBuiltStates.
Import AsVariant AsNotions AsFacts AsMore AsInputFacts.


End ProbeOnBuiltStates.
